(** * SmartETL: profiler, feature engineer and pipeline generator

    A shallow embedding of the three modules

      - [data_cleaner.py]        (class [DataProfiler]),
      - [feature_engineer.py]    (class [FeatureEngineer]),
      - [pipeline_generator.py]  (class [PipelineGenerator]),

    and of what the examples use beside them, the class [Config] and the
    helpers [validate_dataframe] and [check_column_uniqueness] of [utils],
    together with the small part of pandas, scikit-learn, [json] and [os]
    that these classes call.  Data frames live in a store and are addressed
    by reference, so that copies, in-place column assignment and aliasing
    are visible in the model.

    Conventions for tables.  A column label is a string, and a table
    has no two columns with one label unless a statement says otherwise: the
    classes look a column up by its label, and with a repeated label, or
    with a label that is no string where a method calls [lower()] on it,
    they fail in ways that the model leaves out.

    Conventions for numbers.  An [int64] cell is a [Z] with the wrap-around
    of the machine written out.  A [float64] cell is an [option Q]: [None]
    is NaN and [Some q] a finite value; sums, products and quotients are
    computed exactly, the square root is the machine's (a variable of the
    development).  Rounding, infinities and signed zeros are outside the
    model. *)

From Stdlib Require Import ZArith QArith Qround Qminmax Lia Lqa Ascii String DecimalString.
From stdpp Require Import gmap strings list.

Open Scope Z_scope.

(** * Tables *)

Module Pandas.

(** A column.  The constructor is the dtype. *)
Inductive Series : Type :=
| SInt (xs : list Z)                    (* int64 *)
| SFloat (xs : list (option Q))         (* float64, [None] = NaN *)
| SBool (xs : list bool)                (* bool *)
| SObject (xs : list (option string))   (* object: str cells, [None] = missing *)
| SDatetime (xs : list (option Z)).     (* datetime64[ns], [None] = NaT *)

(** One cell of a row, used when rows or values are compared. *)
Inductive cell : Type :=
| CInt (z : Z)
| CFloat (q : Q)
| CBool (b : bool)
| CStr (s : string)
| CTime (t : Z)
| CMissing.

Definition float_cell (x : option Q) : cell :=
  match x with Some q => CFloat q | None => CMissing end.
Definition object_cell (x : option string) : cell :=
  match x with Some s => CStr s | None => CMissing end.
Definition time_cell (x : option Z) : cell :=
  match x with Some t => CTime t | None => CMissing end.

Definition cells (s : Series) : list cell :=
  match s with
  | SInt xs => map CInt xs
  | SFloat xs => map float_cell xs
  | SBool xs => map CBool xs
  | SObject xs => map object_cell xs
  | SDatetime xs => map time_cell xs
  end.

(** [len(series)] *)
Definition series_len (s : Series) : nat := length (cells s).

(** Equality of cells as pandas groups them: missing equals missing. *)
Definition cell_eqb (a b : cell) : bool :=
  match a, b with
  | CInt x, CInt y => Z.eqb x y
  | CFloat x, CFloat y => Qeq_bool x y
  | CBool x, CBool y => Bool.eqb x y
  | CStr x, CStr y => String.eqb x y
  | CTime x, CTime y => Z.eqb x y
  | CMissing, CMissing => true
  | _, _ => false
  end.

Definition is_missing (c : cell) : bool :=
  match c with CMissing => true | _ => false end.

(** A table: the length of its index and its named columns, in order. *)
Record DataFrame : Type := mkDataFrame {
  index_len : nat;
  columns : list (string * Series)
}.

(** Every column is as long as the index: what pandas keeps of any table. *)
Definition aligned (df : DataFrame) : Prop :=
  Forall (fun c => series_len (snd c) = index_len df) (columns df).

(** Moreover no column name occurs twice. *)
Definition wf_frame (df : DataFrame) : Prop :=
  aligned df /\ NoDup (map fst (columns df)).

Definition column_names (df : DataFrame) : list string := map fst (columns df).

(** [data.shape] *)
Definition num_rows (df : DataFrame) : nat := index_len df.
Definition num_columns (df : DataFrame) : nat := length (columns df).

(** [data[name]] *)
Fixpoint lookup_column (name : string) (cols : list (string * Series)) : option Series :=
  match cols with
  | [] => None
  | (n, s) :: rest => if String.eqb n name then Some s else lookup_column name rest
  end.

(** [data[name] = s]: an existing column is replaced where it stands, a new
    one is added at the end. *)
Fixpoint assign_column (name : string) (s : Series) (cols : list (string * Series))
  : list (string * Series) :=
  match cols with
  | [] => [(name, s)]
  | (n, s0) :: rest =>
      if String.eqb n name then (n, s) :: rest
      else (n, s0) :: assign_column name s rest
  end.

Definition setitem (df : DataFrame) (name : string) (s : Series) : DataFrame :=
  {| index_len := index_len df; columns := assign_column name s (columns df) |}.

(** [pd.api.types.is_numeric_dtype]: bool counts as numeric here. *)
Definition is_numeric_dtype (s : Series) : bool :=
  match s with SInt _ | SFloat _ | SBool _ => true | _ => false end.

(** Membership in [np.number], the filter of [select_dtypes]: bool does not. *)
Definition is_number (s : Series) : bool :=
  match s with SInt _ | SFloat _ => true | _ => false end.

Definition is_datetime64_any_dtype (s : Series) : bool :=
  match s with SDatetime _ => true | _ => false end.

Definition is_object_dtype (s : Series) : bool :=
  match s with SObject _ => true | _ => false end.

(** [data.select_dtypes(include=[np.number])] *)
Definition select_number (cols : list (string * Series)) : list (string * Series) :=
  filter (fun c => is_number (snd c) = true) cols.

(** [series.isnull().sum()] *)
Definition isnull_sum (s : Series) : nat :=
  length (filter (fun c => is_missing c = true) (cells s)).

(** Values in order of first appearance, the later repeats removed. *)
Fixpoint unique (l : list cell) : list cell :=
  match l with
  | [] => []
  | c :: rest => c :: filter (fun d => cell_eqb c d = false) (unique rest)
  end.

(** [series.nunique()]: missing cells are dropped first. *)
Definition nunique (s : Series) : nat :=
  length (unique (filter (fun c => is_missing c = false) (cells s))).

(** Row [i] of the table. *)
Definition row (df : DataFrame) (i : nat) : list cell :=
  map (fun c => nth i (cells (snd c)) CMissing) (columns df).

Definition rows (df : DataFrame) : list (list cell) :=
  map (row df) (seq 0 (index_len df)).

Fixpoint row_eqb (r1 r2 : list cell) : bool :=
  match r1, r2 with
  | [], [] => true
  | a :: r1', b :: r2' => cell_eqb a b && row_eqb r1' r2'
  | _, _ => false
  end.

(** [data.duplicated()]: a row is marked when an earlier row equals it. *)
Fixpoint duplicated_from (seen rest : list (list cell)) : list bool :=
  match rest with
  | [] => []
  | r :: rest' => existsb (row_eqb r) seen :: duplicated_from (r :: seen) rest'
  end.

Definition duplicated (df : DataFrame) : list bool := duplicated_from [] (rows df).

Definition duplicated_sum (df : DataFrame) : nat :=
  length (filter (fun b => b = true) (duplicated df)).

(** ** Conversion to timestamps *)

Definition int64_min : Z := - 2 ^ 63.
Definition int64_max : Z := 2 ^ 63 - 1.

(** Wrap-around of 64-bit signed arithmetic. *)
Definition wrap64 (z : Z) : Z := (z + 2 ^ 63) mod 2 ^ 64 - 2 ^ 63.

(** A number is read as a count of nanoseconds since the epoch; the
    smallest int64 is the NaT marker. *)
Definition ns_of_int (z : Z) : option Z :=
  if Z.eqb z int64_min then None else Some z.

Definition Qtrunc (q : Q) : Z :=
  if Qle_bool 0 q then Qfloor q else Qceiling q.

(** A float64 column is first cast with [astype('M8[ns]')], before any bound
    is checked, and the cast raises for no value: NaN becomes NaT, a value
    inside the int64 range is truncated toward zero, and a value outside it
    gives the smallest int64 (the result of the conversion instruction of
    x86-64), which is the NaT marker again. *)
Definition ns_of_float (x : option Q) : option Z :=
  match x with
  | None => None
  | Some q =>
      let z := Qtrunc q in
      if Z.ltb int64_min z && Z.leb z int64_max then Some z else None
  end.

(** All results, or nothing when one element fails. *)
Fixpoint all_some {A : Type} (l : list (option A)) : option (list A) :=
  match l with
  | [] => Some []
  | None :: _ => None
  | Some a :: rest =>
      match all_some rest with Some r => Some (a :: r) | None => None end
  end.

(** [pd.to_datetime(series)] with [errors='raise'], the default; [None] when
    it raises.  Numbers are accepted, as offsets from the epoch; the strings
    of an object column go to the date parser [parse_datetimes], which
    answers with the timestamps or refuses the column. *)
Definition to_datetime (parse_datetimes : list (option string) -> option (list (option Z)))
    (s : Series) : option (list (option Z)) :=
  match s with
  | SDatetime xs => Some xs
  | SInt xs => Some (map ns_of_int xs)
  | SFloat xs => Some (map ns_of_float xs)
  | SBool _ => None
  | SObject xs => parse_datetimes xs
  end.

End Pandas.

Export Pandas.

(** * DataProfiler *)

Module Profiler.

(** What NumPy gives for a quotient: a zero divisor yields a value that is
    not a finite number, and no exception. *)
Definition np_div (a b : Q) : option Q :=
  if Qeq_bool b 0 then None else Some (a / b)%Q.

(** Python's [max(0, x)]: the first argument stays unless [x > 0] holds. *)
Definition py_max0 (x : option Q) : option Q :=
  match x with
  | Some q => if Qlt_le_dec 0 q then Some q else Some 0%Q
  | None => Some 0%Q
  end.

Definition Qnat (n : nat) : Q := inject_Z (Z.of_nat n).

Definition Qltb (a b : Q) : bool := if Qlt_le_dec a b then true else false.

Record Overview : Type := {
  ov_num_rows : nat;
  ov_num_columns : nat;
  ov_memory_usage : string;
  ov_duplicate_rows : nat
}.

Record MissingValues : Type := {
  total_missing : nat;
  missing_percentage_total : option Q;
  columns_missing : gmap string nat;
  columns_missing_percentage : gmap string Q
}.

Record QualityMetrics : Type := {
  overall_quality_score : option Q;
  completeness_score : option Q;
  uniqueness_score : option Q
}.

Record Profile : Type := {
  overview : Overview;
  data_types : gmap string string;
  missing_values : MissingValues;
  statistical_summary : gmap string (gmap string (option Q));
  quality_metrics : QualityMetrics
}.

Section WithLibrary.

(** The date parser applied to the strings of an object column: the
    timestamps, or [None] when some string is refused. *)
Variable parse_datetimes : list (option string) -> option (list (option Z)).

(** [describe()] of one numeric column, with variance and skewness. *)
Variable column_statistics : Series -> gmap string (option Q).

(** The formatted deep memory footprint. *)
Variable memory_usage : DataFrame -> string.

Definition _get_overview (data : DataFrame) : Overview :=
  {| ov_num_rows := num_rows data;
     ov_num_columns := num_columns data;
     ov_memory_usage := memory_usage data;
     ov_duplicate_rows := duplicated_sum data |}.

Definition _is_datetime_column (series : Series) : bool :=
  if is_datetime64_any_dtype series then true
  else match to_datetime parse_datetimes series with
       | Some _ => true
       | None => false
       end.

(** [None] is the ZeroDivisionError of an object column without rows. *)
Definition _is_categorical_column (series : Series) : option bool :=
  if is_object_dtype series then
    match series_len series with
    | O => None
    | S _ =>
        let unique_ratio := (Qnat (nunique series) / Qnat (series_len series))%Q in
        Some (Qltb unique_ratio (1 # 2) && bool_decide (nunique series < 100)%nat)
    end
  else Some false.

(** The label of one column, by the chain of tests of the loop body. *)
Definition infer_label (col_data : Series) : option string :=
  if _is_datetime_column col_data then Some "datetime"%string
  else match _is_categorical_column col_data with
       | None => None
       | Some true => Some "categorical"%string
       | Some false =>
           if is_numeric_dtype col_data then
             if bool_decide (nunique col_data < 10)%nat then Some "categorical"%string
             else Some "numerical"%string
           else Some "text"%string
       end.

(** The loop over [data.columns].  It takes the column at each position,
    which is what [data[column]] gives in a table whose names are distinct;
    the facts about [analyze] are stated for such tables. *)
Fixpoint infer_loop (cols : list (string * Series)) (type_mapping : gmap string string)
  : option (gmap string string) :=
  match cols with
  | [] => Some type_mapping
  | (column, col_data) :: rest =>
      match infer_label col_data with
      | None => None
      | Some l => infer_loop rest (<[column := l]> type_mapping)
      end
  end.

Definition _infer_data_types (data : DataFrame) : option (gmap string string) :=
  infer_loop (columns data) ∅.

(** [data.isnull().sum()], per column and in column order. *)
Definition missing_count (data : DataFrame) : list (string * nat) :=
  map (fun c => (fst c, isnull_sum (snd c))) (columns data).

Definition sum_nat (l : list nat) : nat := foldr Nat.add O l.

Definition missing_cells (data : DataFrame) : nat :=
  sum_nat (map snd (missing_count data)).

(** The entries of a series of percentages that are greater than zero; a
    value that is no finite number is not. *)
Definition positive_percentage (c : string * option Q) : option (string * Q) :=
  match snd c with
  | Some q => if Qltb 0 q then Some (fst c, q) else None
  | None => None
  end.

Definition _analyze_missing_values (data : DataFrame) : MissingValues :=
  let missing_count := missing_count data in
  let missing_percentage :=
    map (fun c => (fst c, (fun x => x * 100)%Q <$>
                            np_div (Qnat (snd c)) (Qnat (num_rows data))))
        missing_count in
  {| total_missing := missing_cells data;
     missing_percentage_total :=
       (fun x => x * 100)%Q <$>
         np_div (Qnat (missing_cells data)) (Qnat (num_rows data * num_columns data));
     columns_missing := list_to_map (filter (fun c => (0 < snd c)%nat) missing_count);
     columns_missing_percentage := list_to_map (omap positive_percentage missing_percentage) |}.

Definition _generate_statistical_summary (data : DataFrame)
  : gmap string (gmap string (option Q)) :=
  let numerical_cols := select_number (columns data) in
  match numerical_cols with
  | [] => ∅
  | _ => list_to_map (map (fun c => (fst c, column_statistics (snd c))) numerical_cols)
  end.

Definition float_sub (a b : option Q) : option Q :=
  match a, b with
  | Some x, Some y => Some (x - y)%Q
  | _, _ => None
  end.

Definition _calculate_quality_metrics (data : DataFrame) : QualityMetrics :=
  let total_cells := (num_rows data * num_columns data)%nat in
  let missing_cells := missing_cells data in
  let quality_score :=
    (fun x => 100 * (1 - x))%Q <$> np_div (Qnat missing_cells) (Qnat total_cells) in
  let duplicate_penalty :=
    (fun x => x * 10)%Q <$> np_div (Qnat (duplicated_sum data)) (Qnat (num_rows data)) in
  let quality_score := float_sub quality_score duplicate_penalty in
  {| overall_quality_score := py_max0 quality_score;
     completeness_score :=
       (fun x => 100 * (1 - x))%Q <$> np_div (Qnat missing_cells) (Qnat total_cells);
     uniqueness_score :=
       (fun x => 100 * (1 - x))%Q <$>
         np_div (Qnat (duplicated_sum data)) (Qnat (num_rows data)) |}.

(** [analyze]; [None] when the type inference raises. *)
Definition analyze (data : DataFrame) : option Profile :=
  match _infer_data_types data with
  | None => None
  | Some types =>
      Some {| overview := _get_overview data;
              data_types := types;
              missing_values := _analyze_missing_values data;
              statistical_summary := _generate_statistical_summary data;
              quality_metrics := _calculate_quality_metrics data |}
  end.

End WithLibrary.

End Profiler.

(** * Column arithmetic used by the feature engineer *)

Module Columns.

Definition lower_ascii (c : ascii) : ascii :=
  let n := nat_of_ascii c in
  if (65 <=? n)%nat && (n <=? 90)%nat then ascii_of_nat (n + 32) else c.

(** [str.lower()] on the ASCII letters. *)
Fixpoint lower (s : string) : string :=
  match s with
  | EmptyString => EmptyString
  | String c rest => String (lower_ascii c) (lower rest)
  end.

(** [sub in s] *)
Fixpoint contains (sub s : string) : bool :=
  String.prefix sub s ||
  match s with
  | EmptyString => false
  | String _ rest => contains sub rest
  end.

Definition float_of_int (z : Z) : option Q := Some (inject_Z z).

Definition fmul (a b : option Q) : option Q :=
  match a, b with
  | Some x, Some y => Some (Qred (x * y))
  | _, _ => None
  end.

(** The quotient of two floats; a zero divisor gives no finite number. *)
Definition fdiv (a b : option Q) : option Q :=
  match a, b with
  | Some x, Some y => if Qeq_bool y 0 then None else Some (Qred (x / y))
  | _, _ => None
  end.

(** The values of a numeric column as floats. *)
Definition as_float (s : Series) : option (list (option Q)) :=
  match s with
  | SInt xs => Some (map float_of_int xs)
  | SFloat xs => Some xs
  | _ => None
  end.

(** [a * b] on numeric columns: int64 times int64 stays int64 and wraps,
    any float operand makes the product float64. *)
Definition series_mul (a b : Series) : option Series :=
  match a, b with
  | SInt xs, SInt ys => Some (SInt (zip_with (fun x y => wrap64 (x * y)) xs ys))
  | _, _ =>
      match as_float a, as_float b with
      | Some xs, Some ys => Some (SFloat (zip_with fmul xs ys))
      | _, _ => None
      end
  end.

(** [a / b] on numeric columns: always float64. *)
Definition series_div (a b : Series) : option Series :=
  match as_float a, as_float b with
  | Some xs, Some ys => Some (SFloat (zip_with fdiv xs ys))
  | _, _ => None
  end.

Definition float_nonzero (x : option Q) : bool :=
  match x with
  | Some q => negb (Qeq_bool q 0)
  | None => true
  end.

(** [(s != 0).all()]: NaN differs from zero, [False] equals it, and a cell
    that is no number differs from it. *)
Definition all_nonzero (s : Series) : bool :=
  match s with
  | SInt xs => forallb (fun x => negb (Z.eqb x 0)) xs
  | SFloat xs => forallb float_nonzero xs
  | SBool xs => forallb (fun b => b) xs
  | SObject _ => true
  | SDatetime _ => true
  end.

(** ** Rolling statistics, [rolling(window=3, min_periods=1)] *)

(** The trailing window that ends at row [i]: rows [i-2 .. i], fewer at the
    top of the column. *)
Definition window (xs : list (option Q)) (i : nat) : list (option Q) :=
  drop (i - 2) (take (S i) xs).

(** The observations of a window: its cells that are not NaN. *)
Definition observations (w : list (option Q)) : list Q := omap id w.

Definition Qsum (l : list Q) : Q := foldr Qplus 0%Q l.

Definition mean (obs : list Q) : Q :=
  (Qsum obs / inject_Z (Z.of_nat (length obs)))%Q.

(** The sample variance, with one degree of freedom taken off. *)
Definition variance (obs : list Q) : Q :=
  (Qsum (map (fun x => (x - mean obs) * (x - mean obs)) obs)
   / inject_Z (Z.of_nat (length obs - 1)))%Q.

(** One observation is enough for the mean. *)
Definition window_mean (w : list (option Q)) : option Q :=
  let obs := observations w in
  if (1 <=? length obs)%nat then Some (Qred (mean obs)) else None.

(** The standard deviation needs two, whatever [min_periods] says. *)
Definition window_std (fsqrt : Q -> Q) (w : list (option Q)) : option Q :=
  let obs := observations w in
  if (2 <=? length obs)%nat then Some (fsqrt (Qred (variance obs))) else None.

Definition rolling (f : list (option Q) -> option Q) (xs : list (option Q))
  : list (option Q) :=
  map (fun i => f (window xs i)) (seq 0 (length xs)).

Definition rolling_mean (s : Series) : option Series :=
  match as_float s with
  | Some xs => Some (SFloat (rolling window_mean xs))
  | None => None
  end.

Definition rolling_std (fsqrt : Q -> Q) (s : Series) : option Series :=
  match as_float s with
  | Some xs => Some (SFloat (rolling (window_std fsqrt) xs))
  | None => None
  end.

(** ** Accessors of a datetime column *)

(** [series.dt.<field>]: integers, or floats with NaN where the column has
    NaT. *)
Definition dt_field (field : Z -> Z) (ts : list (option Z)) : Series :=
  match all_some ts with
  | Some l => SInt (map field l)
  | None => SFloat (map (fun t => match t with
                                  | Some z => float_of_int (field z)
                                  | None => None
                                  end) ts)
  end.

(** ** Selection of the [k] best scores *)

(** Insertion into a list of indices sorted by score; an index goes before
    the later indices of equal score, so the sort is stable. *)
Fixpoint insert_by (score : nat -> Q) (i : nat) (l : list nat) : list nat :=
  match l with
  | [] => [i]
  | j :: rest =>
      if Qle_bool (score i) (score j) then i :: j :: rest
      else j :: insert_by score i rest
  end.

(** [np.argsort(scores, kind="mergesort")] *)
Definition argsort (scores : list Q) : list nat :=
  foldr (insert_by (fun i => nth i scores 0%Q)) [] (seq 0 (length scores)).

(** [SelectKBest.get_support()]: the mask of the last [k] indices of the
    sort; all [False] when [k] is zero. *)
Definition get_support (scores : list Q) (k : nat) : list bool :=
  match k with
  | O => map (fun _ => false) scores
  | S _ =>
      let top := drop (length scores - k) (argsort scores) in
      map (fun i => bool_decide (i ∈ top)) (seq 0 (length scores))
  end.

(** [columns[mask]] *)
Fixpoint by_mask {A : Type} (l : list A) (mask : list bool) : list A :=
  match l, mask with
  | x :: l', b :: mask' => if b then x :: by_mask l' mask' else by_mask l' mask'
  | _, _ => []
  end.

(** All pairs [(l[i], l[j])] with [i < j], in the order of the two loops. *)
Fixpoint pairs {A : Type} (l : list A) : list (A * A) :=
  match l with
  | [] => []
  | x :: rest => map (pair x) rest ++ pairs rest
  end.

End Columns.

Export Columns.

(** * FeatureEngineer *)

Module Engineer.

Record FeatureEngineer : Type := mkEngineer {
  max_features : Z;
  created_features : list string;
  selected_features : list string;
  feature_importance : gmap string Q
}.

Definition __init__ (max_features : Z) : FeatureEngineer :=
  mkEngineer max_features [] [] ∅.

(** The objects a call can reach: the data frames, by reference, and the
    engineer itself. *)
Record World : Type := mkWorld {
  frames : gmap nat DataFrame;
  self : FeatureEngineer
}.

(** A computation runs in a world and ends with a value, or with [None]
    when an exception leaves it; what was written before stays written. *)
Definition M (A : Type) : Type := World -> option A * World.

Definition ret {A : Type} (a : A) : M A := fun w => (Some a, w).

Definition bind {A B : Type} (m : M A) (k : A -> M B) : M B :=
  fun w =>
    match m w with
    | (Some a, w') => k a w'
    | (None, w') => (None, w')
    end.

Definition raise {A : Type} : M A := fun w => (None, w).

#[global] Instance M_ret : MRet M := @ret.
#[global] Instance M_bind : MBind M := fun A B k m => bind m k.

(** A result of a library call that may raise. *)
Definition lift {A : Type} (o : option A) : M A :=
  match o with Some a => ret a | None => raise end.

(** The frame behind a reference. *)
Definition deref (r : nat) : M DataFrame := fun w => (frames w !! r, w).

(** A new frame object. *)
Definition alloc (df : DataFrame) : M nat :=
  fun w =>
    let r := fresh (dom (frames w)) in
    (Some r, mkWorld (<[r := df]> (frames w)) (self w)).

(** [data.copy()] *)
Definition copy (r : nat) : M nat := df ← deref r; alloc df.

(** A piece of loop body: it reads the frame, assigns columns to it and
    names the features it made. *)
Definition step : Type := DataFrame -> option (DataFrame * list string).

Definition extend_created (names : list string) (e : FeatureEngineer) : FeatureEngineer :=
  mkEngineer (max_features e) (created_features e ++ names)
             (selected_features e) (feature_importance e).

(** The body runs on the frame behind [r]: the frame is updated in place and
    the names go to [self.created_features].  The frame is always a copy
    the method has just made; when the body raises, the method is left and
    the copy with it. *)
Definition mutate (r : nat) (f : step) : M unit :=
  fun w =>
    match frames w !! r with
    | Some df =>
        match f df with
        | Some (df', names) =>
            (Some tt, mkWorld (<[r := df']> (frames w)) (extend_created names (self w)))
        | None => (None, w)
        end
    | None => (None, w)
    end.

(** [for x in l: body(x)] *)
Fixpoint for_each {A : Type} (l : list A) (body : A -> M unit) : M unit :=
  match l with
  | [] => ret tt
  | x :: rest => body x;; for_each rest body
  end.

Section WithLibrary.

(** The date parser behind [pd.to_datetime] on strings. *)
Variable parse_datetimes : list (option string) -> option (list (option Z)).

(** Calendar fields of a timestamp. *)
Variables year month day dayofweek quarter : Z -> Z.

(** The square root of the machine. *)
Variable fsqrt : Q -> Q.

(** Input validation of scikit-learn on the predictors and the target. *)
Variable check_X_y : list Series -> Series -> bool.

(** The mutual-information estimate of the predictor at a position. *)
Variable mutual_info_classif : nat -> Series -> Series -> Q.

(** ** [_create_temporal_features] *)

Definition is_temporal_name (col : string) : bool :=
  contains "date" (lower col) || contains "time" (lower col).

(** The body of the [try]: when the conversion raises, the [except] clause
    goes on to the next column and nothing was assigned. *)
Definition temporal_body (col : string) : step :=
  fun df =>
    match lookup_column col (columns df) with
    | None => Some (df, [])
    | Some s =>
        match to_datetime parse_datetimes s with
        | None => Some (df, [])
        | Some ts =>
            let df := setitem df col (SDatetime ts) in
            let df := setitem df (col +:+ "_year") (dt_field year ts) in
            let df := setitem df (col +:+ "_month") (dt_field month ts) in
            let df := setitem df (col +:+ "_day") (dt_field day ts) in
            let df := setitem df (col +:+ "_dayofweek") (dt_field dayofweek ts) in
            let df := setitem df (col +:+ "_quarter") (dt_field quarter ts) in
            Some (df, [col +:+ "_year"; col +:+ "_month"; col +:+ "_day";
                       col +:+ "_dayofweek"; col +:+ "_quarter"])
        end
    end.

Definition _create_temporal_features (data : nat) : M nat :=
  engineered_data ← copy data;
  df ← deref engineered_data;
  let datetime_columns :=
    filter (fun col => is_temporal_name col = true) (column_names df) in
  for_each datetime_columns (fun col => mutate engineered_data (temporal_body col));;
  ret engineered_data.

(** ** [_create_interaction_features] *)

Definition x_name (col1 col2 : string) : string := col1 +:+ "_x_" +:+ col2.
Definition div_name (col1 col2 : string) : string := col1 +:+ "_div_" +:+ col2.

Definition interaction_body (p : string * string) : step :=
  fun df =>
    let '(col1, col2) := p in
    c1 ← lookup_column col1 (columns df);
    c2 ← lookup_column col2 (columns df);
    product ← series_mul c1 c2;
    let df1 := setitem df (x_name col1 col2) product in
    denominator ← lookup_column col2 (columns df1);
    if all_nonzero denominator then
      numerator ← lookup_column col1 (columns df1);
      ratio ← series_div numerator denominator;
      Some (setitem df1 (div_name col1 col2) ratio,
            [x_name col1 col2; div_name col1 col2])
    else Some (df1, [x_name col1 col2]).

(** The candidates: the numeric columns, cut to the first five. *)
Definition interaction_candidates (df : DataFrame) : list string :=
  let numerical_cols := map fst (select_number (columns df)) in
  if (5 <? length numerical_cols)%nat then take 5 numerical_cols else numerical_cols.

Definition _create_interaction_features (data : nat) : M nat :=
  engineered_data ← copy data;
  df ← deref data;
  let numerical_cols := interaction_candidates df in
  for_each (pairs numerical_cols)
    (fun p => mutate engineered_data (interaction_body p));;
  ret engineered_data.

(** ** [_create_statistical_features] *)

Definition mean_name (col : string) : string := col +:+ "_rolling_mean".
Definition std_name (col : string) : string := col +:+ "_rolling_std".

Definition statistical_body (col : string) : step :=
  fun df =>
    c ← lookup_column col (columns df);
    m ← rolling_mean c;
    let df1 := setitem df (mean_name col) m in
    c' ← lookup_column col (columns df1);
    s ← rolling_std fsqrt c';
    Some (setitem df1 (std_name col) s, [mean_name col; std_name col]).

Definition _create_statistical_features (data : nat) : M nat :=
  engineered_data ← copy data;
  df ← deref data;
  let numerical_cols := map fst (select_number (columns df)) in
  (if (3 <=? length numerical_cols)%nat then
     for_each (take 3 numerical_cols)
       (fun col => mutate engineered_data (statistical_body col))
   else ret tt);;
  ret engineered_data.

(** ** [_select_features] *)

(** [data.drop(columns=[name])]; [None] is the KeyError of an absent name. *)
Definition drop_column (name : string) (cols : list (string * Series))
  : option (list (string * Series)) :=
  match lookup_column name cols with
  | Some _ => Some (filter (fun c => fst c <> name) cols)
  | None => None
  end.

(** [SelectKBest(score_func, k).fit(X, y)]: the scores, one per predictor;
    [None] when the parameter or the input is refused. *)
Definition fit (X : list (string * Series)) (y : Series) (k : Z) : option (list Q) :=
  if Z.ltb k 0 then None
  else if check_X_y (map snd X) y
       then Some (imap (fun i c => mutual_info_classif i (snd c) y) X)
       else None.

(** [X[names]]: the named columns, in the order of the names. *)
Definition select_columns (names : list string) (cols : list (string * Series))
  : option (list (string * Series)) :=
  all_some (map (fun n => match lookup_column n cols with
                          | Some s => Some (n, s)
                          | None => None
                          end) names).

Definition set_selected (names : list string) : M unit :=
  fun w =>
    (Some tt, mkWorld (frames w)
                (mkEngineer (max_features (self w)) (created_features (self w))
                            names (feature_importance (self w)))).

Definition store_importance (scored : list (string * Q)) : M unit :=
  fun w =>
    (Some tt, mkWorld (frames w)
                (mkEngineer (max_features (self w)) (created_features (self w))
                            (selected_features (self w))
                            (foldl (fun m fs => <[fs.1 := fs.2]> m)
                                   (feature_importance (self w)) scored))).

(** [self.max_features] *)
Definition get_max_features : M Z := fun w => (Some (max_features (self w)), w).

Definition _select_features (data : nat) (target_column : string) : M nat :=
  df ← deref data;
  X ← lift (drop_column target_column (columns df));
  y ← lift (lookup_column target_column (columns df));
  let X_numeric := select_number X in
  if (length X_numeric =? 0)%nat then ret data
  else
    limit ← get_max_features;
    let k := Z.min limit (Z.of_nat (length X_numeric)) in
    scores ← lift (fit X_numeric y k);
    let selected_mask := get_support scores (Z.to_nat k) in
    let selected := by_mask (map fst X_numeric) selected_mask in
    set_selected selected;;
    store_importance (zip (map fst X_numeric) scores);;
    chosen ← lift (select_columns selected X);
    result_data ← alloc (mkDataFrame (index_len df) chosen);
    mutate result_data (fun d => Some (setitem d target_column y, []));;
    ret result_data.

(** ** [create_features] *)

(** [target_column and target_column in engineered_data.columns] *)
Definition target_given (target_column : option string) (df : DataFrame) : option string :=
  match target_column with
  | Some t =>
      if negb (String.eqb t EmptyString) && bool_decide (t ∈ column_names df)
      then Some t else None
  | None => None
  end.

Definition create_features (data : nat) (target_column : option string) : M nat :=
  engineered_data ← copy data;
  engineered_data ← _create_temporal_features engineered_data;
  engineered_data ← _create_interaction_features engineered_data;
  engineered_data ← _create_statistical_features engineered_data;
  df ← deref engineered_data;
  match target_given target_column df with
  | Some t => _select_features engineered_data t
  | None => ret engineered_data
  end.

End WithLibrary.

End Engineer.

(** * PipelineGenerator *)

Module Pipeline.

#[local] Set Warnings "-register-all".

(** Python values, as far as the parameters of a step need them. *)
Inductive pyval : Type :=
| PyNone
| PyBool (b : bool)
| PyInt (z : Z)
| PyFloat (q : Q)                      (* a finite float *)
| PyStr (s : string)
| PyList (l : list pyval)
| PyTuple (l : list pyval)
| PyDict (items : list (pyval * pyval))
| PyObject (id : nat).                 (* any other object *)

(** JSON documents. *)
Inductive json : Type :=
| JNull
| JBool (b : bool)
| JInt (z : Z)
| JFloat (q : Q)
| JString (s : string)
| JArray (l : list json)
| JObject (members : list (string * json)).

Definition string_of_Z (z : Z) : string :=
  DecimalString.NilZero.string_of_int (Z.to_int z).

Definition string_of_nat (n : nat) : string :=
  DecimalString.NilZero.string_of_uint (Nat.to_uint n).

Record Step : Type := mkStep {
  name : string;
  function : string;
  parameters : pyval;
  timestamp : string
}.

Record PipelineGenerator : Type := mkGenerator {
  pipeline_steps : list Step;
  pipeline_metadata : pyval
}.

Definition __init__ : PipelineGenerator := mkGenerator [] (PyDict []).

(** What a file holds. *)
Inductive FileContent : Type :=
| FText (s : string)                   (* text written in one piece *)
| FJson (j : json)                     (* a complete JSON document *)
| FPickle (g : PipelineGenerator)      (* a snapshot of the generator *)
| FPartial.                            (* a write that an exception cut short *)

Record FileSystem : Type := mkFS {
  files : gmap string FileContent;
  dirs : gset string
}.

(** The generator, the clock that [datetime.now()] reads, and the disk. *)
Record Env : Type := mkEnv {
  generator : PipelineGenerator;
  clock : nat;
  fs : FileSystem
}.

(** ** [os.path.dirname], POSIX flavour *)

Definition slash : ascii := "/"%char.

Fixpoint upto_slash (l : list ascii) : list ascii :=
  match l with
  | [] => []
  | c :: rest => if Ascii.eqb c slash then l else upto_slash rest
  end.

Fixpoint strip_slashes (l : list ascii) : list ascii :=
  match l with
  | [] => []
  | c :: rest => if Ascii.eqb c slash then strip_slashes rest else l
  end.

(** The path up to its last slash; the trailing slashes go, unless slashes
    are all there is. *)
Definition dirname (p : string) : string :=
  let head := upto_slash (rev (list_ascii_of_string p)) in
  string_of_list_ascii
    (rev (match strip_slashes head with [] => head | stripped => stripped end)).

(** ** [json.dump] and [json.load], on documents *)

(** The key of an object member: str, int, float, bool and None are turned
    into strings, any other key is a TypeError. *)
Definition key_string (float_repr : Q -> string) (k : pyval) : option string :=
  match k with
  | PyStr s => Some s
  | PyInt z => Some (string_of_Z z)
  | PyFloat q => Some (float_repr q)
  | PyBool true => Some "true"%string
  | PyBool false => Some "false"%string
  | PyNone => Some "null"%string
  | _ => None
  end.

(** The encoder: lists and tuples both become arrays; an object that is
    none of the above is a TypeError. *)
Fixpoint to_json (float_repr : Q -> string) (v : pyval) : option json :=
  match v with
  | PyNone => Some JNull
  | PyBool b => Some (JBool b)
  | PyInt z => Some (JInt z)
  | PyFloat q => Some (JFloat q)
  | PyStr s => Some (JString s)
  | PyList l => JArray <$> all_some (map (to_json float_repr) l)
  | PyTuple l => JArray <$> all_some (map (to_json float_repr) l)
  | PyDict items =>
      JObject <$>
        all_some (map (fun kv => match key_string float_repr (fst kv),
                                   to_json float_repr (snd kv) with
                                 | Some k, Some j => Some (k, j)
                                 | _, _ => None
                                 end) items)
  | PyObject _ => None
  end.

(** [d[k] = v] on the items of a dict with string keys. *)
Fixpoint dict_set (k : string) (v : pyval) (items : list (pyval * pyval))
  : list (pyval * pyval) :=
  match items with
  | [] => [(PyStr k, v)]
  | (PyStr k', v') :: rest =>
      if String.eqb k' k then (PyStr k', v) :: rest
      else (PyStr k', v') :: dict_set k v rest
  | kv :: rest => kv :: dict_set k v rest
  end.

(** The decoder: arrays become lists, objects become dicts, a repeated
    member name keeps its last value. *)
Fixpoint of_json (j : json) : pyval :=
  match j with
  | JNull => PyNone
  | JBool b => PyBool b
  | JInt z => PyInt z
  | JFloat q => PyFloat q
  | JString s => PyStr s
  | JArray l => PyList (map of_json l)
  | JObject members =>
      PyDict (foldl (fun items kv => dict_set (fst kv) (snd kv) items) []
                    (map (fun kv => (fst kv, of_json (snd kv))) members))
  end.

(** [json.load] of a file. *)
Definition json_load (c : FileContent) : option pyval :=
  match c with
  | FJson j => Some (of_json j)
  | _ => None
  end.

(** ** Access to Python values *)

(** [d[key]] for a string key; [None] is a KeyError or a TypeError. *)
Fixpoint dict_get (key : string) (items : list (pyval * pyval)) : option pyval :=
  match items with
  | [] => None
  | (PyStr k, v) :: rest => if String.eqb k key then Some v else dict_get key rest
  | _ :: rest => dict_get key rest
  end.

Definition py_getitem (v : pyval) (key : string) : option pyval :=
  match v with
  | PyDict items => dict_get key items
  | _ => None
  end.

Definition is_str (key : string) (v : pyval) : bool :=
  match v with PyStr s => String.eqb s key | _ => false end.

(** [key in v]; [None] is the TypeError of a value that is no container. *)
Definition py_in (key : string) (v : pyval) : option bool :=
  match v with
  | PyDict items => Some (existsb (fun kv => is_str key (fst kv)) items)
  | PyList l => Some (existsb (is_str key) l)
  | PyTuple l => Some (existsb (is_str key) l)
  | PyStr s => Some (contains key s)
  | _ => None
  end.

Definition chars (s : string) : list pyval :=
  map (fun c => PyStr (String c EmptyString)) (list_ascii_of_string s).

(** [for x in v]; [None] when [v] is not iterable. *)
Definition py_iter (v : pyval) : option (list pyval) :=
  match v with
  | PyList l => Some l
  | PyTuple l => Some l
  | PyDict items => Some (map fst items)
  | PyStr s => Some (chars s)
  | _ => None
  end.

(** [v.items()] *)
Definition py_items (v : pyval) : option (list (pyval * pyval)) :=
  match v with
  | PyDict items => Some items
  | _ => None
  end.

(** [a, b = v] *)
Definition unpack2 (v : pyval) : option (pyval * pyval) :=
  match py_iter v with
  | Some [a; b] => Some (a, b)
  | _ => None
  end.

(** The step as [add_step] builds it, a dict. *)
Definition step_dict (s : Step) : pyval :=
  PyDict [(PyStr "name", PyStr (name s));
          (PyStr "function", PyStr (function s));
          (PyStr "parameters", parameters s);
          (PyStr "timestamp", PyStr (timestamp s))].

(** The name, function and parameters of the steps of a loaded document. *)
Definition step_fields (v : pyval) : option (pyval * pyval * pyval) :=
  n ← py_getitem v "name";
  f ← py_getitem v "function";
  p ← py_getitem v "parameters";
  Some (n, f, p).

Definition loaded_steps (doc : pyval) : option (list (pyval * pyval * pyval)) :=
  steps ← py_getitem doc "steps";
  match steps with
  | PyList l => all_some (map step_fields l)
  | _ => None
  end.

Section WithLibrary.

(** [datetime.isoformat()] and [strftime('%Y-%m-%d %H:%M:%S')] of a reading
    of the clock. *)
Variable isoformat : nat -> string.
Variable strftime : nat -> string.

(** [str(v)], as the f-strings call it. *)
Variable py_str : pyval -> string.

(** [repr] of a float, for the keys of a JSON object. *)
Variable float_repr : Q -> string.

(** What the operating system allows: creating a directory, opening a file
    for writing. *)
Variable may_create : string -> bool.
Variable may_open : string -> bool.

(** Whether [pickle.dump] accepts the generator. *)
Variable picklable : PipelineGenerator -> bool.

Definition fmt (v : pyval) : string :=
  match v with PyStr s => s | _ => py_str v end.

(** ** [add_step] *)

Definition add_step (step_name step_function : string) (parameters : pyval)
  (env : Env) : Env :=
  let step := mkStep step_name step_function parameters (isoformat (clock env)) in
  mkEnv (mkGenerator (pipeline_steps (generator env) ++ [step])
                     (pipeline_metadata (generator env)))
        (S (clock env)) (fs env).

(** ** [generate_python_code] *)

Definition imputation_line (kv : pyval * pyval) : list string :=
  let col := fmt (fst kv) in
  if is_str "median" (snd kv) then
    ["    processed_data['" +:+ col +:+ "'].fillna(processed_data['" +:+ col
       +:+ "'].median(), inplace=True)"]
  else if is_str "mean" (snd kv) then
    ["    processed_data['" +:+ col +:+ "'].fillna(processed_data['" +:+ col
       +:+ "'].mean(), inplace=True)"]
  else if is_str "mode" (snd kv) then
    ["    processed_data['" +:+ col +:+ "'].fillna(processed_data['" +:+ col
       +:+ "'].mode()[0], inplace=True)"]
  else [].

Definition encoding_line (kv : pyval * pyval) : list string :=
  let col := fmt (fst kv) in
  if is_str "one_hot" (snd kv) then
    ["    " +:+ col +:+ "_encoded = pd.get_dummies(processed_data['" +:+ col
       +:+ "'], prefix='" +:+ col +:+ "')";
     "    processed_data = pd.concat([processed_data, " +:+ col +:+ "_encoded], axis=1)";
     "    processed_data.drop('" +:+ col +:+ "', axis=1, inplace=True)"]
  else if is_str "label" (snd kv) then
    ["    le = LabelEncoder()";
     "    processed_data['" +:+ col +:+ "'] = le.fit_transform(processed_data['" +:+ col
       +:+ "'].astype(str))"]
  else [].

(** The lines for one key of the parameters: nothing when the key is absent,
    [None] when an access raises. *)
Definition for_key {A : Type} (params : pyval) (key : string)
    (elements : pyval -> option (list A)) (line : A -> list string)
  : option (list string) :=
  present ← py_in key params;
  if present : bool then
    v ← py_getitem params key;
    l ← elements v;
    Some (concat (map line l))
  else Some [].

Definition _generate_cleaning_code (step : Step) : option (list string) :=
  let params := parameters step in
  a ← for_key params "imputation" py_items imputation_line;
  b ← for_key params "encoding" py_items encoding_line;
  Some (a ++ b).

Definition temporal_lines (c : pyval) : list string :=
  let col := fmt c in
  ["    # Temporal features from " +:+ col;
   "    processed_data['" +:+ col +:+ "'] = pd.to_datetime(processed_data['" +:+ col +:+ "'])";
   "    processed_data['" +:+ col +:+ "_year'] = processed_data['" +:+ col +:+ "'].dt.year";
   "    processed_data['" +:+ col +:+ "_month'] = processed_data['" +:+ col +:+ "'].dt.month";
   "    processed_data['" +:+ col +:+ "_day'] = processed_data['" +:+ col +:+ "'].dt.day"].

Definition interaction_line (p : pyval * pyval) : list string :=
  let feat1 := fmt (fst p) in
  let feat2 := fmt (snd p) in
  ["    processed_data['" +:+ feat1 +:+ "_x_" +:+ feat2 +:+ "'] = processed_data['"
     +:+ feat1 +:+ "'] * processed_data['" +:+ feat2 +:+ "']"].

Definition _generate_feature_engineering_code (step : Step) : option (list string) :=
  let params := parameters step in
  a ← for_key params "temporal_features" py_iter temporal_lines;
  b ← for_key params "interaction_features"
        (fun v => l ← py_iter v; all_some (map unpack2 l)) interaction_line;
  Some (a ++ b).

Definition step_code (i : nat) (step : Step) : option (list string) :=
  body ←
    (if String.eqb (function step) "data_profiling" then
       Some ["    # Data profiling completed"%string]
     else if String.eqb (function step) "data_cleaning" then
       _generate_cleaning_code step
     else if String.eqb (function step) "feature_engineering" then
       _generate_feature_engineering_code step
     else Some []);
  Some (("    # Step " +:+ string_of_nat i +:+ ": " +:+ name step) :: body ++ [EmptyString]).

Definition newline : string := String (ascii_of_nat 10) EmptyString.

Definition join_lines (l : list string) : string := String.concat newline l.

Definition double_quote : string := String (ascii_of_nat 34) EmptyString.

Definition docstring_mark : string := double_quote +:+ double_quote +:+ double_quote.

(** The code text at a reading [now] of the clock; [None] when the
    parameters of a step make an access raise. *)
Definition generate_python_code (g : PipelineGenerator) (now : nat) : option string :=
  steps ← all_some (imap (fun i step => step_code (S i) step) (pipeline_steps g));
  Some (join_lines
    (["# Smart ETL Auto-Generated Pipeline";
      "# Generated on: " +:+ strftime now;
      "# This code reproduces the entire data processing pipeline";
      EmptyString;
      "import pandas as pd";
      "import numpy as np";
      "from sklearn.impute import SimpleImputer, KNNImputer";
      "from sklearn.preprocessing import StandardScaler, LabelEncoder";
      "from sklearn.feature_selection import SelectKBest, mutual_info_classif";
      EmptyString;
      "def run_smart_etl_pipeline(data):";
      "    " +:+ docstring_mark;
      "    Execute the complete Smart ETL pipeline.";
      "    " +:+ docstring_mark;
      "    processed_data = data.copy()";
      "    "]
     ++ concat steps ++
     ["    return processed_data";
      EmptyString;
      "# Execute pipeline";
      "# processed_data = run_smart_etl_pipeline(your_dataframe)"])).

(** ** The disk *)

(** [os.makedirs(d, exist_ok=True)]; [None] when it raises: the empty path
    is not found, a file of that name is in the way, or the system refuses. *)
Definition makedirs (d : string) (disk : FileSystem) : option FileSystem :=
  if String.eqb d EmptyString then None
  else if bool_decide (d ∈ dom (files disk)) then None
  else if bool_decide (d ∈ dirs disk) then Some disk
  else if may_create d then Some (mkFS (files disk) ({[ d ]} ∪ dirs disk))
  else None.

(** [open(path, 'w')] followed by the writes; the file is there as soon as
    it is open. *)
Definition open_write (path : string) (c : FileContent) (disk : FileSystem)
  : option FileSystem :=
  if bool_decide (path ∈ dirs disk) then None
  else if may_open path then Some (mkFS (<[path := c]> (files disk)) (dirs disk))
  else None.

(** ** [save_pipeline] *)

Definition pipeline_data (g : PipelineGenerator) (now : nat) : pyval :=
  PyDict [(PyStr "metadata", pipeline_metadata g);
          (PyStr "steps", PyList (map step_dict (pipeline_steps g)));
          (PyStr "generated_at", PyStr (isoformat now))].

(** The body of the [try]; [None] is an exception, which the [except]
    clause turns into [False].  The environment is the one the exception
    leaves behind. *)
Definition save_body (filepath format : string) (env : Env) : option unit * Env :=
  let g := generator env in
  match makedirs (dirname filepath) (fs env) with
  | None => (None, env)
  | Some disk =>
      let now := clock env in
      let env := mkEnv g now disk in
      if String.eqb format "python" then
        let env := mkEnv g (S now) disk in
        match generate_python_code g now with
        | None => (None, env)
        | Some code =>
            match open_write filepath (FText code) disk with
            | Some disk' => (Some tt, mkEnv g (S now) disk')
            | None => (None, env)
            end
        end
      else if String.eqb format "json" then
        let data := pipeline_data g now in
        let env := mkEnv g (S now) disk in
        match to_json float_repr data with
        | Some j =>
            match open_write filepath (FJson j) disk with
            | Some disk' => (Some tt, mkEnv g (S now) disk')
            | None => (None, env)
            end
        | None =>
            match open_write filepath FPartial disk with
            | Some disk' => (None, mkEnv g (S now) disk')
            | None => (None, env)
            end
        end
      else if String.eqb format "pickle" then
        if picklable g then
          match open_write filepath (FPickle g) disk with
          | Some disk' => (Some tt, mkEnv g now disk')
          | None => (None, env)
          end
        else
          match open_write filepath FPartial disk with
          | Some disk' => (None, mkEnv g now disk')
          | None => (None, env)
          end
      else (Some tt, env)
  end.

Definition save_pipeline (filepath format : string) (env : Env) : bool * Env :=
  match save_body filepath format env with
  | (Some _, env') => (true, env')
  | (None, env') => (false, env')
  end.

(** The generator after a sequence of [add_step] calls. *)
Definition add_steps (calls : list (string * string * pyval)) (env : Env) : Env :=
  foldl (fun e c => add_step (fst (fst c)) (snd (fst c)) (snd c) e) env calls.

(** ** [get_pipeline_summary] *)

Record Summary : Type := mkSummary {
  total_steps : nat;
  step_types : list string;
  cleaning_steps : nat;
  feature_steps : nat;
  first_step : option string;      (* [None] is Python's None *)
  last_step : option string
}.

Definition get_pipeline_summary (g : PipelineGenerator) : Summary :=
  let steps := pipeline_steps g in
  {| total_steps := length steps;
     step_types := map function steps;
     cleaning_steps :=
       length (filter (fun s => function s = "data_cleaning"%string) steps);
     feature_steps :=
       length (filter (fun s => function s = "feature_engineering"%string) steps);
     first_step := timestamp <$> head steps;
     last_step := timestamp <$> last steps |}.

(** ** [generate_report] *)

(** An object of another class answers for itself: [bool(o)] is what its
    [__bool__] or [__len__] gives, true when it has neither, and [None] when
    that call raises; [o.items()] gives the pairs that the loop unpacks, and
    [None] when the class has no such method, when the call raises, or when
    an element is no pair. *)
Variable object_bool : nat -> option bool.
Variable object_items : nat -> option (list (pyval * pyval)).

(** [bool(v)], the test of [if v:]. *)
Definition truthy (v : pyval) : option bool :=
  match v with
  | PyNone => Some false
  | PyBool b => Some b
  | PyInt z => Some (negb (Z.eqb z 0))
  | PyFloat q => Some (negb (Qeq_bool q 0))
  | PyStr s => Some (negb (String.eqb s EmptyString))
  | PyList l => Some (negb (bool_decide (l = [])))
  | PyTuple l => Some (negb (bool_decide (l = [])))
  | PyDict items => Some (negb (bool_decide (items = [])))
  | PyObject o => object_bool o
  end.

(** [for key, value in v.items()]: of the built-in types only dict has the
    method. *)
Definition items_of (v : pyval) : option (list (pyval * pyval)) :=
  match v with
  | PyDict items => Some items
  | PyObject o => object_items o
  | _ => None
  end.

Definition rule : string := string_of_list_ascii (repeat "="%char 60).

(** The lines of one step; [None] when the test of the parameters or the
    loop over their items raises. *)
Definition report_step (i : nat) (step : Step) : option (list string) :=
  params ←
    (test ← truthy (parameters step);
     if test : bool then
       items ← items_of (parameters step);
       Some ("  Parameters:"%string
             :: map (fun kv => "    " +:+ fmt (fst kv) +:+ ": " +:+ fmt (snd kv)) items)
     else Some []);
  Some (["Step " +:+ string_of_nat i +:+ ": " +:+ name step;
         "  Function: " +:+ function step;
         "  Timestamp: " +:+ timestamp step]
        ++ params ++ [EmptyString]).

(** The report at a reading [now] of the clock; [None] when it raises. *)
Definition generate_report (g : PipelineGenerator) (now : nat) : option string :=
  steps ← all_some (imap (fun i step => report_step (S i) step) (pipeline_steps g));
  Some (join_lines
    ([rule;
      " SMART ETL PIPELINE REPORT";
      rule;
      "Total Steps: " +:+ string_of_nat (length (pipeline_steps g));
      "Generated: " +:+ strftime now;
      EmptyString]
     ++ concat steps)).

End WithLibrary.

End Pipeline.

(** * Helpers *)

Module Helpers.

Import Profiler.

(** [df.empty]: an axis of length zero. *)
Definition empty (df : DataFrame) : bool :=
  (num_rows df =? 0)%nat || (num_columns df =? 0)%nat.

(** [validate_dataframe] of a DataFrame; [required_columns] is [None] by
    default and [min_rows] is 1. *)
Definition validate_dataframe (df : DataFrame) (required_columns : option (list string))
    (min_rows : Z) : bool :=
  if Z.ltb (Z.of_nat (num_rows df)) min_rows then false
  else
    let missing_columns :=
      match required_columns with
      | Some cols => filter (fun col => col ∉ column_names df) cols
      | None => []
      end in
    if negb (bool_decide (missing_columns = [])) then false
    else if empty df then false
    else true.

(** The loop of [check_column_uniqueness]; [None] is the ZeroDivisionError
    of a table without rows.  The loop takes the column at each position,
    which is what [df[column]] gives in a table whose names are distinct. *)
Fixpoint uniqueness_loop (rows : nat) (threshold : Q) (cols : list (string * Series))
  : option (list string) :=
  match cols with
  | [] => Some []
  | (column, s) :: rest =>
      match rows with
      | O => None
      | S _ =>
          let unique_ratio := (Qnat (nunique s) / Qnat rows)%Q in
          high_uniqueness_cols ← uniqueness_loop rows threshold rest;
          Some (if Qle_bool threshold unique_ratio
                then column :: high_uniqueness_cols
                else high_uniqueness_cols)
      end
  end.

Definition check_column_uniqueness (df : DataFrame) (threshold : Q) : option (list string) :=
  uniqueness_loop (num_rows df) threshold (columns df).

End Helpers.

(** * Config *)

Module Config.

#[local] Set Warnings "-register-all".

(** A value of a configuration that is no dict. *)
Inductive atom : Type :=
| ANone
| ABool (b : bool)
| AInt (z : Z)
| AFloat (q : Q)
| AStr (s : string)
| AOther (id : nat).      (* a list or any other object that is no dict *)

(** What a dict holds under a key: a scalar, or a reference to a dict
    object. *)
Inductive entry : Type :=
| Leaf (a : atom)
| Dict (r : nat).

(** The dict objects in memory, by reference; the keys are strings. *)
Abbreviation Store := (gmap nat (gmap string entry)).

(** A configuration as YAML gives it: nested mappings with string keys. *)
Inductive tree : Type :=
| TLeaf (a : atom)
| TDict (items : list (string * tree)).

Definition dot : ascii := "."%char.

(** [key.split('.')] *)
Fixpoint split (key : string) : list string :=
  match key with
  | EmptyString => [EmptyString]
  | String c rest =>
      if Ascii.eqb c dot then EmptyString :: split rest
      else match split rest with
           | first :: others => String c first :: others
           | [] => [String c EmptyString]
           end
  end.

(** The class attribute [DEFAULTS] and the four dicts nested in it. *)
Definition DEFAULTS : nat := 0%nat.

Definition data_cleaning : gmap string entry :=
  {[ "max_missing_percentage"%string := Leaf (AFloat 50);
     "outlier_threshold"%string := Leaf (AFloat (15 # 10));
     "imputation_strategy"%string := Leaf (AStr "auto") ]}.

Definition feature_engineering : gmap string entry :=
  {[ "max_features"%string := Leaf (AInt 50);
     "feature_selection_method"%string := Leaf (AStr "mutual_info");
     "interaction_depth"%string := Leaf (AInt 2) ]}.

Definition performance : gmap string entry :=
  {[ "parallel_processing"%string := Leaf (ABool true);
     "chunk_size"%string := Leaf (AInt 10000);
     "max_memory_usage"%string := Leaf (AStr "2GB") ]}.

Definition output : gmap string entry :=
  {[ "save_pipeline"%string := Leaf (ABool true);
     "generate_report"%string := Leaf (ABool true);
     "export_code"%string := Leaf (ABool true) ]}.

Definition defaults : gmap string entry :=
  {[ "data_cleaning"%string := Dict 1;
     "feature_engineering"%string := Dict 2;
     "performance"%string := Dict 3;
     "output"%string := Dict 4 ]}.

(** The memory when the module has been loaded. *)
Definition initial_store : Store :=
  {[ DEFAULTS := defaults;
     1%nat := data_cleaning;
     2%nat := feature_engineering;
     3%nat := performance;
     4%nat := output ]}.

(** [Config()], without a file: [self.config = self.DEFAULTS.copy()].  The
    copy is a new dict with the items of [DEFAULTS]; the nested dicts are
    not copied.  The result is the reference of [self.config]. *)
Definition __init__ (st : Store) : nat * Store :=
  let r := fresh (dom st) in
  (r, <[r := default ∅ (st !! DEFAULTS)]> st).

(** The loop of [get]: [value = value[k]] for each key; [None] is the
    KeyError of an absent key or the TypeError of a scalar. *)
Fixpoint get_path (st : Store) (v : entry) (keys : list string) : option entry :=
  match keys with
  | [] => Some v
  | k :: rest =>
      match v with
      | Dict r =>
          d ← st !! r;
          next ← d !! k;
          get_path st next rest
      | Leaf _ => None
      end
  end.

(** [get(key, default)] on the instance whose [self.config] is [config]. *)
Definition get (st : Store) (config : nat) (key : string) (default : entry) : entry :=
  match get_path st (Dict config) (split key) with
  | Some v => v
  | None => default
  end.

(** The loop and the last assignment of [set]; [None] is the TypeError of
    a scalar on the way, and the store is the one it leaves. *)
Fixpoint set_path (config : entry) (keys : list string) (v : entry) (st : Store)
  : option unit * Store :=
  match keys with
  | [] => (Some tt, st)
  | k :: rest =>
      match config with
      | Leaf _ => (None, st)
      | Dict r =>
          match st !! r with
          | None => (None, st)
          | Some d =>
              match rest with
              | [] => (Some tt, <[r := <[k := v]> d]> st)
              | _ :: _ =>
                  match d !! k with
                  | Some next => set_path next rest v st
                  | None =>
                      let r' := fresh (dom st) in
                      set_path (Dict r') rest v
                               (<[r := <[k := Dict r']> d]> (<[r' := ∅]> st))
                  end
              end
          end
      end
  end.

(** [set(key, value)] *)
Definition set (config : nat) (key : string) (v : entry) (st : Store)
  : option unit * Store :=
  set_path (Dict config) (split key) v st.

(** A value of the user's configuration becomes an object in memory. *)
Fixpoint store_tree (t : tree) (st : Store) : entry * Store :=
  match t with
  | TLeaf a => (Leaf a, st)
  | TDict items =>
      let '(d, st') :=
        (fix members (items : list (string * tree)) (d : gmap string entry) (st : Store)
           : gmap string entry * Store :=
           match items with
           | [] => (d, st)
           | (k, t') :: rest =>
               let '(v, st1) := store_tree t' st in
               members rest (<[k := v]> d) st1
           end) items ∅ st in
      let r := fresh (dom st') in
      (Dict r, <[r := d]> st')
  end.

(** [_update_config(default, user)]; [None] is the AttributeError of a
    [user] that is no dict. *)
Fixpoint _update_config (default : nat) (user : tree) (st : Store) : option Store :=
  match user with
  | TLeaf _ => None
  | TDict items =>
      (fix loop (items : list (string * tree)) (st : Store) : option Store :=
         match items with
         | [] => Some st
         | (key, value) :: rest =>
             match st !! default ≫= (fun d => d !! key) with
             | None => loop rest st
             | Some old =>
                 match value, old with
                 | TDict _, Dict r =>
                     match _update_config r value st with
                     | Some st' => loop rest st'
                     | None => None
                     end
                 | _, _ =>
                     let '(v, st1) := store_tree value st in
                     loop rest (alter (fun d => <[key := v]> d) default st1)
                 end
             end
         end) items st
  end.

(** [load_config]: the parsed file, when there is one, updates the
    configuration; an exception leaves it as it is. *)
Definition load_config (config : nat) (parsed : option tree) (st : Store) : Store :=
  match parsed with
  | Some user =>
      match _update_config config user st with
      | Some st' => st'
      | None => st
      end
  | None => st
  end.

End Config.

(** * Specification-side definitions *)

Module Reasoning.

Import Engineer.

(** The loop bodies of a method, run one after the other on a frame. *)
Fixpoint run_steps (fs : list step) (df : DataFrame) : option (DataFrame * list string) :=
  match fs with
  | [] => Some (df, [])
  | f :: rest =>
      match f df with
      | Some (df1, names1) =>
          match run_steps rest df1 with
          | Some (df2, names2) => Some (df2, names1 ++ names2)
          | None => None
          end
      | None => None
      end
  end.

(** The names the interaction loop can give to the features of a pair. *)
Definition pair_names (p : string * string) : list string :=
  [x_name p.1 p.2; div_name p.1 p.2].

(** The features of a pair, computed from the columns of the table: the
    product, and the ratio when the second column has no zero. *)
Definition pair_features (cols : list (string * Series)) (p : string * string)
  : list (string * Series) :=
  match lookup_column p.1 cols, lookup_column p.2 cols with
  | Some c1, Some c2 =>
      match series_mul c1 c2 with
      | Some product =>
          (x_name p.1 p.2, product) ::
          (if all_nonzero c2 then
             match series_div c1 c2 with
             | Some ratio => [(div_name p.1 p.2, ratio)]
             | None => []
             end
           else [])
      | None => []
      end
  | _, _ => []
  end.

(** The names the statistical loop gives to the features of a column. *)
Definition rolling_names (col : string) : list string :=
  [mean_name col; std_name col].

(** The rolling features of a column, computed from the columns of the
    table. *)
Definition rolling_features (fsqrt : Q -> Q) (cols : list (string * Series)) (col : string)
  : list (string * Series) :=
  match lookup_column col cols with
  | Some c =>
      match rolling_mean c, rolling_std fsqrt c with
      | Some m, Some s => [(mean_name col, m); (std_name col, s)]
      | _, _ => []
      end
  | None => []
  end.

(** A column that is a number column of the table. *)
Definition number_column (cols : list (string * Series)) (a : string) : Prop :=
  exists s, lookup_column a cols = Some s /\ is_number s = true.

(** The cell at row [i] of a float column is there and is not NaN. *)
Definition defined_at (xs : list (option Q)) (i : nat) : Prop :=
  exists q, xs !! i = Some (Some q).

(** A computation that writes to no frame of [D], keeps the property [I] of
    the engineer, and whose value, when it ends with one, satisfies [Q]. *)
Definition safe {A : Type} (D : gset nat) (I : FeatureEngineer -> Prop)
    (m : M A) (Q : A -> Prop) : Prop :=
  forall w, D ⊆ dom (frames w) -> I (self w) ->
    D ⊆ dom (frames (m w).2) /\
    (forall r, r ∈ D -> frames (m w).2 !! r = frames w !! r) /\
    I (self (m w).2) /\
    (forall a, (m w).1 = Some a -> Q a).

(** A property of the engineer that the recording of names keeps. *)
Definition stable (I : FeatureEngineer -> Prop) : Prop :=
  forall names e, I e -> I (extend_created names e).

(** Two worlds that differ only in the names recorded before: the first
    has the prefix [pre] that the second lacks. *)
Definition rel (pre : list string) (w1 w2 : World) : Prop :=
  frames w1 = frames w2 /\
  max_features (self w1) = max_features (self w2) /\
  selected_features (self w1) = selected_features (self w2) /\
  feature_importance (self w1) = feature_importance (self w2) /\
  created_features (self w1) = pre ++ created_features (self w2).

(** The computation does the same in both worlds. *)
Definition sim {A : Type} (pre : list string) (m : M A) : Prop :=
  forall w1 w2, rel pre w1 w2 ->
    (m w1).1 = (m w2).1 /\ rel pre (m w1).2 (m w2).2.

(** The world with the list of created names emptied. *)
Definition forget_created (w : World) : World :=
  mkWorld (frames w)
          (mkEngineer (max_features (self w)) [] (selected_features (self w))
                      (feature_importance (self w))).

(** The table [df'] extends [df]: the rows are as many, the columns of [df]
    come first and in their order, distinct names stay distinct, and
    [names] are columns of [df']. *)
Definition extends (df df' : DataFrame) (names : list string) : Prop :=
  index_len df' = index_len df /\
  column_names df `prefix_of` column_names df' /\
  (NoDup (column_names df) -> NoDup (column_names df')) /\
  (forall x, x ∈ names -> x ∈ column_names df').

(** The names [cand] are number columns of the table. *)
Definition numbers (cand : list string) (df : DataFrame) : Prop :=
  Forall (number_column (columns df)) cand.

(** A method that copies the frame, works on the copy and returns it: the
    new frame is [df'] and [names] are recorded. *)
Definition returns_copy (m : M nat) (w : World) (df' : DataFrame) (names : list string)
  : Prop :=
  m w = (Some (fresh (dom (frames w))),
         mkWorld (<[fresh (dom (frames w)) := df']> (frames w))
                 (extend_created names (self w))).

(** The indices are in ascending order of score. *)
Fixpoint ascending (score : nat -> Q) (l : list nat) : Prop :=
  match l with
  | [] => True
  | i :: rest => Forall (fun j => (score i <= score j)%Q) rest /\ ascending score rest
  end.

End Reasoning.

Module PipelineReasoning.

Import Pipeline.

(** The string keys of the items of a dict. *)
Definition str_keys (items : list (pyval * pyval)) : list string :=
  omap (fun kv => match fst kv with PyStr s => Some s | _ => None end) items.

Definition is_string (v : pyval) : bool :=
  match v with PyStr _ => true | _ => false end.

(** The values that JSON has a form of its own for: None, booleans,
    integers, finite floats, strings, lists of such values, and dicts with
    distinct string keys and such values. *)
Fixpoint json_native (v : pyval) : bool :=
  match v with
  | PyNone | PyBool _ | PyInt _ | PyFloat _ | PyStr _ => true
  | PyList l => forallb json_native l
  | PyTuple _ => false
  | PyDict items =>
      forallb (fun kv => is_string (fst kv) && json_native (snd kv)) items
      && bool_decide (NoDup (str_keys items))
  | PyObject _ => false
  end.

(** The arguments of an [add_step] call, as the fields of a loaded step. *)
Definition call_fields (c : string * string * pyval) : pyval * pyval * pyval :=
  (PyStr (fst (fst c)), PyStr (snd (fst c)), snd c).

(** The steps that a sequence of calls appends, the first at time [now]. *)
Fixpoint stamped (isoformat : nat -> string) (now : nat)
    (calls : list (string * string * pyval)) : list Step :=
  match calls with
  | [] => []
  | c :: rest =>
      mkStep (fst (fst c)) (snd (fst c)) (snd c) (isoformat now)
      :: stamped isoformat (S now) rest
  end.

End PipelineReasoning.

Module ConfigReasoning.

Import Config.

(** The dicts that [set] and [get] walk through for a list of keys. *)
Fixpoint path_refs (st : Store) (v : entry) (keys : list string) : list nat :=
  match keys with
  | [] => []
  | k :: rest =>
      match v with
      | Dict r =>
          r :: match st !! r ≫= (fun d => d !! k) with
               | Some next => path_refs st next rest
               | None => []
               end
      | Leaf _ => []
      end
  end.

(** Every dict of [st] is in [st'] with the same keys. *)
Definition same_keys (st st' : Store) : Prop :=
  forall r d, st !! r = Some d -> exists d', st' !! r = Some d' /\ dom d' = dom d.

End ConfigReasoning.

(** * Concrete tables and library functions for the examples *)

Module Examples.

(** A date parser that refuses every string. *)
Definition no_dates (xs : list (option string)) : option (list (option Z)) := None.

(** Calendar fields, a square root, a validator and a scorer to run the
    examples with; none of the examples depends on what they return. *)
Definition field0 (t : Z) : Z := 0.
Definition sqrt0 (q : Q) : Q := q.
Definition accept (X : list Series) (y : Series) : bool := true.
Definition score0 (i : nat) (x y : Series) : Q := inject_Z (Z.of_nat i).

Definition stats0 (s : Series) : gmap string (option Q) := ∅.
Definition memory0 (df : DataFrame) : string := "0.00 MB"%string.

Definition float (z : Z) : option Q := Some (inject_Z z).

(** The column of the profiler's test: nine distinct values and a NaN. *)
Definition borderline_column : Series :=
  SFloat [float 1; float 2; float 3; float 4; float 5; None;
          float 7; float 8; float 9; float 10].

(** The table of [tests/test_data_profiler.py], the second column in tenths. *)
Definition sample_data : DataFrame :=
  mkDataFrame 10
    [("numerical_1"%string, borderline_column);
     ("numerical_2"%string,
      SFloat [Some (105 # 10); Some (203 # 10); Some (301 # 10); Some (407 # 10);
              Some (502 # 10); Some (608 # 10); Some (704 # 10); Some (809 # 10);
              Some (901 # 10); Some (1005 # 10)]%Q);
     ("categorical"%string,
      SObject [Some "A"; Some "B"; Some "A"; Some "C"; Some "B";
               Some "A"; Some "C"; Some "B"; Some "A"; Some "C"]%string);
     ("text"%string,
      SObject [Some "hello"; Some "world"; Some "test"; Some "data"; Some "science";
               Some "ai"; Some "ml"; Some "etl"; Some "smart"; Some "feature"]%string)].

(** [a = [1,2,3]], [b = [2,0,4]]. *)
Definition table_ab : DataFrame :=
  mkDataFrame 3 [("a"%string, SInt [1; 2; 3]); ("b"%string, SInt [2; 0; 4])].

(** A table that already has a column called [a_x_b]. *)
Definition table_collision : DataFrame :=
  mkDataFrame 2 [("a"%string, SInt [0; 1]); ("b"%string, SInt [1; 1]);
                 ("a_x_b"%string, SInt [5; 5])].

(** Three numeric columns, the first [[10,20,30,40]]. *)
Definition table_xyz : DataFrame :=
  mkDataFrame 4 [("x"%string, SInt [10; 20; 30; 40]);
                 ("y"%string, SInt [1; 1; 2; 3]);
                 ("z"%string, SFloat [float 5; None; float 8; float 13])].

(** Two predictors, a label and a class to predict. *)
Definition table_target : DataFrame :=
  mkDataFrame 3 [("x"%string, SInt [1; 2; 3]);
                 ("label"%string, SObject [Some "p"; Some "q"; Some "p"]%string);
                 ("z"%string, SInt [2; 0; 4]);
                 ("t"%string, SInt [0; 1; 0])].

Definition world_of (df : DataFrame) (limit : Z) : Engineer.World :=
  Engineer.mkWorld {[ 0%nat := df ]} (Engineer.__init__ limit).

Definition create_features :=
  Engineer.create_features no_dates field0 field0 field0 field0 field0
                           sqrt0 accept score0.

Definition analyze := Profiler.analyze no_dates stats0 memory0.

(** The library of the pipeline examples: a clock that prints its reading,
    a system that allows everything. *)
Definition clock_text (t : nat) : string := Pipeline.string_of_nat t.
Definition str0 (v : Pipeline.pyval) : string := EmptyString.
Definition repr0 (q : Q) : string := EmptyString.
Definition allow (path : string) : bool := true.
Definition picklable0 (g : Pipeline.PipelineGenerator) : bool := true.

Definition add_steps := Pipeline.add_steps clock_text.
Definition save_pipeline :=
  Pipeline.save_pipeline clock_text clock_text str0 repr0 allow allow picklable0.

Definition empty_disk : Pipeline.FileSystem := Pipeline.mkFS ∅ ∅.
Definition new_env : Pipeline.Env :=
  Pipeline.mkEnv Pipeline.__init__ 0 empty_disk.

(** The three calls of [examples/advanced_usage.py], with counts filled in. *)
Definition usage_calls : list (string * string * Pipeline.pyval) :=
  [("Data Profiling", "data_profiling",
    Pipeline.PyDict [(Pipeline.PyStr "columns_analyzed", Pipeline.PyInt 8);
                     (Pipeline.PyStr "rows_analyzed", Pipeline.PyInt 1000)]);
   ("Data Cleaning", "data_cleaning",
    Pipeline.PyDict [(Pipeline.PyStr "imputation_applied", Pipeline.PyInt 3)]);
   ("Feature Engineering", "feature_engineering",
    Pipeline.PyDict [(Pipeline.PyStr "features_created", Pipeline.PyInt 12)])]%string.

(** A step whose parameters name the interacting columns by a tuple. *)
Definition tuple_calls : list (string * string * Pipeline.pyval) :=
  [("Feature Engineering", "feature_engineering",
    Pipeline.PyDict
      [(Pipeline.PyStr "interaction_features",
        Pipeline.PyList [Pipeline.PyTuple [Pipeline.PyStr "a"; Pipeline.PyStr "b"]])])]%string.

(** A table with a column and no row. *)
Definition table_no_rows : DataFrame := mkDataFrame 0 [("a"%string, SInt [])].

(** Floats that no timestamp can hold: a NaN and ten to the power 30. *)
Definition wide_floats : list (option Q) := [float 1; None; float (10 ^ 30)].

Definition table_floats : DataFrame :=
  mkDataFrame 3 [("amount"%string, SFloat wide_floats)].

(** A table with a column of timestamps, whose name holds 'time', and a
    column of counts. *)
Definition table_events : DataFrame :=
  mkDataFrame 3 [("Event_Time"%string, SInt [0; 1000000000; 2000000000]);
                 ("count"%string, SInt [4; 5; 6])].

(** A step whose parameters are an object that JSON has no form for. *)
Definition object_calls : list (string * string * Pipeline.pyval) :=
  [("Custom", "custom", Pipeline.PyObject 0)]%string.

(** The document of the parameters of [tuple_calls]. *)
Definition tuple_document : Pipeline.json :=
  Pipeline.JObject
    [("interaction_features"%string,
      Pipeline.JArray [Pipeline.JArray [Pipeline.JString "a"; Pipeline.JString "b"]])].

End Examples.

(** * Facts about the three classes *)

(** * The profiler *)

Module ProfilerProofs.

Import Profiler.

Section ProfilerFacts.

Variable parse_datetimes : list (option string) -> option (list (option Z)).
Variable column_statistics : Series -> gmap string (option Q).
Variable memory_usage : DataFrame -> string.

Lemma infer_label_total (s : Series) :
  series_len s <> O -> exists l, infer_label parse_datetimes s = Some l.
Proof.
  intros Hlen. unfold infer_label.
  destruct (_is_datetime_column parse_datetimes s); [eauto|].
  unfold _is_categorical_column.
  destruct (is_object_dtype s).
  - destruct (series_len s) as [|n] eqn:E; [congruence|].
    destruct (_ && _); [eauto|].
    destruct (is_numeric_dtype s); [|eauto].
    destruct (bool_decide _); eauto.
  - destruct (is_numeric_dtype s); [|eauto].
    destruct (bool_decide _); eauto.
Qed.

Lemma infer_loop_total (cols : list (string * Series)) (m : gmap string string) :
  Forall (fun c => series_len (snd c) <> O) cols ->
  exists m', infer_loop parse_datetimes cols m = Some m'.
Proof.
  revert m. induction cols as [|[c s] cols IH]; intros m H; simpl; [eauto|].
  apply Forall_cons in H as [Hs Hrest]. simpl in Hs.
  destruct (infer_label_total s Hs) as [l ->]. apply IH, Hrest.
Qed.

Lemma infer_loop_other (cols : list (string * Series)) (m m' : gmap string string)
    (c : string) :
  c ∉ map fst cols ->
  infer_loop parse_datetimes cols m = Some m' ->
  m' !! c = m !! c.
Proof.
  revert m. induction cols as [|[c0 s0] cols IH]; intros m Hnotin Hrun; simpl in Hrun.
  - by inversion Hrun.
  - destruct (infer_label parse_datetimes s0) as [l0|]; [|discriminate].
    simpl in Hnotin. apply not_elem_of_cons in Hnotin as [Hne Hnotin].
    rewrite (IH _ Hnotin Hrun). by apply lookup_insert_ne.
Qed.

Lemma infer_loop_lookup (cols : list (string * Series)) (m m' : gmap string string)
    (c : string) (s : Series) :
  NoDup (map fst cols) -> (c, s) ∈ cols ->
  infer_loop parse_datetimes cols m = Some m' ->
  m' !! c = infer_label parse_datetimes s.
Proof.
  revert m. induction cols as [|[c0 s0] cols IH]; intros m Hnd Hin Hrun.
  - inversion Hin.
  - simpl in Hrun. destruct (infer_label parse_datetimes s0) as [l0|] eqn:El; [|discriminate].
    simpl in Hnd. apply NoDup_cons in Hnd as [Hnotin Hnd].
    apply elem_of_cons in Hin as [Heq|Hin].
    + inversion Heq; subst c0 s0. rewrite El.
      rewrite (infer_loop_other _ _ _ _ Hnotin Hrun). apply lookup_insert_eq.
    + eapply IH; eauto.
Qed.

Lemma isnull_sum_le (s : Series) : (isnull_sum s <= series_len s)%nat.
Proof. unfold isnull_sum, series_len. apply length_filter. Qed.

Lemma missing_cells_le (data : DataFrame) :
  aligned data ->
  (missing_cells data <= num_rows data * num_columns data)%nat.
Proof.
  unfold aligned, missing_cells, missing_count, num_rows, num_columns.
  generalize (index_len data) as n. intros n.
  induction (columns data) as [|[c s] cols IH]; intros H; simpl; [lia|].
  apply Forall_cons in H as [Hs Hrest]. simpl in Hs.
  specialize (IH Hrest). pose proof (isnull_sum_le s). lia.
Qed.

Lemma Qnat_nonneg (n : nat) : (0 <= Qnat n)%Q.
Proof. unfold Qnat, Qle. simpl. lia. Qed.

Lemma Qnat_pos (n : nat) : (0 < n)%nat -> (0 < Qnat n)%Q.
Proof. intros H. unfold Qnat, Qlt. simpl. lia. Qed.

Lemma Qnat_le (n m : nat) : (n <= m)%nat -> (Qnat n <= Qnat m)%Q.
Proof. intros H. unfold Qnat, Qle. simpl. lia. Qed.

Lemma np_div_pos (a : Q) (n : nat) :
  (0 < n)%nat -> np_div a (Qnat n) = Some (a / Qnat n)%Q.
Proof.
  intros H. unfold np_div.
  destruct (Qeq_bool (Qnat n) 0) eqn:E; [|done].
  apply Qeq_bool_eq in E. pose proof (Qnat_pos n H) as Hp. rewrite E in Hp.
  by apply Qlt_irrefl in Hp.
Qed.

(** A ratio of counts lies between 0 and 1. *)
Lemma ratio_bounds (m t : nat) :
  (0 < t)%nat -> (m <= t)%nat -> (0 <= Qnat m / Qnat t <= 1)%Q.
Proof.
  intros Ht Hm. pose proof (Qnat_pos t Ht) as Hp.
  pose proof (Qnat_nonneg m) as Hm0. pose proof (Qnat_le m t Hm) as Hle.
  split.
  - apply Qle_shift_div_l; [done|]. lra.
  - apply Qle_shift_div_r; [done|]. lra.
Qed.

Lemma ratio_nonneg (m t : nat) : (0 < t)%nat -> (0 <= Qnat m / Qnat t)%Q.
Proof.
  intros Ht. pose proof (Qnat_pos t Ht) as Hp. pose proof (Qnat_nonneg m).
  apply Qle_shift_div_l; [done|]. lra.
Qed.

Lemma analyze_total (data : DataFrame) :
  aligned data -> (0 < num_rows data)%nat ->
  exists types,
    _infer_data_types parse_datetimes data = Some types /\
    analyze parse_datetimes column_statistics memory_usage data =
      Some {| overview := _get_overview memory_usage data;
              data_types := types;
              missing_values := _analyze_missing_values data;
              statistical_summary := _generate_statistical_summary column_statistics data;
              quality_metrics := _calculate_quality_metrics data |}.
Proof.
  intros Hlen Hrows. unfold analyze, _infer_data_types.
  destruct (infer_loop_total (columns data) ∅) as [types Ht].
  - eapply Forall_impl; [exact Hlen|]. intros c Hc. simpl in Hc. unfold num_rows in Hrows. lia.
  - unfold _infer_data_types. rewrite Ht. eauto.
Qed.


(** C1 (failing input).  A numeric column with the values
    [1,2,3,4,5,NaN,7,8,9,10] is labelled 'datetime' by [analyze], in any
    table that holds it: the datetime test comes first and the conversion
    accepts numbers.  The rule for numeric columns is never reached, although
    the column would pass it: it is no string-categorical column, its dtype
    is numeric and it has nine distinct values. *)
Theorem borderline_column_is_labelled_datetime (data : DataFrame) (c : string) :
  wf_frame data ->
  (c, Examples.borderline_column) ∈ columns data ->
  exists p,
    analyze parse_datetimes column_statistics memory_usage data = Some p /\
    data_types p !! c = Some "datetime"%string /\
    _is_datetime_column parse_datetimes Examples.borderline_column = true /\
    _is_categorical_column Examples.borderline_column = Some false /\
    is_numeric_dtype Examples.borderline_column = true /\
    nunique Examples.borderline_column = 9%nat.
Proof.
  intros [Hlen Hnd] Hin.
  assert (Hrows : (0 < num_rows data)%nat).
  { pose proof Hlen as Hall. unfold aligned in Hall. rewrite Forall_forall in Hall.
    specialize (Hall _ Hin). simpl in Hall. unfold num_rows. rewrite <- Hall.
    vm_compute. lia. }
  destruct (analyze_total data Hlen Hrows) as (types & Ht & Ha).
  eexists. split; [exact Ha|]. simpl.
  split; [by rewrite (infer_loop_lookup _ _ _ _ _ Hnd Hin Ht)|].
  repeat split; reflexivity.
Qed.

(** C7.  For a table with at least one cell, whose columns are as long as
    its index and carry distinct names, [analyze] returns a completeness
    score that is exactly [100 * (1 - missing_cells / total_cells)], with
    [total_cells = rows * columns], and the score lies in [0, 100]. *)
Theorem completeness_score_formula (data : DataFrame) :
  wf_frame data ->
  (0 < num_rows data * num_columns data)%nat ->
  exists p c,
    analyze parse_datetimes column_statistics memory_usage data = Some p /\
    completeness_score (quality_metrics p) = Some c /\
    c = (100 * (1 - Qnat (missing_cells data)
                     / Qnat (num_rows data * num_columns data)))%Q /\
    (0 <= c <= 100)%Q.
Proof.
  intros [Hlen _] Hcells.
  destruct (analyze_total data Hlen) as (types & _ & Ha); [lia|].
  eexists _, _. split; [exact Ha|]. simpl.
  rewrite np_div_pos by done. simpl. split; [done|]. split; [done|].
  pose proof (ratio_bounds _ _ Hcells (missing_cells_le data Hlen)) as [H0 H1].
  split; lra.
Qed.

(** C3.  For a table with at least one row and one column, whose columns
    are as long as its index and carry distinct names, [analyze] returns an
    overall quality score equal to
    [max(0, completeness - 10 * (duplicate_rows / rows))], and the score lies
    in [0, 100]. *)
Theorem overall_quality_score_formula (data : DataFrame) :
  wf_frame data ->
  (1 <= num_rows data)%nat -> (1 <= num_columns data)%nat ->
  exists p o c,
    analyze parse_datetimes column_statistics memory_usage data = Some p /\
    overall_quality_score (quality_metrics p) = Some o /\
    completeness_score (quality_metrics p) = Some c /\
    (o == Qmax 0 (c - 10 * (Qnat (duplicated_sum data) / Qnat (num_rows data))))%Q /\
    (0 <= o <= 100)%Q.
Proof.
  intros [Hlen _] Hrows Hcols.
  assert (Hcells : (0 < num_rows data * num_columns data)%nat) by lia.
  destruct (analyze_total data Hlen) as (types & _ & Ha); [lia|].
  pose proof (ratio_bounds _ _ Hcells (missing_cells_le data Hlen)) as [H0 H1].
  pose proof (ratio_nonneg (duplicated_sum data) (num_rows data) ltac:(lia)) as Hd.
  set (c := (100 * (1 - Qnat (missing_cells data)
                     / Qnat (num_rows data * num_columns data)))%Q).
  set (pen := (Qnat (duplicated_sum data) / Qnat (num_rows data))%Q) in *.
  exists {| overview := _get_overview memory_usage data;
            data_types := types;
            missing_values := _analyze_missing_values data;
            statistical_summary := _generate_statistical_summary column_statistics data;
            quality_metrics := _calculate_quality_metrics data |}.
  exists (if Qlt_le_dec 0 (c - pen * 10) then (c - pen * 10)%Q else 0%Q), c.
  split; [exact Ha|]. simpl.
  rewrite !np_div_pos by lia. simpl. fold c pen.
  split; [by destruct (Qlt_le_dec 0 (c - pen * 10))|]. split; [done|].
  destruct (Qlt_le_dec 0 (c - pen * 10)) as [Hpos|Hneg].
  - split.
    + rewrite Q.max_r; [ring|]. lra.
    + subst c. split; lra.
  - split.
    + rewrite Q.max_l; [reflexivity|]. lra.
    + split; lra.
Qed.

End ProfilerFacts.

Lemma sample_data_wf : wf_frame Examples.sample_data.
Proof.
  split; [by repeat constructor | apply (bool_decide_unpack _); by vm_compute].
Defined.

(** The column in the table of the repository's test. *)
Lemma borderline_column_is_labelled_datetime_witness :
  exists p,
    Examples.analyze Examples.sample_data = Some p /\
    data_types p !! "numerical_1"%string = Some "datetime"%string /\
    _is_datetime_column Examples.no_dates Examples.borderline_column = true /\
    _is_categorical_column Examples.borderline_column = Some false /\
    is_numeric_dtype Examples.borderline_column = true /\
    nunique Examples.borderline_column = 9%nat.
Proof.
  apply borderline_column_is_labelled_datetime; [exact sample_data_wf | left].
Defined.

(** The completeness of the table of the repository's test. *)
Lemma completeness_score_formula_witness :
  exists p c,
    Examples.analyze Examples.sample_data = Some p /\
    completeness_score (quality_metrics p) = Some c /\
    c = (100 * (1 - Qnat (missing_cells Examples.sample_data)
                     / Qnat (num_rows Examples.sample_data
                             * num_columns Examples.sample_data)))%Q /\
    (0 <= c <= 100)%Q.
Proof.
  apply completeness_score_formula; [exact sample_data_wf | vm_compute; lia].
Defined.

(** The overall score of the table of the repository's test. *)
Lemma overall_quality_score_formula_witness :
  exists p o c,
    Examples.analyze Examples.sample_data = Some p /\
    overall_quality_score (quality_metrics p) = Some o /\
    completeness_score (quality_metrics p) = Some c /\
    (o == Qmax 0 (c - 10 * (Qnat (duplicated_sum Examples.sample_data)
                            / Qnat (num_rows Examples.sample_data))))%Q /\
    (0 <= o <= 100)%Q.
Proof.
  apply overall_quality_score_formula;
    [exact sample_data_wf | vm_compute; lia | vm_compute; lia].
Defined.

End ProfilerProofs.

(** * The feature engineer *)

Module EngineerProofs.

Import Engineer Reasoning.


(** ** Columns by name *)

Lemma lookup_column_app_l (name : string) (cols extra : list (string * Series)) (s : Series) :
  lookup_column name cols = Some s -> lookup_column name (cols ++ extra) = Some s.
Proof.
  induction cols as [|[n s0] cols IH]; simpl; [discriminate|].
  destruct (String.eqb n name); auto.
Qed.

Lemma lookup_column_None (name : string) (cols : list (string * Series)) :
  name ∉ map fst cols <-> lookup_column name cols = None.
Proof.
  induction cols as [|[n s0] cols IH]; simpl.
  - split; [done|]. intros _ H. inversion H.
  - destruct (String.eqb_spec n name) as [->|Hne].
    + split; [|discriminate]. intros H. exfalso. apply H. left.
    + rewrite not_elem_of_cons. rewrite <- IH. intuition congruence.
Qed.

Lemma lookup_column_app_r (name : string) (cols extra : list (string * Series)) :
  name ∉ map fst cols -> lookup_column name (cols ++ extra) = lookup_column name extra.
Proof.
  induction cols as [|[n s0] cols IH]; simpl; [done|].
  rewrite not_elem_of_cons. intros [Hne H].
  destruct (String.eqb_spec n name); [congruence|]. auto.
Qed.

Lemma lookup_column_elem (name : string) (cols : list (string * Series)) (s : Series) :
  NoDup (map fst cols) -> (name, s) ∈ cols -> lookup_column name cols = Some s.
Proof.
  induction cols as [|[n s0] cols IH]; simpl; intros Hnd Hin; [inversion Hin|].
  apply NoDup_cons in Hnd as [Hn Hnd].
  apply elem_of_cons in Hin as [Heq|Hin].
  - inversion Heq; subst. by rewrite String.eqb_refl.
  - destruct (String.eqb_spec n name) as [->|Hne]; [|auto].
    exfalso. apply Hn. apply (list_elem_of_fmap_2 fst) in Hin. exact Hin.
Qed.

Lemma lookup_column_Some_elem (name : string) (cols : list (string * Series)) (s : Series) :
  lookup_column name cols = Some s -> (name, s) ∈ cols.
Proof.
  induction cols as [|[n s0] cols IH]; simpl; [discriminate|].
  destruct (String.eqb_spec n name) as [->|Hne].
  - intros [= ->]. left.
  - intros H. right. auto.
Qed.

Lemma assign_column_fresh (name : string) (s : Series) (cols : list (string * Series)) :
  name ∉ map fst cols -> assign_column name s cols = cols ++ [(name, s)].
Proof.
  induction cols as [|[n s0] cols IH]; simpl; [done|].
  rewrite not_elem_of_cons. intros [Hne H].
  destruct (String.eqb_spec n name); [congruence|]. by rewrite IH.
Qed.

Lemma setitem_fresh (n : nat) (cols : list (string * Series)) (name : string) (s : Series) :
  name ∉ map fst cols ->
  setitem (mkDataFrame n cols) name s = mkDataFrame n (cols ++ [(name, s)]).
Proof. intros H. unfold setitem. simpl. by rewrite assign_column_fresh. Qed.

(** ** Pairs *)

Lemma elem_of_pairs {A} (l : list A) (a b : A) :
  (a, b) ∈ pairs l -> a ∈ l /\ b ∈ l.
Proof.
  induction l as [|x l IH]; simpl; [intros H; inversion H|].
  rewrite elem_of_app. intros [H|H].
  - apply list_elem_of_fmap in H as (y & [= -> ->] & Hy). split; [left|by right].
  - destruct (IH H). split; by right.
Qed.

(** ** Numeric columns *)

Lemma series_mul_number (a b : Series) :
  is_number a = true -> is_number b = true ->
  exists p, series_mul a b = Some p /\ is_number p = true.
Proof. destruct a, b; simpl; try discriminate; eauto. Qed.

Lemma series_div_number (a b : Series) :
  is_number a = true -> is_number b = true ->
  exists q, series_div a b = Some q /\ is_number q = true.
Proof. destruct a, b; simpl; try discriminate; eauto. Qed.

Lemma select_number_elem (cols : list (string * Series)) (c : string * Series) :
  c ∈ select_number cols <-> c ∈ cols /\ is_number c.2 = true.
Proof. unfold select_number. rewrite list_elem_of_filter. tauto. Qed.

Lemma take_elem {A} (n : nat) (l : list A) (x : A) : x ∈ take n l -> x ∈ l.
Proof. intros H. eapply elem_of_sublist; [exact H | apply sublist_take]. Qed.

Lemma candidate_is_number (df : DataFrame) (a : string) :
  NoDup (column_names df) ->
  a ∈ interaction_candidates df ->
  exists s, lookup_column a (columns df) = Some s /\ is_number s = true.
Proof.
  intros Hnd Ha. unfold interaction_candidates in Ha.
  assert (Hin : a ∈ map fst (select_number (columns df))).
  { destruct (5 <? _)%nat; [by eapply take_elem|done]. }
  apply list_elem_of_fmap in Hin as ([n s] & -> & Hs).
  apply select_number_elem in Hs as [Hs Hnum]. simpl in *.
  exists s. split; [|done]. by apply lookup_column_elem.
Qed.

(** ** Running the loop of a method *)

Lemma extend_created_nil (e : FeatureEngineer) : extend_created [] e = e.
Proof. destruct e. unfold extend_created. simpl. by rewrite app_nil_r. Qed.

Lemma extend_created_app (n1 n2 : list string) (e : FeatureEngineer) :
  extend_created n2 (extend_created n1 e) = extend_created (n1 ++ n2) e.
Proof. unfold extend_created. simpl. by rewrite app_assoc. Qed.

Lemma for_each_mutate {A} (r : nat) (body : A -> step) (l : list A) :
  forall (df df' : DataFrame) (names : list string) (w : World),
  frames w !! r = Some df ->
  run_steps (map body l) df = Some (df', names) ->
  for_each l (fun x => mutate r (body x)) w
  = (Some tt, mkWorld (<[r := df']> (frames w)) (extend_created names (self w))).
Proof.
  induction l as [|x l IH]; intros df df' names w Hr Hrun; simpl in *.
  - inversion Hrun; subst. rewrite extend_created_nil, insert_id by done. by destruct w.
  - destruct (body x df) as [[df1 names1]|] eqn:Eb; [|discriminate].
    destruct (run_steps (map body l) df1) as [[df2 names2]|] eqn:Er; [|discriminate].
    inversion Hrun; subst.
    unfold mbind, M_bind, bind. unfold mutate at 1. rewrite Hr, Eb.
    erewrite IH; [|simpl; apply lookup_insert_eq|exact Er].
    simpl. by rewrite insert_insert_eq, extend_created_app.
Qed.

Lemma copy_run (data : nat) (df : DataFrame) (w : World) :
  frames w !! data = Some df ->
  copy data w = (Some (fresh (dom (frames w))),
                 mkWorld (<[fresh (dom (frames w)) := df]> (frames w)) (self w)).
Proof. intros H. unfold copy, mbind, M_bind, bind, deref. by rewrite H. Qed.

Lemma fresh_ne (data : nat) (df : DataFrame) (w : World) :
  frames w !! data = Some df -> fresh (dom (frames w)) <> data.
Proof.
  intros H Heq. pose proof (is_fresh (dom (frames w))) as Hf.
  rewrite Heq in Hf. apply Hf. apply elem_of_dom. eauto.
Qed.

(** The method: a copy, the loop on the copy, the copy returned. *)
Lemma interaction_run (data : nat) (df df' : DataFrame) (names : list string) (w : World) :
  frames w !! data = Some df ->
  run_steps (map interaction_body (pairs (interaction_candidates df))) df = Some (df', names) ->
  _create_interaction_features data w
  = (Some (fresh (dom (frames w))),
     mkWorld (<[fresh (dom (frames w)) := df']> (frames w)) (extend_created names (self w))).
Proof.
  intros Hd Hrun. unfold _create_interaction_features, mbind, M_bind, bind.
  rewrite (copy_run _ _ _ Hd). unfold deref at 1. simpl.
  rewrite lookup_insert_ne by (by eapply fresh_ne).
  rewrite Hd.
  erewrite for_each_mutate; [|simpl; apply lookup_insert_eq|exact Hrun].
  simpl. by rewrite insert_insert_eq.
Qed.

(** ** The interaction loop when the new names are fresh *)

Lemma interaction_step_fresh (n : nat) (cols extra : list (string * Series))
    (a b : string) :
  number_column cols a -> number_column cols b ->
  x_name a b ∉ map fst (cols ++ extra) ->
  div_name a b ∉ map fst (cols ++ extra) ->
  x_name a b <> div_name a b ->
  interaction_body (a, b) (mkDataFrame n (cols ++ extra))
  = Some (mkDataFrame n (cols ++ extra ++ pair_features cols (a, b)),
          map fst (pair_features cols (a, b))).
Proof.
  intros (ca & Ha & Hna) (cb & Hb & Hnb) Hx Hd Hxd.
  destruct (series_mul_number ca cb Hna Hnb) as (prod & Hm & _).
  destruct (series_div_number ca cb Hna Hnb) as (ratio & Hq & _).
  assert (Hd' : div_name a b ∉ map fst ((cols ++ extra) ++ [(x_name a b, prod)])).
  { rewrite map_app, elem_of_app. simpl. intros [?|H]; [done|].
    apply list_elem_of_singleton in H. congruence. }
  unfold interaction_body, pair_features, setitem. simpl.
  rewrite (lookup_column_app_l _ _ _ _ Ha), (lookup_column_app_l _ _ _ _ Hb), Ha, Hb. simpl.
  rewrite Hm. simpl.
  rewrite !(assign_column_fresh (x_name a b)) by done.
  rewrite <- (app_assoc cols extra).
  rewrite (lookup_column_app_l _ _ _ _ Hb). simpl.
  destruct (all_nonzero cb).
  - rewrite (lookup_column_app_l _ _ _ _ Ha). simpl. rewrite Hq. simpl.
    rewrite (app_assoc cols extra).
    rewrite assign_column_fresh by done.
    by rewrite <- !app_assoc.
  - done.
Qed.

Lemma pair_features_names (cols : list (string * Series)) (p : string * string) :
  forall x, x ∈ map fst (pair_features cols p) -> x ∈ pair_names p.
Proof.
  intros x. unfold pair_features, pair_names.
  destruct (lookup_column p.1 cols); [|intros H; inversion H].
  destruct (lookup_column p.2 cols); [|intros H; inversion H].
  destruct (series_mul _ _); [|intros H; inversion H].
  simpl. destruct (all_nonzero _); [destruct (series_div _ _)|]; simpl;
    rewrite ?elem_of_cons; intuition.
  all: match goal with H : _ ∈ [] |- _ => inversion H end.
Qed.

Lemma interaction_steps_fresh (n : nat) (cols : list (string * Series))
    (ps : list (string * string)) :
  forall (extra : list (string * Series)) (dn : list string),
  (forall a b, (a, b) ∈ ps -> number_column cols a /\ number_column cols b) ->
  (forall x, x ∈ map fst extra -> x ∈ dn) ->
  NoDup (map fst cols ++ dn ++ flat_map pair_names ps) ->
  run_steps (map interaction_body ps) (mkDataFrame n (cols ++ extra))
  = Some (mkDataFrame n (cols ++ extra ++ flat_map (pair_features cols) ps),
          flat_map (fun p => map fst (pair_features cols p)) ps).
Proof.
  induction ps as [|[a b] ps IH]; intros extra dn Hnum Hdn Hnd;
    cbn [map run_steps flat_map].
  - by rewrite app_nil_r.
  - destruct (Hnum a b ltac:(left)) as [Hna Hnb].
    cbn [flat_map pair_names fst snd app] in Hnd.
    apply NoDup_app in Hnd as (Hc & Hcd & Hnd).
    apply NoDup_app in Hnd as (Hdn1 & Hdd & Hnd).
    apply NoDup_cons in Hnd as (Hx & Hnd).
    apply NoDup_cons in Hnd as (Hd & Hnd).
    assert (Hxe : x_name a b ∉ map fst (cols ++ extra)).
    { rewrite map_app, elem_of_app. intros [H|H].
      - apply (Hcd _ H). rewrite elem_of_app. right. left.
      - apply (Hdd _ (Hdn _ H)). left. }
    assert (Hde : div_name a b ∉ map fst (cols ++ extra)).
    { rewrite map_app, elem_of_app. intros [H|H].
      - apply (Hcd _ H). rewrite elem_of_app. right. right. left.
      - apply (Hdd _ (Hdn _ H)). right. left. }
    assert (Hxd : x_name a b <> div_name a b).
    { intros Heq. apply Hx. rewrite Heq. left. }
    rewrite (interaction_step_fresh n cols extra a b Hna Hnb Hxe Hde Hxd).
    rewrite (IH (extra ++ pair_features cols (a, b)) (dn ++ pair_names (a, b))).
    + by rewrite <- !app_assoc.
    + intros a' b' H. apply Hnum. by right.
    + intros x. rewrite map_app, !elem_of_app. intros [H|H]; [left; auto|right].
      by apply pair_features_names in H.
    + simpl. rewrite <- !app_assoc. simpl.
      apply NoDup_app. split; [done|]. split.
      * intros x Hxc. specialize (Hcd x Hxc). rewrite !elem_of_app in *. simpl in *.
        rewrite !elem_of_cons in *. tauto.
      * apply NoDup_app. split; [done|]. split.
        -- intros x Hxdn. specialize (Hdd x Hxdn). done.
        -- apply NoDup_cons. split; [done|]. by apply NoDup_cons.
Qed.

Lemma elem_of_flat_map {A B} (f : A -> list B) (l : list A) (y : B) :
  y ∈ flat_map f l <-> exists x, x ∈ l /\ y ∈ f x.
Proof.
  induction l as [|a l IH]; simpl.
  - split; [intros H; inversion H | intros (x & H & _); inversion H].
  - rewrite elem_of_app, IH. split.
    + intros [H|(x & H1 & H2)]; [exists a; split; [left|done] | exists x; split; [by right|done]].
    + intros (x & H1 & H2). apply elem_of_cons in H1 as [->|H1]; eauto.
Qed.

Lemma flat_map_owner {A B} (f : A -> list B) (l : list A) (p p' : A) (x : B) :
  NoDup (flat_map f l) -> p ∈ l -> p' ∈ l -> x ∈ f p -> x ∈ f p' -> p = p'.
Proof.
  induction l as [|y l IH]; simpl; intros Hnd Hp Hp' Hx Hx'; [inversion Hp|].
  apply NoDup_app in Hnd as (Hy & Hdis & Hl).
  apply elem_of_cons in Hp as [->|Hp]; apply elem_of_cons in Hp' as [->|Hp']; auto.
  - exfalso. apply (Hdis x Hx). apply elem_of_flat_map. eauto.
  - exfalso. apply (Hdis x Hx'). apply elem_of_flat_map. eauto.
Qed.

Lemma pair_features_sublist (cols : list (string * Series)) (p : string * string) :
  map fst (pair_features cols p) `sublist_of` pair_names p.
Proof.
  unfold pair_features, pair_names.
  destruct (lookup_column p.1 cols); [|apply sublist_nil_l].
  destruct (lookup_column p.2 cols); [|apply sublist_nil_l].
  destruct (series_mul _ _); [|apply sublist_nil_l].
  simpl. apply sublist_skip.
  destruct (all_nonzero _); [destruct (series_div _ _)|]; simpl;
    [reflexivity | apply sublist_nil_l | apply sublist_nil_l].
Qed.

Lemma generated_names_sublist (cols : list (string * Series)) (ps : list (string * string)) :
  map fst (flat_map (pair_features cols) ps) `sublist_of` flat_map pair_names ps.
Proof.
  induction ps as [|p ps IH]; cbn [flat_map]; [reflexivity|].
  rewrite map_app. apply sublist_app; [apply pair_features_sublist | exact IH].
Qed.

Section Interaction.

(** C4, amended.  When no name that the interaction loop can generate is
    already a column name of the table it receives, and the generated names
    are distinct from each other, then for every pair (i < j) of the first
    at most five numeric columns the result holds the product column
    [<i>_x_<j>], and holds a ratio column [<i>_div_<j>] if and only if the
    second column of the pair contains no zero; the ratio column is then
    the first column divided by the second.  The input table stays as it
    was. *)
Theorem interaction_features_of_fresh_names (w : World) (data : nat) (df : DataFrame) :
  frames w !! data = Some df ->
  NoDup (column_names df ++ flat_map pair_names (pairs (interaction_candidates df))) ->
  exists result w' df',
    _create_interaction_features data w = (Some result, w') /\
    frames w' !! result = Some df' /\
    frames w' !! data = Some df /\
    forall a b, (a, b) ∈ pairs (interaction_candidates df) ->
      exists ca cb product,
        lookup_column a (columns df) = Some ca /\
        lookup_column b (columns df) = Some cb /\
        series_mul ca cb = Some product /\
        lookup_column (x_name a b) (columns df') = Some product /\
        (div_name a b ∈ column_names df' <-> all_nonzero cb = true) /\
        (all_nonzero cb = true ->
         lookup_column (div_name a b) (columns df') = series_div ca cb).
Proof.
  intros Hd Hnd.
  set (ps := pairs (interaction_candidates df)) in *.
  destruct df as [n cols]. unfold column_names in Hnd. simpl in *.
  pose proof Hnd as Hnd0.
  apply NoDup_app in Hnd as (Hcols & Hdis & Hgen).
  assert (Hnum : forall a b, (a, b) ∈ ps -> number_column cols a /\ number_column cols b).
  { intros a b Hab. apply elem_of_pairs in Hab as [Ha Hb].
    split; eapply (candidate_is_number (mkDataFrame n cols)); eauto. }
  pose proof (interaction_steps_fresh n cols ps [] [] Hnum) as Hrun.
  rewrite !app_nil_r in Hrun. simpl in Hrun.
  specialize (Hrun ltac:(intros x H; inversion H) Hnd0).
  set (gen := flat_map (pair_features cols) ps) in *.
  assert (Hgnd : NoDup (map fst gen)).
  { exact (sublist_NoDup _ _ Hgen (generated_names_sublist cols ps)). }
  eexists _, _, _. split; [eapply interaction_run; eauto|].
  simpl. split; [apply lookup_insert_eq|].
  split; [rewrite lookup_insert_ne; [done|by eapply fresh_ne]|].
  intros a b Hab.
  destruct (Hnum a b Hab) as [(ca & Ha & Hna) (cb & Hb & Hnb)].
  destruct (series_mul_number ca cb Hna Hnb) as (product & Hm & _).
  destruct (series_div_number ca cb Hna Hnb) as (ratio & Hq & _).
  assert (Hpf : pair_features cols (a, b)
                = (x_name a b, product) ::
                  (if all_nonzero cb then [(div_name a b, ratio)] else [])).
  { unfold pair_features. simpl. by rewrite Ha, Hb, Hm, Hq. }
  assert (Hxg : x_name a b ∈ flat_map pair_names ps).
  { apply elem_of_flat_map. exists (a, b). split; [done|]. left. }
  assert (Hdg : div_name a b ∈ flat_map pair_names ps).
  { apply elem_of_flat_map. exists (a, b). split; [done|]. right. left. }
  assert (Hxc : x_name a b ∉ map fst cols) by (intros H; by apply (Hdis _ H)).
  assert (Hdc : div_name a b ∉ map fst cols) by (intros H; by apply (Hdis _ H)).
  exists ca, cb, product. unfold column_names. cbn [columns].
  split; [done|]. split; [done|]. split; [done|]. split; [|split; [split|]].
  - rewrite lookup_column_app_r by done.
    apply lookup_column_elem; [done|].
    apply elem_of_flat_map. exists (a, b). split; [done|]. rewrite Hpf. left.
  - rewrite map_app, elem_of_app.
    intros [H|H]; [done|].
    apply list_elem_of_fmap in H as ([d s] & Hds & H). simpl in Hds. subst d.
    apply elem_of_flat_map in H as (p' & Hp' & H).
    assert (p' = (a, b)) as ->.
    { eapply (flat_map_owner pair_names ps); eauto.
      - apply pair_features_names with (cols := cols).
        apply (list_elem_of_fmap_2 fst) in H. exact H.
      - right. left. }
    rewrite Hpf in H. destruct (all_nonzero cb); [done|].
    apply list_elem_of_singleton in H. inversion H as [Heq].
    exfalso.
    assert (Hp : NoDup (pair_names (a, b))).
    { clear -Hgen Hab. induction ps as [|q ps IH]; [inversion Hab|].
      cbn [flat_map] in Hgen. apply NoDup_app in Hgen as (Hq & _ & Hrest).
      apply elem_of_cons in Hab as [<-|Hab]; auto. }
    unfold pair_names in Hp. simpl in Hp. apply NoDup_cons in Hp as [Hp _].
    apply Hp. rewrite <- Heq. left.
  - intros Hnz. rewrite map_app, elem_of_app. right.
    apply (list_elem_of_fmap_2' fst _ (div_name a b, ratio)); [|done].
    apply elem_of_flat_map. exists (a, b). split; [done|]. rewrite Hpf, Hnz. right. left.
  - intros Hnz. rewrite Hq. rewrite lookup_column_app_r by done.
    apply lookup_column_elem; [done|].
    apply elem_of_flat_map. exists (a, b). split; [done|]. rewrite Hpf, Hnz. right. left.
Qed.

End Interaction.

(** ** The statistical loop when the new names are fresh *)

Section Statistical.

Variable fsqrt : Q -> Q.

Lemma as_float_number (c : Series) :
  is_number c = true -> exists xs, as_float c = Some xs.
Proof. destruct c; simpl; try discriminate; eauto. Qed.

Lemma statistical_step_fresh (n : nat) (cols extra : list (string * Series)) (col : string) :
  number_column cols col ->
  mean_name col ∉ map fst (cols ++ extra) ->
  std_name col ∉ map fst (cols ++ extra) ->
  mean_name col <> std_name col ->
  statistical_body fsqrt col (mkDataFrame n (cols ++ extra))
  = Some (mkDataFrame n (cols ++ extra ++ rolling_features fsqrt cols col),
          map fst (rolling_features fsqrt cols col)).
Proof.
  intros (c & Hc & Hnum) Hm Hs Hms.
  destruct (as_float_number c Hnum) as (xs & Hxs).
  assert (Hs' : std_name col ∉ map fst ((cols ++ extra)
                  ++ [(mean_name col, SFloat (rolling window_mean xs))])).
  { rewrite map_app, elem_of_app. simpl. intros [?|H]; [done|].
    apply list_elem_of_singleton in H. congruence. }
  unfold statistical_body, rolling_features, rolling_mean, rolling_std, setitem. simpl.
  rewrite (lookup_column_app_l _ _ _ _ Hc), Hc. simpl. rewrite !Hxs. simpl.
  rewrite !(assign_column_fresh (mean_name col)) by done.
  rewrite <- (app_assoc cols extra).
  rewrite (lookup_column_app_l _ _ _ _ Hc). simpl. rewrite ?Hxs. simpl.
  rewrite (app_assoc cols extra).
  rewrite assign_column_fresh by done.
  by rewrite <- !app_assoc.
Qed.

Lemma rolling_features_names (cols : list (string * Series)) (col : string) :
  forall x, x ∈ map fst (rolling_features fsqrt cols col) -> x ∈ rolling_names col.
Proof.
  intros x. unfold rolling_features, rolling_names.
  destruct (lookup_column col cols) as [c|]; [|intros H; inversion H].
  destruct (rolling_mean c), (rolling_std fsqrt c); simpl; try (intros H; by inversion H). done.
Qed.

Lemma statistical_steps_fresh (n : nat) (cols : list (string * Series)) (cs : list string) :
  forall (extra : list (string * Series)) (dn : list string),
  (forall c, c ∈ cs -> number_column cols c) ->
  (forall x, x ∈ map fst extra -> x ∈ dn) ->
  NoDup (map fst cols ++ dn ++ flat_map rolling_names cs) ->
  run_steps (map (statistical_body fsqrt) cs) (mkDataFrame n (cols ++ extra))
  = Some (mkDataFrame n (cols ++ extra ++ flat_map (rolling_features fsqrt cols) cs),
          flat_map (fun c => map fst (rolling_features fsqrt cols c)) cs).
Proof.
  induction cs as [|col cs IH]; intros extra dn Hnum Hdn Hnd;
    cbn [map run_steps flat_map].
  - by rewrite app_nil_r.
  - pose proof (Hnum col ltac:(left)) as Hcol.
    cbn [flat_map rolling_names app] in Hnd.
    apply NoDup_app in Hnd as (Hc & Hcd & Hnd).
    apply NoDup_app in Hnd as (Hdn1 & Hdd & Hnd).
    apply NoDup_cons in Hnd as (Hx & Hnd).
    apply NoDup_cons in Hnd as (Hd & Hnd).
    assert (Hxe : mean_name col ∉ map fst (cols ++ extra)).
    { rewrite map_app, elem_of_app. intros [H|H].
      - apply (Hcd _ H). rewrite elem_of_app. right. left.
      - apply (Hdd _ (Hdn _ H)). left. }
    assert (Hde : std_name col ∉ map fst (cols ++ extra)).
    { rewrite map_app, elem_of_app. intros [H|H].
      - apply (Hcd _ H). rewrite elem_of_app. right. right. left.
      - apply (Hdd _ (Hdn _ H)). right. left. }
    assert (Hxd : mean_name col <> std_name col).
    { intros Heq. apply Hx. rewrite Heq. left. }
    rewrite (statistical_step_fresh n cols extra col Hcol Hxe Hde Hxd).
    rewrite (IH (extra ++ rolling_features fsqrt cols col) (dn ++ rolling_names col)).
    + by rewrite <- !app_assoc.
    + intros c H. apply Hnum. by right.
    + intros x. rewrite map_app, !elem_of_app. intros [H|H]; [left; auto|right].
      by apply rolling_features_names in H.
    + simpl. rewrite <- !app_assoc. simpl.
      apply NoDup_app. split; [done|]. split.
      * intros x Hxc. specialize (Hcd x Hxc). rewrite !elem_of_app in *. simpl in *.
        rewrite !elem_of_cons in *. tauto.
      * apply NoDup_app. split; [done|]. split.
        -- intros x Hxdn. specialize (Hdd x Hxdn). done.
        -- apply NoDup_cons. split; [done|]. by apply NoDup_cons.
Qed.

Lemma statistical_run (data : nat) (df df' : DataFrame) (names : list string) (w : World) :
  frames w !! data = Some df ->
  (3 <= length (select_number (columns df)))%nat ->
  run_steps (map (statistical_body fsqrt) (take 3 (map fst (select_number (columns df))))) df
    = Some (df', names) ->
  _create_statistical_features fsqrt data w
  = (Some (fresh (dom (frames w))),
     mkWorld (<[fresh (dom (frames w)) := df']> (frames w)) (extend_created names (self w))).
Proof.
  intros Hd Hlen Hrun. unfold _create_statistical_features, mbind, M_bind, bind.
  rewrite (copy_run _ _ _ Hd). unfold deref at 1. cbn [frames].
  rewrite lookup_insert_ne by (by eapply fresh_ne).
  rewrite Hd. rewrite length_map.
  destruct (Nat.leb_spec 3 (length (select_number (columns df)))) as [_|Hlt]; [|lia].
  erewrite for_each_mutate; [|cbn [frames]; apply lookup_insert_eq|exact Hrun].
  cbn [frames self ret]. by rewrite insert_insert_eq.
Qed.

End Statistical.

(** ** Where the rolling statistics are defined *)

Section Rolling.

Variable fsqrt : Q -> Q.

Lemma rolling_lookup (f : list (option Q) -> option Q) (xs : list (option Q)) (i : nat) :
  (i < length xs)%nat -> rolling f xs !! i = Some (f (window xs i)).
Proof.
  intros Hi. unfold rolling.
  change (map ?g ?l) with (g <$> l).
  by rewrite list_lookup_fmap, lookup_seq_lt.
Qed.

Lemma mean_defined (xs : list (option Q)) (i : nat) :
  (i < length xs)%nat ->
  defined_at (rolling window_mean xs) i <-> (1 <= length (observations (window xs i)))%nat.
Proof.
  intros Hi. unfold defined_at. rewrite rolling_lookup by done. unfold window_mean.
  destruct (Nat.leb_spec 1 (length (observations (window xs i)))) as [H|H].
  - split; [done|]. eauto.
  - split; [|lia]. intros (q & [=]).
Qed.

Lemma std_defined (xs : list (option Q)) (i : nat) :
  (i < length xs)%nat ->
  defined_at (rolling (window_std fsqrt) xs) i
  <-> (2 <= length (observations (window xs i)))%nat.
Proof.
  intros Hi. unfold defined_at. rewrite rolling_lookup by done. unfold window_std.
  destruct (Nat.leb_spec 2 (length (observations (window xs i)))) as [H|H].
  - split; [done|]. eauto.
  - split; [|lia]. intros (q & [=]).
Qed.

Lemma observations_all (l : list (option Q)) :
  Forall is_Some l -> length (observations l) = length l.
Proof.
  unfold observations. induction 1 as [|x l [q ->] _ IH]; simpl; [done|]. f_equal. exact IH.
Qed.

(** Without missing cells the window at row [i] holds [min (i + 1) 3]
    observations. *)
Lemma window_observations (xs : list (option Q)) (i : nat) :
  Forall is_Some xs -> (i < length xs)%nat ->
  length (observations (window xs i)) = Nat.min (S i) 3.
Proof.
  intros Hall Hi. unfold window.
  rewrite observations_all by (by apply Forall_drop, Forall_take).
  rewrite length_drop, length_take. lia.
Qed.

Lemma complete_column_defined (xs : list (option Q)) (i : nat) :
  Forall is_Some xs -> (i < length xs)%nat ->
  defined_at (rolling window_mean xs) i /\
  (defined_at (rolling (window_std fsqrt) xs) i <-> (1 <= i)%nat).
Proof.
  intros Hall Hi.
  rewrite mean_defined, std_defined by done.
  rewrite window_observations by done. lia.
Qed.

End Rolling.

Lemma rolling_features_sublist (fsqrt : Q -> Q) (cols : list (string * Series)) (col : string) :
  map fst (rolling_features fsqrt cols col) `sublist_of` rolling_names col.
Proof.
  unfold rolling_features, rolling_names.
  destruct (lookup_column col cols) as [c|]; [|apply sublist_nil_l].
  destruct (rolling_mean c), (rolling_std fsqrt c); simpl;
    [reflexivity | apply sublist_nil_l ..].
Qed.

Lemma rolling_generated_sublist (fsqrt : Q -> Q) (cols : list (string * Series))
    (cs : list string) :
  map fst (flat_map (rolling_features fsqrt cols) cs) `sublist_of` flat_map rolling_names cs.
Proof.
  induction cs as [|c cs IH]; cbn [flat_map]; [reflexivity|].
  rewrite map_app. apply sublist_app; [apply rolling_features_sublist | exact IH].
Qed.

Section RollingFeatures.

Variable fsqrt : Q -> Q.

(** C6, amended.  For a table with at least three numeric columns whose
    names do not collide with the generated ones, the statistical step adds
    for each of the first three numeric columns a trailing rolling mean and
    a trailing rolling standard deviation over a window of three rows.  The
    mean is defined at a row exactly when the window holds one observation,
    the standard deviation exactly when it holds two: in a column without
    missing values the mean is defined at every row and the standard
    deviation at every row but the first, where it is missing. *)
Theorem rolling_features_of_fresh_names (w : World) (data : nat) (df : DataFrame) :
  frames w !! data = Some df ->
  (3 <= length (select_number (columns df)))%nat ->
  NoDup (column_names df
         ++ flat_map rolling_names (take 3 (map fst (select_number (columns df))))) ->
  exists result w' df',
    _create_statistical_features fsqrt data w = (Some result, w') /\
    frames w' !! result = Some df' /\
    forall col, col ∈ take 3 (map fst (select_number (columns df))) ->
      exists c xs,
        lookup_column col (columns df) = Some c /\
        as_float c = Some xs /\
        lookup_column (mean_name col) (columns df')
          = Some (SFloat (rolling window_mean xs)) /\
        lookup_column (std_name col) (columns df')
          = Some (SFloat (rolling (window_std fsqrt) xs)) /\
        (forall i, (i < length xs)%nat ->
           (defined_at (rolling window_mean xs) i
            <-> (1 <= length (observations (window xs i)))%nat) /\
           (defined_at (rolling (window_std fsqrt) xs) i
            <-> (2 <= length (observations (window xs i)))%nat)) /\
        (Forall is_Some xs ->
         forall i, (i < length xs)%nat ->
           defined_at (rolling window_mean xs) i /\
           (defined_at (rolling (window_std fsqrt) xs) i <-> (1 <= i)%nat)).
Proof.
  intros Hd Hlen Hnd.
  set (cs := take 3 (map fst (select_number (columns df)))) in *.
  destruct df as [n cols]. unfold column_names in Hnd. simpl in *.
  pose proof Hnd as Hnd0.
  apply NoDup_app in Hnd as (Hcols & Hdis & Hgen).
  assert (Hnum : forall c, c ∈ cs -> number_column cols c).
  { intros c Hc. apply take_elem in Hc.
    apply list_elem_of_fmap in Hc as ([c0 s] & -> & Hs).
    apply select_number_elem in Hs as [Hs Hn]. exists s. split; [|done].
    by apply lookup_column_elem. }
  pose proof (statistical_steps_fresh fsqrt n cols cs [] [] Hnum) as Hrun.
  rewrite !app_nil_r in Hrun. simpl in Hrun.
  specialize (Hrun ltac:(intros x H; inversion H) Hnd0).
  set (gen := flat_map (rolling_features fsqrt cols) cs) in *.
  assert (Hgnd : NoDup (map fst gen)).
  { exact (sublist_NoDup _ _ Hgen (rolling_generated_sublist fsqrt cols cs)). }
  eexists _, _, _. split; [eapply statistical_run; eauto|].
  cbn [frames]. split; [apply lookup_insert_eq|].
  intros col Hcol.
  destruct (Hnum col Hcol) as (c & Hc & Hn).
  destruct (as_float_number c Hn) as (xs & Hxs).
  assert (Hrf : rolling_features fsqrt cols col
                = [(mean_name col, SFloat (rolling window_mean xs));
                   (std_name col, SFloat (rolling (window_std fsqrt) xs))]).
  { unfold rolling_features, rolling_mean, rolling_std. by rewrite Hc, Hxs. }
  assert (Hmg : mean_name col ∈ flat_map rolling_names cs).
  { apply elem_of_flat_map. exists col. split; [done|]. left. }
  assert (Hsg : std_name col ∈ flat_map rolling_names cs).
  { apply elem_of_flat_map. exists col. split; [done|]. right. left. }
  assert (Hmc : mean_name col ∉ map fst cols) by (intros H; by apply (Hdis _ H)).
  assert (Hsc : std_name col ∉ map fst cols) by (intros H; by apply (Hdis _ H)).
  exists c, xs. cbn [columns].
  split; [done|]. split; [done|]. split; [|split; [|split]].
  - rewrite lookup_column_app_r by done.
    apply lookup_column_elem; [done|].
    apply elem_of_flat_map. exists col. split; [done|]. rewrite Hrf. left.
  - rewrite lookup_column_app_r by done.
    apply lookup_column_elem; [done|].
    apply elem_of_flat_map. exists col. split; [done|]. rewrite Hrf. right. left.
  - intros i Hi. split; [by apply mean_defined | by apply std_defined].
  - intros Hall i Hi. by apply complete_column_defined.
Qed.

End RollingFeatures.

(** ** The mask of the best scores *)

Lemma insert_by_perm (score : nat -> Q) (i : nat) (l : list nat) :
  insert_by score i l ≡ₚ i :: l.
Proof.
  induction l as [|j l IH]; simpl; [done|].
  destruct (Qle_bool _ _); [done|]. rewrite IH. apply Permutation_swap.
Qed.

Lemma argsort_perm (scores : list Q) : argsort scores ≡ₚ seq 0 (length scores).
Proof.
  unfold argsort. generalize (fun i => nth i scores 0%Q) as score.
  intros score. induction (seq 0 (length scores)) as [|i l IH]; simpl; [done|].
  rewrite insert_by_perm. by rewrite IH.
Qed.

Lemma by_mask_map {A B} (f : A -> B) (l : list A) (mask : list bool) :
  by_mask (map f l) mask = map f (by_mask l mask).
Proof.
  revert mask. induction l as [|x l IH]; intros [|b mask]; simpl; try done.
  destruct b; simpl; by rewrite IH.
Qed.

Lemma by_mask_sublist {A} (l : list A) (mask : list bool) :
  by_mask l mask `sublist_of` l.
Proof.
  revert mask. induction l as [|x l IH]; intros [|b mask]; simpl;
    try apply sublist_nil_l.
  destruct b; [by apply sublist_skip | by apply sublist_cons].
Qed.

Lemma by_mask_false {A} (l : list A) (scores : list Q) :
  by_mask l (map (fun _ => false) scores) = [].
Proof.
  revert l. induction scores as [|s scores IH]; intros [|x l]; simpl; auto.
Qed.

Lemma by_mask_length {A} (P : nat -> Prop) `{forall i, Decision (P i)}
    (l : list A) (indices : list nat) :
  length l = length indices ->
  length (by_mask l (map (fun i => bool_decide (P i)) indices))
  = length (filter P indices).
Proof.
  revert l. induction indices as [|i indices IH]; intros [|x l] Hlen; simpl in *;
    try done.
  rewrite filter_cons. destruct (decide (P i)) as [Hp|Hp].
  - rewrite bool_decide_true by done. simpl. f_equal. apply IH. lia.
  - rewrite bool_decide_false by done. apply IH. lia.
Qed.

(** The mask picks exactly [k] entries. *)
Lemma get_support_count {A} (l : list A) (scores : list Q) (k : nat) :
  length l = length scores -> (k <= length scores)%nat ->
  length (by_mask l (get_support scores k)) = k.
Proof.
  intros Hlen Hk. unfold get_support. destruct k as [|k']; [by rewrite by_mask_false|].
  set (k := S k') in *.
  set (top := drop (length scores - k) (argsort scores)).
  assert (Hperm := argsort_perm scores).
  assert (Hnd : NoDup top).
  { apply (sublist_NoDup top (argsort scores)); [|apply sublist_drop].
    rewrite Hperm. apply NoDup_seq. }
  assert (Hsub : forall i, i ∈ top -> i ∈ seq 0 (length scores)).
  { intros i Hi. rewrite <- Hperm. eapply elem_of_sublist; [exact Hi|apply sublist_drop]. }
  rewrite (by_mask_length (fun i => i ∈ top)) by (by rewrite length_seq).
  assert (Hp : filter (fun i => i ∈ top) (seq 0 (length scores)) ≡ₚ top).
  { apply NoDup_Permutation; [apply NoDup_filter, NoDup_seq | done |].
    intros i. rewrite list_elem_of_filter.
    split; [by intros [? _] | intros Hi; split; [done | by apply Hsub]]. }
  rewrite Hp. unfold top. rewrite length_drop.
  rewrite (Permutation_length Hperm), length_seq. lia.
Qed.

(** ** Feature selection *)

Lemma all_some_map_Some {A B} (f : A -> option B) (g : A -> B) (l : list A) :
  (forall x, x ∈ l -> f x = Some (g x)) -> all_some (map f l) = Some (map g l).
Proof.
  induction l as [|x l IH]; intros H; simpl; [done|].
  rewrite (H x) by left. rewrite IH; [done|]. intros y Hy. apply H. by right.
Qed.

Lemma select_columns_sub (chosen cols : list (string * Series)) :
  NoDup (map fst cols) -> (forall c, c ∈ chosen -> c ∈ cols) ->
  select_columns (map fst chosen) cols = Some chosen.
Proof.
  intros Hnd Hsub. unfold select_columns. rewrite map_map.
  rewrite (all_some_map_Some _ id); [by rewrite map_id|].
  intros [n s] Hc. simpl. by rewrite (lookup_column_elem n cols s Hnd (Hsub _ Hc)).
Qed.

Lemma drop_column_names (t : string) (cols : list (string * Series)) :
  NoDup (map fst cols) ->
  NoDup (map fst (filter (fun c => c.1 <> t) cols)) /\
  t ∉ map fst (filter (fun c => c.1 <> t) cols).
Proof.
  intros Hnd. split.
  - eapply sublist_NoDup; [exact Hnd|]. apply (fmap_sublist fst), sublist_filter.
  - intros H. apply list_elem_of_fmap in H as ([n s] & -> & H).
    apply list_elem_of_filter in H as [H _]. by apply H.
Qed.

Section Selection.

Variable check_X_y : list Series -> Series -> bool.
Variable mutual_info_classif : nat -> Series -> Series -> Q.

(** C5.  With the target column present: when there is no numeric
    predictor column, [_select_features] returns the very table it was given
    and changes nothing; otherwise, when the selector accepts its input, it
    selects at most [min(max_features, numeric_predictor_count)] columns and
    the returned table consists of exactly the selected numeric predictor
    columns, in table order, followed by the target column. *)
Theorem select_features_result (w : World) (data : nat) (df : DataFrame)
    (target_column : string) (y : Series) :
  frames w !! data = Some df ->
  NoDup (column_names df) ->
  lookup_column target_column (columns df) = Some y ->
  let X_numeric :=
    select_number (filter (fun c => c.1 <> target_column) (columns df)) in
  let out := _select_features check_X_y mutual_info_classif data target_column w in
  (length X_numeric = O -> out = (Some data, w)) /\
  ((0 < length X_numeric)%nat ->
   0 <= max_features (self w) ->
   check_X_y (map snd X_numeric) y = true ->
   exists mask result,
     out.1 = Some result /\
     result <> data /\
     frames out.2 !! data = Some df /\
     length mask = length X_numeric /\
     selected_features (self out.2) = by_mask (map fst X_numeric) mask /\
     (length (selected_features (self out.2))
      <= Nat.min (Z.to_nat (max_features (self w))) (length X_numeric))%nat /\
     frames out.2 !! result
     = Some (mkDataFrame (index_len df)
                         (by_mask X_numeric mask ++ [(target_column, y)]))).
Proof.
  intros Hd Hnd Hy X_numeric out.
  set (X := filter (fun c => c.1 <> target_column) (columns df)) in *.
  assert (Hout : out = _select_features check_X_y mutual_info_classif data target_column w)
    by done.
  unfold _select_features, mbind, M_bind, bind, deref in Hout.
  rewrite Hd in Hout. unfold drop_column in Hout. rewrite Hy in Hout.
  cbn [lift ret] in Hout. fold X in Hout. fold X_numeric in Hout.
  split.
  - intros Hzero. rewrite Hout, Hzero. done.
  - intros Hpos Hmax Hcheck.
    destruct (Nat.eqb_spec (length X_numeric) 0) as [|_]; [lia|].
    unfold get_max_features in Hout. unfold fit in Hout.
    set (k := Z.min (max_features (self w)) (Z.of_nat (length X_numeric))) in *.
    assert (Hk : 0 <= k) by lia.
    destruct (Z.ltb_spec k 0) as [|_]; [lia|].
    rewrite Hcheck in Hout. cbn [lift ret] in Hout.
    set (scores := imap (fun i c => mutual_info_classif i c.2 y) X_numeric) in *.
    set (mask := get_support scores (Z.to_nat k)) in *.
    assert (Hscores : length scores = length X_numeric) by apply length_imap.
    destruct (drop_column_names target_column (columns df) Hnd) as [HXnd HXt].
    fold X in HXnd, HXt.
    assert (Hchosen : forall c, c ∈ by_mask X_numeric mask -> c ∈ X).
    { intros c Hc.
      assert (c ∈ X_numeric) as Hx
        by (eapply elem_of_sublist; [exact Hc|apply by_mask_sublist]).
      by apply select_number_elem in Hx as [Hx _]. }
    unfold set_selected, store_importance in Hout. cbn [frames self] in Hout.
    rewrite by_mask_map in Hout.
    rewrite (select_columns_sub _ X HXnd Hchosen) in Hout.
    cbn [lift ret] in Hout. unfold alloc, mutate in Hout. cbn [frames self] in Hout.
    rewrite lookup_insert_eq in Hout. cbn [frames self] in Hout.
    rewrite insert_insert_eq in Hout.
    unfold setitem in Hout. cbn [index_len columns] in Hout.
    rewrite assign_column_fresh in Hout.
    2:{ intros H. apply list_elem_of_fmap in H as (c & -> & Hc).
        apply HXt. apply list_elem_of_fmap. exists c. split; [done|]. by apply Hchosen. }
    exists mask, (fresh (dom (frames w))). rewrite Hout. unfold ret, extend_created.
    cbn [fst snd frames self selected_features].
    split; [done|]. split; [by eapply fresh_ne|].
    split; [rewrite lookup_insert_ne; [done|by eapply fresh_ne]|].
    split.
    { unfold mask, get_support. destruct (Z.to_nat k).
      - by rewrite length_map.
      - by rewrite length_map, length_seq. }
    split; [by rewrite by_mask_map|].
    split; [|apply lookup_insert_eq].
    rewrite length_map. unfold mask. rewrite get_support_count by lia. lia.
Qed.

End Selection.

(** ** Two runs that differ in the names recorded before *)

Section Sim.
Context (pre : list string).

Lemma sim_ret {A} (a : A) : sim pre (mret a).
Proof. by intros w1 w2 H. Qed.

Lemma sim_raise {A} : sim pre (@raise A).
Proof. by intros w1 w2 H. Qed.

Lemma sim_bind {A B} (m : M A) (k : A -> M B) :
  sim pre m -> (forall a, sim pre (k a)) -> sim pre (m ≫= k).
Proof.
  intros Hm Hk w1 w2 H. unfold mbind, M_bind, bind.
  destruct (Hm w1 w2 H) as [Hv Hw].
  destruct (m w1) as [[a|] w1'], (m w2) as [[a'|] w2']; simpl in *; try done.
  inversion Hv; subst. by apply Hk.
Qed.

Lemma sim_lift {A} (o : option A) : sim pre (lift o).
Proof. destruct o; [apply sim_ret | apply sim_raise]. Qed.

Lemma sim_deref (r : nat) : sim pre (deref r).
Proof.
  intros w1 w2 H. unfold deref. simpl. split; [|done]. destruct H as [Hf _]. by rewrite Hf.
Qed.

Lemma sim_alloc (df : DataFrame) : sim pre (alloc df).
Proof.
  intros w1 w2 (Hf & H). unfold alloc. simpl. rewrite Hf. split; [done|].
  by split.
Qed.

Lemma sim_copy (r : nat) : sim pre (copy r).
Proof. unfold copy. apply sim_bind; [apply sim_deref|]. intros df. apply sim_alloc. Qed.

Lemma sim_mutate (r : nat) (f : step) : sim pre (mutate r f).
Proof.
  intros w1 w2 H. pose proof H as (Hf & Hm & Hs & Hi & Hc). unfold mutate. rewrite Hf.
  destruct (frames w2 !! r) as [df|]; [|by split].
  destruct (f df) as [[df' names]|]; [|by split].
  simpl. split; [done|]. unfold rel. simpl. rewrite Hc, app_assoc. by repeat split.
Qed.

Lemma sim_for_each {A} (l : list A) (body : A -> M unit) :
  (forall x, sim pre (body x)) -> sim pre (for_each l body).
Proof.
  intros Hb. induction l as [|x l IH]; simpl; [apply sim_ret|].
  apply sim_bind; [apply Hb|]. intros _. apply IH.
Qed.

Lemma sim_get_max_features : sim pre get_max_features.
Proof.
  intros w1 w2 H. unfold get_max_features. simpl. split; [|done].
  destruct H as (_ & Hm & _). by rewrite Hm.
Qed.

Lemma sim_set_selected (names : list string) : sim pre (set_selected names).
Proof.
  intros w1 w2 (Hf & Hm & Hs & Hi & Hc). unfold set_selected. simpl. split; [done|].
  unfold rel. simpl. by repeat split.
Qed.

Lemma sim_store_importance (scored : list (string * Q)) : sim pre (store_importance scored).
Proof.
  intros w1 w2 (Hf & Hm & Hs & Hi & Hc). unfold store_importance. simpl. split; [done|].
  unfold rel. simpl. rewrite Hi. by repeat split.
Qed.

End Sim.

Section EngineerSim.

Variable parse_datetimes : list (option string) -> option (list (option Z)).
Variables year month day dayofweek quarter : Z -> Z.
Variable fsqrt : Q -> Q.
Variable check_X_y : list Series -> Series -> bool.
Variable mutual_info_classif : nat -> Series -> Series -> Q.

Context (pre : list string).

Lemma sim_create (data : nat) (target : option string) :
  sim pre (create_features parse_datetimes year month day dayofweek quarter
             fsqrt check_X_y mutual_info_classif data target).
Proof.
  unfold create_features.
  apply sim_bind; [apply sim_copy|]. intros r0.
  apply sim_bind.
  { unfold _create_temporal_features.
    apply sim_bind; [apply sim_copy|]. intros r.
    apply sim_bind; [apply sim_deref|]. intros df.
    apply sim_bind; [apply sim_for_each; intros; apply sim_mutate|].
    intros _. apply sim_ret. }
  intros r1. apply sim_bind.
  { unfold _create_interaction_features.
    apply sim_bind; [apply sim_copy|]. intros r.
    apply sim_bind; [apply sim_deref|]. intros df.
    apply sim_bind; [apply sim_for_each; intros; apply sim_mutate|].
    intros _. apply sim_ret. }
  intros r2. apply sim_bind.
  { unfold _create_statistical_features.
    apply sim_bind; [apply sim_copy|]. intros r.
    apply sim_bind; [apply sim_deref|]. intros df.
    apply sim_bind.
    - destruct (3 <=? _)%nat; [|apply sim_ret].
      apply sim_for_each; intros; apply sim_mutate.
    - intros _. apply sim_ret. }
  intros r3. apply sim_bind; [apply sim_deref|]. intros df.
  destruct (target_given target df) as [t|]; [|apply sim_ret].
  unfold _select_features.
  apply sim_bind; [apply sim_deref|]. intros df'.
  apply sim_bind; [apply sim_lift|]. intros X.
  apply sim_bind; [apply sim_lift|]. intros y.
  simpl. destruct (_ =? 0)%nat; [apply sim_ret|].
  apply sim_bind; [apply sim_get_max_features|]. intros limit.
  apply sim_bind; [apply sim_lift|]. intros scores.
  apply sim_bind; [apply sim_set_selected|]. intros _.
  apply sim_bind; [apply sim_store_importance|]. intros _.
  apply sim_bind; [apply sim_lift|]. intros chosen.
  apply sim_bind; [apply sim_alloc|]. intros r.
  apply sim_bind; [apply sim_mutate|]. intros _. apply sim_ret.
Qed.

End EngineerSim.

(** ** What a call leaves untouched *)

Section Safe.
Context (D : gset nat) (I : FeatureEngineer -> Prop).

Lemma safe_ret {A} (a : A) (Q : A -> Prop) : Q a -> safe D I (mret a) Q.
Proof. intros Hq w HD Hi. simpl. repeat split; auto. intros a' [= <-]. done. Qed.

Lemma safe_raise {A} (Q : A -> Prop) : safe D I raise Q.
Proof. intros w HD Hi. simpl. repeat split; auto. intros a' [=]. Qed.

Lemma safe_bind {A B} (m : M A) (k : A -> M B) (P : A -> Prop) (Q : B -> Prop) :
  safe D I m P -> (forall a, P a -> safe D I (k a) Q) -> safe D I (m ≫= k) Q.
Proof.
  intros Hm Hk w HD Hi. unfold mbind, M_bind, bind.
  destruct (Hm w HD Hi) as (HD' & Hfr & Hi' & Hp).
  destruct (m w) as [[a|] w'] eqn:E; simpl in *.
  - destruct (Hk a (Hp a eq_refl) w' HD' Hi') as (HD'' & Hfr' & Hi'' & Hq).
    repeat split; auto. intros r Hr. rewrite Hfr' by done. by apply Hfr.
  - repeat split; auto. intros b [=].
Qed.

Lemma safe_weaken {A} (m : M A) (P Q : A -> Prop) :
  safe D I m P -> (forall a, P a -> Q a) -> safe D I m Q.
Proof.
  intros Hm Hpq w HD Hi. destruct (Hm w HD Hi) as (? & ? & ? & ?). repeat split; auto.
Qed.

Lemma safe_lift {A} (o : option A) (Q : A -> Prop) :
  (forall a, o = Some a -> Q a) -> safe D I (lift o) Q.
Proof. intros H. destruct o; [apply safe_ret; auto | apply safe_raise]. Qed.

Lemma safe_deref (r : nat) : safe D I (deref r) (fun _ => True).
Proof. intros w HD Hi. simpl. repeat split; auto. Qed.

Lemma safe_alloc (df : DataFrame) : safe D I (alloc df) (fun r => r ∉ D).
Proof.
  intros w HD Hi. simpl.
  assert (Hfresh : fresh (dom (frames w)) ∉ dom (frames w)) by apply is_fresh.
  repeat split; auto.
  - rewrite dom_insert_L. set_solver.
  - intros r Hr. apply lookup_insert_ne. set_solver.
  - intros a [= <-]. set_solver.
Qed.

Lemma safe_copy (r : nat) : safe D I (copy r) (fun r' => r' ∉ D).
Proof.
  unfold copy. eapply safe_bind; [apply safe_deref|]. intros df _. apply safe_alloc.
Qed.

Lemma safe_mutate (r : nat) (f : step) :
  stable I -> r ∉ D -> safe D I (mutate r f) (fun _ => True).
Proof.
  intros HI Hr w HD Hi. unfold mutate.
  destruct (frames w !! r) as [df|]; simpl; [|repeat split; auto].
  destruct (f df) as [[df' names]|]; simpl; [|repeat split; auto].
  repeat split; auto.
  - rewrite dom_insert_L. set_solver.
  - intros r0 Hr0. apply lookup_insert_ne. set_solver.
Qed.

Lemma safe_for_each {A} (l : list A) (body : A -> M unit) :
  (forall x, safe D I (body x) (fun _ => True)) ->
  safe D I (for_each l body) (fun _ => True).
Proof.
  intros Hb. induction l as [|x l IH]; simpl.
  - by apply safe_ret.
  - eapply safe_bind; [apply Hb|]. intros _ _. apply IH.
Qed.

End Safe.

Section EngineerFrame.

Variable parse_datetimes : list (option string) -> option (list (option Z)).
Variables year month day dayofweek quarter : Z -> Z.
Variable fsqrt : Q -> Q.
Variable check_X_y : list Series -> Series -> bool.
Variable mutual_info_classif : nat -> Series -> Series -> Q.

Local Abbreviation temporal := (_create_temporal_features parse_datetimes year month day dayofweek quarter).
Local Abbreviation statistical := (_create_statistical_features fsqrt).
Local Abbreviation select := (_select_features check_X_y mutual_info_classif).
Local Abbreviation create := (create_features parse_datetimes year month day dayofweek quarter
                      fsqrt check_X_y mutual_info_classif).

Context (D : gset nat) (I : FeatureEngineer -> Prop) (HI : stable I).

Lemma safe_temporal (data : nat) : safe D I (temporal data) (fun r => r ∉ D).
Proof.
  unfold _create_temporal_features.
  eapply safe_bind; [apply safe_copy|]. intros r Hr.
  eapply safe_bind; [apply safe_deref|]. intros df _.
  eapply safe_bind; [apply safe_for_each; intros; by apply safe_mutate|].
  intros _ _. by apply safe_ret.
Qed.

Lemma safe_interaction (data : nat) :
  safe D I (_create_interaction_features data) (fun r => r ∉ D).
Proof.
  unfold _create_interaction_features.
  eapply safe_bind; [apply safe_copy|]. intros r Hr.
  eapply safe_bind; [apply safe_deref|]. intros df _.
  eapply safe_bind; [apply safe_for_each; intros; by apply safe_mutate|].
  intros _ _. by apply safe_ret.
Qed.

Lemma safe_statistical (data : nat) : safe D I (statistical data) (fun r => r ∉ D).
Proof.
  unfold _create_statistical_features.
  eapply safe_bind; [apply safe_copy|]. intros r Hr.
  eapply safe_bind; [apply safe_deref|]. intros df _.
  eapply safe_bind with (P := fun _ => True).
  - destruct (3 <=? _)%nat; [|by apply safe_ret].
    apply safe_for_each; intros; by apply safe_mutate.
  - intros _ _. by apply safe_ret.
Qed.

End EngineerFrame.

Section CallFrame.

Variable parse_datetimes : list (option string) -> option (list (option Z)).
Variables year month day dayofweek quarter : Z -> Z.
Variable fsqrt : Q -> Q.
Variable check_X_y : list Series -> Series -> bool.
Variable mutual_info_classif : nat -> Series -> Series -> Q.

Local Abbreviation temporal := (_create_temporal_features parse_datetimes year month day dayofweek quarter).
Local Abbreviation statistical := (_create_statistical_features fsqrt).
Local Abbreviation select := (_select_features check_X_y mutual_info_classif).
Local Abbreviation create := (create_features parse_datetimes year month day dayofweek quarter
                      fsqrt check_X_y mutual_info_classif).

Context (D : gset nat).

(** Feature selection writes to the engineer; only the frames are framed. *)
Lemma safe_select (data : nat) (t : string) :
  data ∉ D -> safe D (fun _ => True) (select data t) (fun r => r ∉ D).
Proof.
  intros Hd. unfold _select_features.
  eapply safe_bind; [apply safe_deref|]. intros df _.
  eapply safe_bind with (P := fun _ => True); [by apply safe_lift|]. intros X _.
  eapply safe_bind with (P := fun _ => True); [by apply safe_lift|]. intros y _.
  simpl. destruct (_ =? 0)%nat; [by apply safe_ret|].
  eapply safe_bind with (P := fun _ => True); [by intros w ? ?|]. intros limit _.
  eapply safe_bind with (P := fun _ => True); [by apply safe_lift|]. intros scores _.
  eapply safe_bind with (P := fun _ => True); [by intros w ? ?|]. intros _ _.
  eapply safe_bind with (P := fun _ => True); [by intros w ? ?|]. intros _ _.
  eapply safe_bind with (P := fun _ => True); [by apply safe_lift|]. intros chosen _.
  eapply safe_bind; [apply safe_alloc|]. intros r Hr.
  eapply safe_bind; [by apply safe_mutate|]. intros _ _. by apply safe_ret.
Qed.

Lemma safe_create_frames (data : nat) (target : option string) :
  safe D (fun _ => True) (create data target) (fun r => r ∉ D).
Proof.
  assert (Hst : stable (fun _ => True)) by done.
  unfold create_features.
  eapply safe_bind; [apply safe_copy|]. intros r0 _.
  eapply safe_bind; [by apply safe_temporal|]. intros r1 _.
  eapply safe_bind; [by apply safe_interaction|]. intros r2 _.
  eapply safe_bind; [by apply safe_statistical|]. intros r3 Hr3.
  eapply safe_bind; [apply safe_deref|]. intros df _.
  destruct (target_given target df); [by apply safe_select | by apply safe_ret].
Qed.

(** Without a target the call keeps every property of the engineer that the
    recording of created names keeps. *)
Lemma safe_create_no_target (I : FeatureEngineer -> Prop) (data : nat) :
  stable I -> safe D I (create data None) (fun r => r ∉ D).
Proof.
  intros HI. unfold create_features.
  eapply safe_bind; [apply safe_copy|]. intros r0 _.
  eapply safe_bind; [by apply safe_temporal|]. intros r1 _.
  eapply safe_bind; [by apply safe_interaction|]. intros r2 _.
  eapply safe_bind; [by apply safe_statistical|]. intros r3 Hr3.
  eapply safe_bind; [apply safe_deref|]. intros df _.
  simpl. by apply safe_ret.
Qed.

End CallFrame.

Section Calls.
Variable parse_datetimes : list (option string) -> option (list (option Z)).
Variables year month day dayofweek quarter : Z -> Z.
Variable fsqrt : Q -> Q.
Variable check_X_y : list Series -> Series -> bool.
Variable mutual_info_classif : nat -> Series -> Series -> Q.

Local Abbreviation create :=
  (create_features parse_datetimes year month day dayofweek quarter
     fsqrt check_X_y mutual_info_classif).

(** Every frame that exists before the call is the same after it, whether
    the call returns or raises, and the table returned is a new one. *)
Lemma create_features_frame (w : World) (data : nat) (target_column : option string) :
  (forall r, r ∈ dom (frames w) ->
     frames (create data target_column w).2 !! r = frames w !! r) /\
  (forall result, (create data target_column w).1 = Some result ->
     result ∉ dom (frames w)).
Proof.
  destruct (safe_create_frames parse_datetimes year month day dayofweek quarter
              fsqrt check_X_y mutual_info_classif (dom (frames w)) data target_column w)
    as (_ & Hfr & _ & Hres); auto.
Qed.

(** C9.  [create_features] never changes the table it is given: after the
    call, with or without a target column and whether the call returns or
    raises, the input table has the columns and cells it had before, and the
    table returned is another object. *)
Theorem create_features_leaves_input_untouched
    (w : World) (data : nat) (target_column : option string) (df : DataFrame) :
  frames w !! data = Some df ->
  frames (create data target_column w).2 !! data = Some df /\
  (forall result, (create data target_column w).1 = Some result -> result <> data).
Proof.
  intros Hd.
  assert (Hdom : data ∈ dom (frames w)) by (apply elem_of_dom; eauto).
  destruct (create_features_frame w data target_column) as [Hfr Hres].
  split; [by rewrite Hfr|].
  intros result Hr ->. by apply (Hres _ Hr).
Qed.

Local Abbreviation select := (_select_features check_X_y mutual_info_classif).

(** A call with a target is the call without one, followed by the test of
    the target and by feature selection. *)
Lemma create_split (w : World) (data : nat) (target_column : option string) :
  create data target_column w =
  match create data None w with
  | (Some engineered_data, w') =>
      match frames w' !! engineered_data with
      | Some df =>
          match target_given target_column df with
          | Some t => select engineered_data t w'
          | None => (Some engineered_data, w')
          end
      | None => (None, w')
      end
  | (None, w') => (None, w')
  end.
Proof.
  unfold create_features, mbind, M_bind, bind.
  destruct (copy data w) as [[r0|] w0]; [|done].
  destruct (_create_temporal_features _ _ _ _ _ _ r0 w0) as [[r1|] w1]; [|done].
  destruct (_create_interaction_features r1 w1) as [[r2|] w2]; [|done].
  destruct (_create_statistical_features _ r2 w2) as [[r3|] w3]; [|done].
  unfold deref. cbn [target_given mret M_ret ret].
  destruct (frames w3 !! r3) as [df|] eqn:Edf; [|done].
  unfold ret at 2. rewrite Edf. by destruct (target_given target_column df).
Qed.

Lemma target_given_Some (target_column : option string) (df : DataFrame) (t : string) :
  target_given target_column df = Some t ->
  target_column = Some t /\ t <> EmptyString /\ t ∈ column_names df.
Proof.
  unfold target_given. destruct target_column as [t'|]; [|discriminate].
  destruct (String.eqb_spec t' EmptyString) as [->|Hne]; [discriminate|].
  cbn [negb andb]. case_bool_decide; [|discriminate]. by intros [= <-].
Qed.

(** Feature selection writes the list of selected names only after the
    target was found among the columns, a numeric predictor was left and the
    selector has accepted its input. *)
Lemma select_writes_selected (w : World) (data : nat) (t : string) :
  selected_features (self (select data t w).2) <> selected_features (self w) ->
  exists df y,
    frames w !! data = Some df /\
    lookup_column t (columns df) = Some y /\
    let X_numeric := select_number (filter (fun c => fst c <> t) (columns df)) in
    length X_numeric <> O /\
    is_Some (fit check_X_y mutual_info_classif X_numeric y
               (Z.min (max_features (self w)) (Z.of_nat (length X_numeric)))).
Proof.
  unfold _select_features, mbind, M_bind, bind, deref, drop_column.
  destruct (frames w !! data) as [df|]; [|done].
  destruct (lookup_column t (columns df)) as [y|] eqn:Ey; [|done].
  cbn [lift ret].
  destruct (length _ =? 0)%nat eqn:En; [done|].
  unfold get_max_features at 1.
  destruct (fit _ _ _ _ _) as [scores|] eqn:Ef; [|done].
  intros _. exists df, y. split; [done|]. split; [done|]. cbn zeta.
  split; [by apply Nat.eqb_neq|]. by rewrite Ef.
Qed.

(** C2, amended.  A call of [create_features] appends the names it creates
    to the list that earlier calls left: the list after the call is the list
    before it followed by what the same call records on an instance whose
    list is empty, and the value returned is the same.  A call without a
    target column leaves the list of selected names as it was; and whenever
    a call changes that list, it has run the feature selection: its target
    is a name, not the empty one, of a column of the engineered table (the
    table that the call without a target returns), that table has a numeric
    predictor, and the selector has accepted its input. *)
Theorem created_features_accumulate
    (w : World) (data : nat) (target_column : option string) :
  (create data target_column w).1
    = (create data target_column (forget_created w)).1 /\
  created_features (self (create data target_column w).2)
    = created_features (self w)
      ++ created_features (self (create data target_column (forget_created w)).2) /\
  selected_features (self (create data None w).2) = selected_features (self w) /\
  (selected_features (self (create data target_column w).2) <> selected_features (self w) ->
   exists t engineered_data w' df y,
     target_column = Some t /\ t <> EmptyString /\
     create data None w = (Some engineered_data, w') /\
     frames w' !! engineered_data = Some df /\
     lookup_column t (columns df) = Some y /\
     let X_numeric := select_number (filter (fun c => fst c <> t) (columns df)) in
     length X_numeric <> O /\
     is_Some (fit check_X_y mutual_info_classif X_numeric y
                (Z.min (max_features (self w)) (Z.of_nat (length X_numeric))))).
Proof.
  assert (Hrel : rel (created_features (self w)) w (forget_created w)).
  { unfold rel, forget_created. simpl. by rewrite app_nil_r. }
  destruct (sim_create parse_datetimes year month day dayofweek quarter
              fsqrt check_X_y mutual_info_classif (created_features (self w))
              data target_column w (forget_created w) Hrel)
    as (Hval & _ & _ & _ & _ & Hcreated).
  split; [done|]. split; [done|].
  destruct (safe_create_no_target parse_datetimes year month day dayofweek quarter
              fsqrt check_X_y mutual_info_classif ∅
              (fun e => selected_features e = selected_features (self w) /\
                        max_features e = max_features (self w)) data
              ltac:(by intros names e) w)
    as (_ & _ & [Hsel Hmax] & _); [set_solver|done|].
  split; [exact Hsel|].
  rewrite create_split.
  destruct (create data None w) as [[engineered_data|] w'] eqn:Ecall;
    cbn [fst snd] in *; [|done].
  destruct (frames w' !! engineered_data) as [df|] eqn:Edf; cbn [snd]; [|done].
  destruct (target_given target_column df) as [t|] eqn:Et; cbn [snd]; [|done].
  apply target_given_Some in Et as (-> & Hne & _).
  rewrite <- Hsel. intros Hch.
  destruct (select_writes_selected w' engineered_data t Hch) as (df' & y & Hdf & Hy & Hrun).
  rewrite Edf in Hdf. injection Hdf as <-. rewrite Hmax in Hrun.
  exists t, engineered_data, w', df, y. done.
Qed.

End Calls.

(** ** The examples *)

Import Examples.

(** C2 (counterexample).  Two calls on one instance: the list after the
    second call holds the names of the first call too, so it is not the
    list that the second call alone produces. *)
Lemma second_call_keeps_first_call_names :
  let names := ["a_x_b"; "a_rolling_mean"; "a_rolling_std"; "b_rolling_mean";
                "b_rolling_std"; "a_x_b_rolling_mean"; "a_x_b_rolling_std"]%string in
  let first := Examples.create_features 0%nat None (world_of table_ab 50) in
  let second := Examples.create_features 0%nat None first.2 in
  let alone := Examples.create_features 0%nat None (world_of table_ab 50) in
  created_features (self alone.2) = names /\
  created_features (self second.2) = names ++ names /\
  created_features (self second.2) <> created_features (self alone.2).
Proof. vm_compute. split; [done|]. split; [done|]. discriminate. Qed.

(** A call with a target column, on a table with two numeric predictors. *)
Lemma create_features_leaves_input_untouched_witness :
  frames (Examples.create_features 0%nat (Some "t"%string)
            (world_of table_target 1)).2 !! 0%nat = Some table_target /\
  (forall result,
     (Examples.create_features 0%nat (Some "t"%string) (world_of table_target 1)).1
       = Some result -> result <> 0%nat).
Proof.
  apply (create_features_leaves_input_untouched no_dates field0 field0 field0 field0
           field0 sqrt0 accept score0 (world_of table_target 1) 0%nat
           (Some "t"%string) table_target).
  reflexivity.
Defined.

(** C4 (counterexample).  The table has columns [a], [b] and [a_x_b], all
    numeric.  The product of [a] and [b] overwrites [a_x_b], which now holds
    a zero; for the pair [(a, a_x_b)] the ratio column is not created,
    although the column [a_x_b] of the input table contains no zero. *)
Lemma ratio_missing_after_name_collision :
  ("a", "a_x_b")%string ∈ pairs (interaction_candidates table_collision) /\
  (exists d, lookup_column "a_x_b" (columns table_collision) = Some d /\
             all_nonzero d = true) /\
  (exists result df',
     (_create_interaction_features 0%nat (world_of table_collision 50)).1 = Some result /\
     frames (_create_interaction_features 0%nat (world_of table_collision 50)).2
       !! result = Some df' /\
     lookup_column "a_x_a_x_b" (columns df') = Some (SInt [0; 1]) /\
     lookup_column "a_div_a_x_b" (columns df') = None) /\
  (exists result df',
     (Examples.create_features 0%nat None (world_of table_collision 50)).1 = Some result /\
     frames (Examples.create_features 0%nat None (world_of table_collision 50)).2
       !! result = Some df' /\
     lookup_column "a_div_a_x_b" (columns df') = None).
Proof.
  split; [apply (bool_decide_unpack _); by vm_compute|].
  split; [eexists; split; reflexivity|].
  split; eexists _, _; vm_compute; repeat split; reflexivity.
Qed.

(** The columns [a = [1,2,3]] and [b = [2,0,4]]: the product is [[2,0,12]]
    and there is no ratio column, as [b] holds a zero. *)
Lemma interaction_features_of_fresh_names_witness :
  exists result w' df',
    _create_interaction_features 0%nat (world_of table_ab 50) = (Some result, w') /\
    frames w' !! result = Some df' /\
    frames w' !! 0%nat = Some table_ab /\
    lookup_column "a_x_b" (columns df') = Some (SInt [2; 0; 12]) /\
    "a_div_b"%string ∉ column_names df'.
Proof.
  destruct (interaction_features_of_fresh_names (world_of table_ab 50) 0%nat table_ab)
    as (result & w' & df' & Hrun & Hres & Hin & Hpairs).
  - reflexivity.
  - apply (bool_decide_unpack _). by vm_compute.
  - destruct (Hpairs "a" "b")%string
      as (ca & cb & product & Ha & Hb & Hm & Hx & Hdiv & _).
    + apply (bool_decide_unpack _). by vm_compute.
    + injection Ha as <-. injection Hb as <-. injection Hm as <-.
      exists result, w', df'.
      split; [exact Hrun|]. split; [exact Hres|]. split; [exact Hin|].
      split; [exact Hx|].
      intros Hdivb. apply Hdiv in Hdivb. discriminate Hdivb.
Defined.

(** Two numeric predictors, one text column, and room for one feature. *)
Lemma select_features_result_witness :
  exists mask result,
    (_select_features accept score0 0%nat "t" (world_of table_target 1)).1 = Some result /\
    result <> 0%nat /\
    frames (_select_features accept score0 0%nat "t" (world_of table_target 1)).2
      !! 0%nat = Some table_target /\
    length mask = 2%nat /\
    selected_features
      (self (_select_features accept score0 0%nat "t" (world_of table_target 1)).2)
      = by_mask ["x"; "z"]%string mask /\
    (length (selected_features
               (self (_select_features accept score0 0%nat "t"
                        (world_of table_target 1)).2)) <= 1)%nat /\
    frames (_select_features accept score0 0%nat "t" (world_of table_target 1)).2
      !! result
      = Some (mkDataFrame 3
                (by_mask [("x"%string, SInt [1; 2; 3]); ("z"%string, SInt [2; 0; 4])] mask
                 ++ [("t"%string, SInt [0; 1; 0])])).
Proof.
  apply (select_features_result accept score0 (world_of table_target 1) 0%nat
           table_target "t" (SInt [0; 1; 0])).
  - reflexivity.
  - apply (bool_decide_unpack _). by vm_compute.
  - reflexivity.
  - vm_compute. lia.
  - vm_compute. discriminate.
  - reflexivity.
Defined.

(** C6 (counterexample).  The column [x = [10,20,30,40]] has no missing
    value, yet its rolling standard deviation is missing at the first row:
    one observation gives no sample deviation. *)
Lemma rolling_std_missing_at_first_row :
  (exists result df' xs,
     (_create_statistical_features sqrt0 0%nat (world_of table_xyz 50)).1 = Some result /\
     frames (_create_statistical_features sqrt0 0%nat (world_of table_xyz 50)).2
       !! result = Some df' /\
     lookup_column "x_rolling_std" (columns df') = Some (SFloat xs) /\
     xs !! 0%nat = Some None /\ ~ defined_at xs 0) /\
  (exists result df' xs,
     (Examples.create_features 0%nat None (world_of table_xyz 50)).1 = Some result /\
     frames (Examples.create_features 0%nat None (world_of table_xyz 50)).2
       !! result = Some df' /\
     lookup_column "x_rolling_std" (columns df') = Some (SFloat xs) /\
     xs !! 0%nat = Some None /\ ~ defined_at xs 0).
Proof.
  split; eexists _, _, _; vm_compute;
    (split; [reflexivity|]); (split; [reflexivity|]); (split; [reflexivity|]);
    (split; [reflexivity|]); intros (q & Hq); discriminate Hq.
Qed.

(** The rolling mean of [[10,20,30,40]] is [[10,15,20,30]]; its rolling
    deviation is missing at the first row and defined at the others. *)
Lemma rolling_features_of_fresh_names_witness :
  exists result w' df' deviations,
    _create_statistical_features sqrt0 0%nat (world_of table_xyz 50) = (Some result, w') /\
    frames w' !! result = Some df' /\
    lookup_column "x_rolling_mean" (columns df')
      = Some (SFloat [float 10; float 15; float 20; float 30]) /\
    lookup_column "x_rolling_std" (columns df') = Some (SFloat deviations) /\
    ~ defined_at deviations 0 /\
    defined_at deviations 1 /\ defined_at deviations 2 /\ defined_at deviations 3.
Proof.
  destruct (rolling_features_of_fresh_names sqrt0 (world_of table_xyz 50) 0%nat table_xyz)
    as (result & w' & df' & Hrun & Hres & Hcols).
  - reflexivity.
  - vm_compute. lia.
  - apply (bool_decide_unpack _). by vm_compute.
  - destruct (Hcols "x"%string) as (c & xs & Hc & Hxs & Hmean & Hstd & _ & Hall).
    + apply (bool_decide_unpack _). by vm_compute.
    + injection Hc as <-. injection Hxs as <-.
      assert (Hcomplete : Forall is_Some (map float_of_int [10; 20; 30; 40]))
        by (repeat constructor; eexists; reflexivity).
      exists result, w', df', (rolling (window_std sqrt0) (map float_of_int [10; 20; 30; 40])).
      split; [exact Hrun|]. split; [exact Hres|]. split; [exact Hmean|].
      split; [exact Hstd|].
      split; [intros H0; apply (Hall Hcomplete 0%nat) in H0; [lia | simpl; lia]|].
      split; [apply (Hall Hcomplete 1%nat); simpl; lia|].
      split; [apply (Hall Hcomplete 2%nat); simpl; lia|].
      apply (Hall Hcomplete 3%nat); simpl; lia.
Defined.


(** The whole of [create_features] on the columns [a = [1,2,3]] and
    [b = [2,0,4]], without a target: the product is there, the ratio is
    not. *)
Example create_features_on_table_ab :
  exists result df',
    (Examples.create_features 0%nat None (world_of table_ab 50)).1 = Some result /\
    frames (Examples.create_features 0%nat None (world_of table_ab 50)).2 !! result
      = Some df' /\
    lookup_column "a_x_b" (columns df') = Some (SInt [2; 0; 12]) /\
    lookup_column "a_div_b" (columns df') = None.
Proof. eexists _, _. vm_compute. repeat split; reflexivity. Qed.

(** The whole of [create_features] on a table with the column
    [x = [10,20,30,40]]: the rolling mean is [[10,15,20,30]]. *)
Example create_features_on_table_xyz :
  exists result df',
    (Examples.create_features 0%nat None (world_of table_xyz 50)).1 = Some result /\
    frames (Examples.create_features 0%nat None (world_of table_xyz 50)).2 !! result
      = Some df' /\
    lookup_column "x_rolling_mean" (columns df')
      = Some (SFloat [float 10; float 15; float 20; float 30]).
Proof. eexists _, _. vm_compute. repeat split; reflexivity. Qed.

(** The whole of [create_features] with a target and room for one feature:
    the table returned has the selected column and the target, no more. *)
Example create_features_with_target :
  exists result df',
    (Examples.create_features 0%nat (Some "t"%string) (world_of table_target 1)).1
      = Some result /\
    frames (Examples.create_features 0%nat (Some "t"%string) (world_of table_target 1)).2
      !! result = Some df' /\
    column_names df'
      = selected_features
          (self (Examples.create_features 0%nat (Some "t"%string)
                   (world_of table_target 1)).2) ++ ["t"%string] /\
    length (column_names df') = 2%nat.
Proof. eexists _, _. vm_compute. repeat split; reflexivity. Qed.

(** The list of selected names after calls on that table: the call with the
    target [t] replaces it; the calls with the empty name, with a name that
    is no column, and with a target that leaves no numeric predictor keep
    it. *)
Example selected_features_after_calls :
  let w := world_of table_target 1 in
  let only_target := world_of (mkDataFrame 2 [("t"%string, SInt [0; 1])]) 1 in
  selected_features (self (Examples.create_features 0%nat (Some "t"%string) w).2)
    <> selected_features (self w) /\
  selected_features (self (Examples.create_features 0%nat (Some EmptyString) w).2)
    = selected_features (self w) /\
  selected_features (self (Examples.create_features 0%nat (Some "u"%string) w).2)
    = selected_features (self w) /\
  selected_features (self (Examples.create_features 0%nat (Some "t"%string) only_target).2)
    = selected_features (self only_target).
Proof. vm_compute. split; [discriminate|]. repeat split; reflexivity. Qed.

End EngineerProofs.

(** * The pipeline generator *)

Module PipelineProofs.

Import Pipeline PipelineReasoning.

(** ** Induction on Python values *)

Lemma pyval_nested_ind (P : pyval -> Prop) :
  P PyNone -> (forall b, P (PyBool b)) -> (forall z, P (PyInt z)) ->
  (forall q, P (PyFloat q)) -> (forall s, P (PyStr s)) ->
  (forall l, Forall P l -> P (PyList l)) ->
  (forall l, Forall P l -> P (PyTuple l)) ->
  (forall items, Forall (fun kv => P kv.1 /\ P kv.2) items -> P (PyDict items)) ->
  (forall id, P (PyObject id)) ->
  forall v, P v.
Proof.
  intros Hn Hb Hi Hf Hs Hl Ht Hd Ho. fix IH 1.
  intros [ | b | z | q | s | l | l | items | id ];
    [exact Hn | apply Hb | apply Hi | apply Hf | apply Hs
    | apply Hl | apply Ht | apply Hd | apply Ho].
  - induction l as [|x l IHl]; constructor; [apply IH | exact IHl].
  - induction l as [|x l IHl]; constructor; [apply IH | exact IHl].
  - induction items as [|[k x] items IHl]; constructor;
      [split; apply IH | exact IHl].
Qed.

(** ** The round trip of a native value *)

Lemma all_some_Forall2 {A B} (f : A -> option B) (g : B -> A) (l : list A) :
  Forall (fun x => exists y, f x = Some y /\ g y = x) l ->
  exists k, all_some (map f l) = Some k /\ map g k = l.
Proof.
  induction 1 as [|x l (y & Hy & Hg) _ (k & Hk & Hm)]; simpl; [by exists []|].
  rewrite Hy, Hk. exists (y :: k). simpl. by rewrite Hg, Hm.
Qed.

Lemma dict_set_fresh (k : string) (v : pyval) (items : list (pyval * pyval)) :
  k ∉ str_keys items -> dict_set k v items = items ++ [(PyStr k, v)].
Proof.
  induction items as [|[k0 v0] items IH]; simpl; [done|].
  destruct k0; simpl; try (intros H; by rewrite IH).
  rewrite not_elem_of_cons. intros [Hne H].
  destruct (String.eqb_spec s k); [congruence|]. by rewrite IH.
Qed.

Lemma rebuild_items (members : list (string * pyval)) :
  forall acc,
  NoDup (str_keys acc ++ map fst members) ->
  foldl (fun items kv => dict_set kv.1 kv.2 items) acc members
  = acc ++ map (fun kv => (PyStr kv.1, kv.2)) members.
Proof.
  induction members as [|[k v] members IH]; intros acc Hnd; simpl.
  - by rewrite app_nil_r.
  - apply NoDup_app in Hnd as (Hacc & Hdis & Hm). simpl in Hm.
    apply NoDup_cons in Hm as [Hk Hm].
    rewrite dict_set_fresh by (intros H; apply (Hdis _ H); left).
    rewrite IH.
    + by rewrite <- app_assoc.
    + unfold str_keys. rewrite omap_app. simpl. rewrite <- app_assoc. simpl.
      apply NoDup_app. split; [done|]. split.
      * intros x Hx. apply Hdis in Hx. done.
      * by apply NoDup_cons.
Qed.

Lemma forallb_Forall {A} (f : A -> bool) (l : list A) :
  forallb f l = true -> Forall (fun x => f x = true) l.
Proof.
  induction l as [|x l IH]; simpl; [constructor|].
  intros H. apply andb_prop in H as [Hx Hl]. constructor; auto.
Qed.

Lemma Forall_both {A} (P Q : A -> Prop) (l : list A) :
  Forall P l -> Forall Q l -> Forall (fun x => P x /\ Q x) l.
Proof. induction 1; inversion 1; subst; constructor; auto. Qed.

Section RoundTrip.

Variable float_repr : Q -> string.

Lemma native_round_trip (v : pyval) :
  json_native v = true ->
  exists j, to_json float_repr v = Some j /\ of_json j = v.
Proof.
  induction v as [ | b | z | q | s | l IH | l IH | items IH | id ]
    using pyval_nested_ind; simpl; intros Hnat; try discriminate; eauto.
  - assert (H : Forall (fun x => exists y, to_json float_repr x = Some y /\ of_json y = x) l).
    { eapply Forall_impl; [exact (Forall_both _ _ _ IH (forallb_Forall _ _ Hnat))|].
      intros x [Hx Hn]. by apply Hx. }
    destruct (all_some_Forall2 _ _ _ H) as (k & Hk & Hm).
    rewrite Hk. simpl. eexists. split; [done|]. simpl. by rewrite Hm.
  - apply andb_prop in Hnat as [Hitems Hkeys].
    apply bool_decide_eq_true in Hkeys.
    apply forallb_Forall in Hitems.
    set (enc := fun kv : pyval * pyval =>
                  match key_string float_repr kv.1, to_json float_repr kv.2 with
                  | Some k, Some j => Some (k, j)
                  | _, _ => None
                  end).
    set (dec := fun kj : string * json => (PyStr kj.1, of_json kj.2)).
    assert (H : Forall (fun kv => exists kj, enc kv = Some kj /\ dec kj = kv) items).
    { eapply Forall_impl; [exact (Forall_both _ _ _ IH Hitems)|].
      intros [k x] [[_ Hx] Hn]. simpl in *. apply andb_prop in Hn as [Hk Hn].
      destruct (Hx Hn) as (j & Hj & Hoj). destruct k; try discriminate.
      exists (s, j). unfold enc, dec. simpl. by rewrite Hj, Hoj. }
    destruct (all_some_Forall2 _ _ _ H) as (members & Hk & Hm).
    fold enc. rewrite Hk. simpl. eexists. split; [done|]. simpl.
    f_equal.
    assert (Hkeys' : str_keys items = map fst members).
    { rewrite <- Hm. clear. induction members as [|[k j] members IHm]; simpl; [done|].
      by rewrite IHm. }
    rewrite rebuild_items.
    + simpl. rewrite <- Hm. unfold dec. by rewrite map_map.
    + simpl. rewrite map_map.
      rewrite (map_ext _ fst) by done. by rewrite <- Hkeys'.
Qed.

End RoundTrip.

Section PipelineFacts.

Variable isoformat : nat -> string.
Variable strftime : nat -> string.
Variable py_str : pyval -> string.
Variable float_repr : Q -> string.
Variable may_create : string -> bool.
Variable may_open : string -> bool.
Variable picklable : PipelineGenerator -> bool.

Local Abbreviation save :=
  (save_pipeline isoformat strftime py_str float_repr may_create may_open picklable).

Lemma add_steps_spec (calls : list (string * string * pyval)) (env : Env) :
  add_steps isoformat calls env
  = mkEnv (mkGenerator (pipeline_steps (generator env) ++ stamped isoformat (clock env) calls)
                       (pipeline_metadata (generator env)))
          (clock env + length calls) (fs env).
Proof.
  unfold add_steps. revert env.
  induction calls as [|c calls IH]; intros env; simpl.
  - rewrite app_nil_r, Nat.add_0_r. by destruct env as [[] ? ?].
  - rewrite IH. unfold add_step. simpl. rewrite <- app_assoc. simpl.
    by rewrite Nat.add_succ_r.
Qed.

Lemma stamped_fields (now : nat) (calls : list (string * string * pyval)) :
  map (fun s => (PyStr (name s), PyStr (function s), parameters s)) (stamped isoformat now calls)
  = map call_fields calls.
Proof.
  revert now. induction calls as [|c calls IH]; intros now; simpl; [done|].
  by rewrite IH.
Qed.

Lemma stamped_native (now : nat) (calls : list (string * string * pyval)) :
  Forall (fun c => json_native c.2 = true) calls ->
  forallb json_native (map step_dict (stamped isoformat now calls)) = true.
Proof.
  intros H. revert now. induction H as [|c calls Hc _ IH]; intros now; [done|].
  cbn [stamped map forallb]. rewrite IH, andb_true_r.
  unfold step_dict. cbn [json_native forallb fst snd is_string parameters andb].
  rewrite Hc. cbn [andb]. by vm_compute.
Qed.

Lemma loaded_steps_data (g : PipelineGenerator) (now : nat) :
  loaded_steps (pipeline_data isoformat g now)
  = Some (map (fun s => (PyStr (name s), PyStr (function s), parameters s))
              (pipeline_steps g)).
Proof.
  unfold loaded_steps, pipeline_data. cbn.
  induction (pipeline_steps g) as [|s steps IH]; [done|].
  cbn [map all_some]. unfold step_fields at 1, step_dict at 1. cbn.
  by rewrite IH.
Qed.

Lemma makedirs_files (d : string) (disk disk' : FileSystem) :
  makedirs may_create d disk = Some disk' -> files disk' = files disk.
Proof.
  unfold makedirs. repeat case_match; try discriminate; by intros [= <-].
Qed.

(** C10.  When the format is none of 'python', 'json' and 'pickle' and the
    target directory can be created, [save_pipeline] returns [True] and
    writes no file: the files on the disk, the one at the given path among
    them, are what they were. *)
Theorem unknown_format_reports_success (filepath format : string) (env : Env)
    (disk : FileSystem) :
  format <> "python"%string -> format <> "json"%string -> format <> "pickle"%string ->
  makedirs may_create (dirname filepath) (fs env) = Some disk ->
  let out := save filepath format env in
  out.1 = true /\
  files (fs out.2) = files (fs env) /\
  files (fs out.2) !! filepath = files (fs env) !! filepath.
Proof.
  intros Hpy Hjs Hpk Hmk out. subst out.
  unfold save_pipeline, save_body. rewrite Hmk.
  destruct (String.eqb_spec format "python"); [done|].
  destruct (String.eqb_spec format "json"); [done|].
  destruct (String.eqb_spec format "pickle"); [done|].
  cbn. rewrite (makedirs_files _ _ _ Hmk). done.
Qed.

(** C8, amended.  For every sequence of [add_step] calls on a new generator
    whose parameters are JSON-native values (None, booleans, integers, finite
    floats, strings, lists, and dicts with distinct string keys, nested), the
    export in the JSON format succeeds when the directory can be created and
    the file opened, and the document parsed back has a steps list whose
    sequence of name, function and parameters is the sequence of the
    arguments of the calls, in the same order and number. *)
Theorem json_export_round_trip (calls : list (string * string * pyval))
    (now : nat) (disk0 disk : FileSystem) (filepath : string) :
  Forall (fun c => json_native c.2 = true) calls ->
  makedirs may_create (dirname filepath) disk0 = Some disk ->
  filepath ∉ dirs disk ->
  may_open filepath = true ->
  let env := add_steps isoformat calls (mkEnv __init__ now disk0) in
  let out := save filepath "json" env in
  out.1 = true /\
  exists doc,
    (files (fs out.2) !! filepath ≫= json_load) = Some doc /\
    loaded_steps doc = Some (map call_fields calls).
Proof.
  intros Hnat Hmk Hdir Hopen env out. subst out env.
  rewrite add_steps_spec. cbn [generator clock fs __init__ pipeline_steps
                               pipeline_metadata app].
  set (g := mkGenerator (stamped isoformat now calls) (PyDict [])).
  set (t := (now + length calls)%nat).
  assert (Hdata : json_native (pipeline_data isoformat g t) = true).
  { unfold pipeline_data. cbn [json_native forallb fst snd is_string andb
                               pipeline_metadata pipeline_steps g].
    rewrite (stamped_native now calls Hnat). cbn [andb]. by vm_compute. }
  destruct (native_round_trip float_repr _ Hdata) as (j & Hj & Hback).
  unfold save_pipeline, save_body. cbn [generator clock fs].
  rewrite Hmk. cbn [String.eqb Ascii.eqb Bool.eqb andb].
  change (String.eqb "json" "python") with false.
  change (String.eqb "json" "json") with true. cbv iota.
  fold g t. rewrite Hj. unfold open_write.
  rewrite bool_decide_false by done. rewrite Hopen. cbn [fst snd fs files].
  split; [done|]. exists (of_json j). rewrite lookup_insert_eq. split; [done|].
  rewrite Hback, loaded_steps_data. cbn [pipeline_steps g]. by rewrite stamped_fields.
Qed.

End PipelineFacts.

(** ** The examples *)

Import Examples.

(** C8 (counterexample).  A step whose parameters hold the tuple
    [('a', 'b')]: the export succeeds, and the document parsed back holds the
    list [['a', 'b']] in its place, which is not the argument of the call. *)
Lemma tuple_parameter_comes_back_as_list :
  let env := Examples.add_steps tuple_calls new_env in
  let out := Examples.save_pipeline "out/pipeline.json" "json" env in
  let loaded :=
    (files (fs out.2) !! "out/pipeline.json"%string ≫= json_load) ≫= loaded_steps in
  out.1 = true /\
  loaded = Some [(PyStr "Feature Engineering", PyStr "feature_engineering",
                  PyDict [(PyStr "interaction_features",
                           PyList [PyList [PyStr "a"; PyStr "b"]])])] /\
  loaded <> Some (map call_fields tuple_calls).
Proof. vm_compute. split; [done|]. split; [done|]. discriminate. Qed.

(** The three calls of the usage example come back as they were made. *)
Lemma json_export_round_trip_witness :
  (Examples.save_pipeline "out/pipeline.json" "json"
     (Examples.add_steps usage_calls new_env)).1 = true /\
  exists doc,
    (files (fs (Examples.save_pipeline "out/pipeline.json" "json"
                  (Examples.add_steps usage_calls new_env)).2)
       !! "out/pipeline.json"%string ≫= json_load) = Some doc /\
    loaded_steps doc = Some (map call_fields usage_calls).
Proof.
  apply (json_export_round_trip clock_text clock_text str0 repr0 allow allow picklable0
           usage_calls 0%nat empty_disk (mkFS ∅ {[ "out"%string ]}) "out/pipeline.json").
  - repeat constructor.
  - reflexivity.
  - vm_compute. intros H. apply (bool_decide_pack _) in H. vm_compute in H. exact H.
  - reflexivity.
Defined.

(** The format 'yaml' on an empty disk. *)
Lemma unknown_format_reports_success_witness :
  (Examples.save_pipeline "out/pipeline.yaml" "yaml" new_env).1 = true /\
  files (fs (Examples.save_pipeline "out/pipeline.yaml" "yaml" new_env).2)
    = files (fs new_env) /\
  files (fs (Examples.save_pipeline "out/pipeline.yaml" "yaml" new_env).2)
    !! "out/pipeline.yaml"%string = files (fs new_env) !! "out/pipeline.yaml"%string.
Proof.
  apply (unknown_format_reports_success clock_text clock_text str0 repr0 allow allow
           picklable0 "out/pipeline.yaml" "yaml" new_env (mkFS ∅ {[ "out"%string ]})).
  - discriminate.
  - discriminate.
  - discriminate.
  - reflexivity.
Defined.

End PipelineProofs.

(** * More of the profiler *)

Module ProfilerProperties.

Import Profiler ProfilerProofs.

(** ** Duplicate rows *)

Lemma duplicated_from_length (seen rest : list (list cell)) :
  length (duplicated_from seen rest) = length rest.
Proof. revert seen. induction rest as [|r rest IH]; intros seen; simpl; auto. Qed.

(** The first row is never marked. *)
Lemma duplicated_sum_lt (data : DataFrame) :
  (1 <= num_rows data)%nat -> (duplicated_sum data < num_rows data)%nat.
Proof.
  unfold duplicated_sum, duplicated, rows, num_rows.
  destruct (index_len data) as [|n]; [lia|]. intros _.
  cbn [seq map duplicated_from existsb]. rewrite filter_cons_False by discriminate.
  pose proof (length_filter (fun b => b = true)
                (duplicated_from [row data 0] (map (row data) (seq 1 n)))) as H.
  rewrite duplicated_from_length, length_map, length_seq in H. lia.
Qed.

Lemma Qnat_lt (n m : nat) : (n < m)%nat -> (Qnat n < Qnat m)%Q.
Proof. intros H. unfold Qnat, Qlt. simpl. lia. Qed.

(** X1.  For a table with at least one row the uniqueness score is
    [100 * (1 - duplicate_rows / rows)].  The first row is never marked as a
    duplicate, so there are fewer duplicates than rows, and the score is
    greater than 0 and at most 100. *)
Theorem uniqueness_score_is_positive (data : DataFrame) :
  (1 <= num_rows data)%nat ->
  exists u,
    uniqueness_score (_calculate_quality_metrics data) = Some u /\
    u = (100 * (1 - Qnat (duplicated_sum data) / Qnat (num_rows data)))%Q /\
    (duplicated_sum data < num_rows data)%nat /\
    (0 < u <= 100)%Q.
Proof.
  intros Hrows. pose proof (duplicated_sum_lt data Hrows) as Hlt.
  eexists. cbn [_calculate_quality_metrics uniqueness_score].
  rewrite np_div_pos by lia. cbn [fmap option_fmap option_map].
  split; [reflexivity|]. split; [reflexivity|]. split; [exact Hlt|].
  pose proof (Qnat_pos (num_rows data) ltac:(lia)) as Hp.
  pose proof (ratio_nonneg (duplicated_sum data) (num_rows data) ltac:(lia)) as H0.
  assert (H1 : (Qnat (duplicated_sum data) / Qnat (num_rows data) < 1)%Q).
  { apply Qlt_shift_div_r; [done|]. pose proof (Qnat_lt _ _ Hlt). lra. }
  split; lra.
Qed.

(** ** Missing values per column *)

Lemma sum_nat_perm (l k : list nat) : l ≡ₚ k -> sum_nat l = sum_nat k.
Proof. induction 1; simpl; lia. Qed.

Lemma sum_nat_positive (l : list (string * nat)) :
  sum_nat (map snd (filter (fun c => (0 < snd c)%nat) l)) = sum_nat (map snd l).
Proof.
  induction l as [|[c k] l IH]; [done|].
  rewrite filter_cons. cbn [snd]. destruct (decide (0 < k)%nat); simpl; lia.
Qed.

Lemma missing_count_names (data : DataFrame) :
  map fst (missing_count data) = column_names data.
Proof.
  unfold missing_count, column_names. rewrite map_map. by apply map_ext.
Qed.

Lemma filter_names_NoDup {A} (P : string * A -> Prop) `{forall x, Decision (P x)}
    (l : list (string * A)) :
  NoDup (map fst l) -> NoDup ((filter P l).*1).
Proof.
  intros Hnd. eapply sublist_NoDup; [exact Hnd|].
  apply (fmap_sublist fst), sublist_filter.
Qed.

(** X3.  In a table with distinct column names, [columns_missing] has
    an entry exactly for the columns that hold a missing cell, the entry is
    the number of missing cells of the column, and the entries add up to
    [total_missing]. *)
Theorem columns_missing_counts (data : DataFrame) :
  NoDup (column_names data) ->
  let report := _analyze_missing_values data in
  (forall c s, (c, s) ∈ columns data ->
     columns_missing report !! c
     = if (0 <? isnull_sum s)%nat then Some (isnull_sum s) else None) /\
  (forall c, c ∉ column_names data -> columns_missing report !! c = None) /\
  sum_nat (map snd (map_to_list (columns_missing report))) = total_missing report.
Proof.
  intros Hnd report. subst report.
  cbn [_analyze_missing_values columns_missing total_missing].
  assert (Hmc : NoDup (map fst (missing_count data))) by by rewrite missing_count_names.
  pose proof (filter_names_NoDup (fun c => (0 < snd c)%nat) _ Hmc) as Hf.
  split; [|split].
  - intros c s Hin.
    assert (Hc : (c, isnull_sum s) ∈ missing_count data).
    { unfold missing_count. apply list_elem_of_fmap. by exists (c, s). }
    destruct (Nat.ltb_spec 0 (isnull_sum s)) as [Hpos|Hzero].
    + apply elem_of_list_to_map; [exact Hf|]. apply list_elem_of_filter. by split.
    + apply not_elem_of_list_to_map. intros H.
      apply list_elem_of_fmap in H as ([c' k] & Heq & H). simpl in Heq. subst c'.
      apply list_elem_of_filter in H as [Hk H]. simpl in Hk.
      assert (k = isnull_sum s); [|lia].
      assert (Hl := proj1 (elem_of_list_to_map (M := gmap string) _ c k Hmc) H).
      assert (Hl' := proj1 (elem_of_list_to_map (M := gmap string) _ c _ Hmc) Hc).
      congruence.
  - intros c Hc. apply not_elem_of_list_to_map. intros H. apply Hc.
    rewrite <- missing_count_names.
    apply list_elem_of_fmap in H as (x & -> & H).
    apply list_elem_of_filter in H as [_ H]. by apply list_elem_of_fmap_2.
  - rewrite (sum_nat_perm _ _ (fmap_Permutation snd _ _ (map_to_list_to_map _ Hf))).
    by rewrite sum_nat_positive.
Qed.


Lemma positive_percentage_entry (n : nat) (c : string) (k : nat) :
  (1 <= n)%nat ->
  positive_percentage (c, (fun x => x * 100)%Q <$> np_div (Qnat k) (Qnat n))
  = if decide (0 < k)%nat then Some (c, (Qnat k / Qnat n * 100)%Q) else None.
Proof.
  intros Hn. pose proof (Qnat_pos n ltac:(lia)) as Hp.
  rewrite np_div_pos by lia. unfold positive_percentage, Qltb.
  cbn [fmap option_fmap option_map snd fst].
  destruct (decide (0 < k)%nat) as [Hk|Hk];
    destruct (Qlt_le_dec 0 (Qnat k / Qnat n * 100)) as [Hlt|Hle]; try done; exfalso.
  - pose proof (Qnat_pos k Hk) as Hkp.
    assert (0 < Qnat k / Qnat n)%Q
      by (apply Qlt_shift_div_l; [done|by rewrite Qmult_0_l]).
    lra.
  - assert (k = O) as -> by lia.
    assert (Qnat 0 / Qnat n == 0)%Q as Hz
      by (change (Qnat 0) with 0%Q; unfold Qdiv; apply Qmult_0_l).
    rewrite Hz in Hlt. lra.
Qed.

Lemma positive_percentages (n : nat) (l : list (string * nat)) :
  (1 <= n)%nat ->
  omap positive_percentage
    (map (fun c => (fst c, (fun x => x * 100)%Q <$> np_div (Qnat (snd c)) (Qnat n))) l)
  = prod_map id (fun k => (Qnat k / Qnat n * 100)%Q)
      <$> filter (fun c => (0 < snd c)%nat) l.
Proof.
  intros Hn. induction l as [|[c k] l IH]; [done|].
  cbn [map fst snd]. rewrite filter_cons. cbn [snd].
  change (omap ?f (?x :: ?r)) with (match f x with Some y => y :: omap f r | None => omap f r end).
  rewrite positive_percentage_entry by done. rewrite IH.
  by destruct (decide (0 < k)%nat).
Qed.

Lemma missing_count_le (data : DataFrame) (c : string) (k : nat) :
  aligned data -> (c, k) ∈ missing_count data -> (k <= num_rows data)%nat.
Proof.
  intros Hal Hin. unfold missing_count in Hin.
  apply list_elem_of_fmap in Hin as ([c' s] & [= -> ->] & Hin).
  unfold aligned in Hal. rewrite Forall_forall in Hal. specialize (Hal _ Hin).
  simpl in *. unfold num_rows. rewrite <- Hal. apply isnull_sum_le.
Qed.

(** X4.  In a well-formed table with at least one row,
    [columns_missing_percentage] has the keys of [columns_missing], each
    value is the count of the column divided by the number of rows, times
    100, and it is greater than 0 and at most 100. *)
Theorem missing_percentage_per_column (data : DataFrame) :
  wf_frame data ->
  (1 <= num_rows data)%nat ->
  let report := _analyze_missing_values data in
  (forall c,
     columns_missing_percentage report !! c
     = (fun k => Qnat k / Qnat (num_rows data) * 100)%Q <$> columns_missing report !! c) /\
  (forall c q, columns_missing_percentage report !! c = Some q -> (0 < q <= 100)%Q).
Proof.
  intros [Hal Hnd] Hrows report. subst report.
  cbn [_analyze_missing_values columns_missing columns_missing_percentage].
  rewrite positive_percentages by done.
  assert (Hmc : NoDup (map fst (missing_count data))) by by rewrite missing_count_names.
  pose proof (filter_names_NoDup (fun c => (0 < snd c)%nat) _ Hmc) as Hf.
  assert (Hlookup : forall c,
    (list_to_map (prod_map id (fun k => (Qnat k / Qnat (num_rows data) * 100)%Q)
                    <$> filter (fun c => (0 < snd c)%nat) (missing_count data))
       : gmap string Q) !! c
    = (fun k => Qnat k / Qnat (num_rows data) * 100)%Q
        <$> (list_to_map (filter (fun c => (0 < snd c)%nat) (missing_count data))
               : gmap string nat) !! c).
  { intros c. by rewrite list_to_map_fmap, lookup_fmap. }
  split; [exact Hlookup|].
  intros c q. rewrite Hlookup.
  destruct (list_to_map _ !! c) as [k|] eqn:Ek; [|discriminate].
  intros [= <-].
  apply elem_of_list_to_map in Ek; [|exact Hf].
  apply list_elem_of_filter in Ek as [Hk Hin]. simpl in Hk.
  pose proof (missing_count_le data c k Hal Hin) as Hle.
  pose proof (Qnat_pos (num_rows data) ltac:(lia)) as Hp.
  pose proof (Qnat_pos k Hk) as Hkp.
  destruct (ratio_bounds k (num_rows data) ltac:(lia) Hle) as [_ H1].
  assert (0 < Qnat k / Qnat (num_rows data))%Q
    by (apply Qlt_shift_div_l; [done|by rewrite Qmult_0_l]).
  split; lra.
Qed.

(** ** Labels *)

Section Labels.

Variable parse_datetimes : list (option string) -> option (list (option Z)).
Variable column_statistics : Series -> gmap string (option Q).
Variable memory_usage : DataFrame -> string.

Lemma infer_label_range (s : Series) (l : string) :
  infer_label parse_datetimes s = Some l ->
  l ∈ ["datetime"; "categorical"; "numerical"; "text"]%string.
Proof.
  unfold infer_label.
  repeat case_match; intros [= <-]; apply (bool_decide_unpack _); by vm_compute.
Qed.

Lemma infer_loop_labels (cols : list (string * Series)) (m m' : gmap string string) :
  infer_loop parse_datetimes cols m = Some m' ->
  dom m' = dom m ∪ list_to_set (map fst cols) /\
  (map_Forall (fun _ l => l ∈ ["datetime"; "categorical"; "numerical"; "text"]%string) m ->
   map_Forall (fun _ l => l ∈ ["datetime"; "categorical"; "numerical"; "text"]%string) m').
Proof.
  revert m. induction cols as [|[c s] cols IH]; intros m; simpl.
  - intros [= <-]. split; [by rewrite (right_id_L ∅ (∪))|done].
  - destruct (infer_label parse_datetimes s) as [l|] eqn:El; [|discriminate].
    intros Hrun. destruct (IH _ Hrun) as [Hdom Hall]. split.
    + rewrite Hdom, dom_insert_L. cbn [map fst list_to_set].
      by rewrite (comm_L (∪) {[c]}), (assoc_L (∪)).
    + intros Hm. apply Hall. apply map_Forall_insert_2; [|done].
      by eapply infer_label_range.
Qed.

(** X5.  For a well-formed table with at least one row [analyze] returns,
    [data_types] has one entry per column and no other, and every label is
    one of 'datetime', 'categorical', 'numerical' and 'text'. *)
Theorem every_column_gets_one_of_four_labels (data : DataFrame) :
  wf_frame data -> (1 <= num_rows data)%nat ->
  exists p,
    analyze parse_datetimes column_statistics memory_usage data = Some p /\
    dom (data_types p) = list_to_set (column_names data) /\
    forall c l, data_types p !! c = Some l ->
      l ∈ ["datetime"; "categorical"; "numerical"; "text"]%string.
Proof.
  intros [Hal _] Hrows.
  destruct (analyze_total parse_datetimes column_statistics memory_usage data Hal)
    as (types & Ht & Ha); [lia|].
  eexists. split; [exact Ha|]. cbn [data_types].
  destruct (infer_loop_labels _ _ _ Ht) as [Hdom Hall]. split.
  - by rewrite Hdom, dom_empty_L, (left_id_L ∅ (∪)).
  - intros c l Hl. exact (Hall (map_Forall_empty _) c l Hl).
Qed.


(** The distinct values of a bool column. *)
Lemma unique_bools (xs : list bool) :
  (length (unique (map CBool xs)) <= 2)%nat.
Proof.
  assert (H : unique (map CBool xs) = [] \/
              unique (map CBool xs) = [CBool true] \/
              unique (map CBool xs) = [CBool false] \/
              unique (map CBool xs) = [CBool true; CBool false] \/
              unique (map CBool xs) = [CBool false; CBool true]).
  { induction xs as [|b xs IH]; [by left|]. cbn [map unique].
    destruct IH as [->|[->|[->|[->| ->]]]]; destruct b; cbn; auto 6. }
  destruct H as [->|[->|[->|[->| ->]]]]; simpl; lia.
Qed.

Lemma nunique_bool (xs : list bool) : (nunique (SBool xs) <= 2)%nat.
Proof.
  unfold nunique. cbn [cells].
  assert (filter (fun c => is_missing c = false) (map CBool xs) = map CBool xs) as ->.
  { induction xs as [|b xs IH]; [done|]. cbn [map].
    rewrite filter_cons_True by done. by rewrite IH. }
  apply unique_bools.
Qed.

Lemma infer_label_by_dtype (s : Series) :
  match s with
  | SInt _ | SFloat _ | SDatetime _ =>
      infer_label parse_datetimes s = Some "datetime"%string
  | SBool _ => infer_label parse_datetimes s = Some "categorical"%string
  | SObject _ => True
  end.
Proof.
  destruct s as [xs|xs|xs|xs|xs]; unfold infer_label, _is_datetime_column,
    _is_categorical_column; cbn [is_datetime64_any_dtype to_datetime is_object_dtype
                                 is_numeric_dtype]; try done.
  pose proof (nunique_bool xs). rewrite bool_decide_true; [done|lia].
Qed.

(** X6.  A float64 column is labelled 'datetime' whatever its values, NaN
    and values outside the int64 range included: the conversion to
    timestamps casts the floats and raises for none of them, so the datetime
    test, which comes first, succeeds, and the rule that would label the
    column 'numerical' or 'categorical' by its number of distinct values is
    never reached. *)
Theorem float_column_is_labelled_datetime (data : DataFrame) (c : string)
    (xs : list (option Q)) :
  wf_frame data -> (1 <= num_rows data)%nat -> (c, SFloat xs) ∈ columns data ->
  exists p,
    analyze parse_datetimes column_statistics memory_usage data = Some p /\
    _is_datetime_column parse_datetimes (SFloat xs) = true /\
    data_types p !! c = Some "datetime"%string.
Proof.
  intros [Hal Hnd] Hrows Hin.
  destruct (analyze_total parse_datetimes column_statistics memory_usage data Hal)
    as (types & Ht & Ha); [lia|].
  eexists. split; [exact Ha|]. split; [reflexivity|]. cbn [data_types].
  rewrite (infer_loop_lookup _ _ _ _ _ _ Hnd Hin Ht).
  exact (infer_label_by_dtype (SFloat xs)).
Qed.

(** X7.  The label that the dtype alone decides: an int64 column and a
    datetime64 column are labelled 'datetime', and a bool column is labelled
    'categorical'. *)
Theorem label_of_int_bool_and_datetime_columns (data : DataFrame) (c : string)
    (s : Series) :
  wf_frame data -> (1 <= num_rows data)%nat -> (c, s) ∈ columns data ->
  exists p,
    analyze parse_datetimes column_statistics memory_usage data = Some p /\
    ((exists xs, s = SInt xs) \/ is_datetime64_any_dtype s = true ->
     data_types p !! c = Some "datetime"%string) /\
    ((exists xs, s = SBool xs) -> data_types p !! c = Some "categorical"%string).
Proof.
  intros [Hal Hnd] Hrows Hin.
  destruct (analyze_total parse_datetimes column_statistics memory_usage data Hal)
    as (types & Ht & Ha); [lia|].
  eexists. split; [exact Ha|]. cbn [data_types].
  rewrite (infer_loop_lookup _ _ _ _ _ _ Hnd Hin Ht).
  pose proof (infer_label_by_dtype s) as Hl.
  destruct s as [xs|xs|xs|xs|xs]; cbn [is_datetime64_any_dtype].
  - rewrite Hl. split; [done|]. by intros (? & ?).
  - rewrite Hl. split; [done|]. by intros (? & ?).
  - rewrite Hl. split; [intros [(? & ?)|?]; discriminate|done].
  - split; [intros [(? & ?)|?]; discriminate|]. by intros (? & ?).
  - rewrite Hl. split; [done|]. by intros (? & ?).
Qed.

End Labels.

(** ** A table without rows *)

(** X8.  For a table without rows the quotients have a zero divisor:
    the completeness score, the uniqueness score and the total missing
    percentage are NaN, no column has a missing percentage, and the overall
    quality score is 0. *)
Theorem quality_of_table_without_rows (data : DataFrame) :
  num_rows data = O ->
  completeness_score (_calculate_quality_metrics data) = None /\
  uniqueness_score (_calculate_quality_metrics data) = None /\
  overall_quality_score (_calculate_quality_metrics data) = Some 0%Q /\
  missing_percentage_total (_analyze_missing_values data) = None /\
  columns_missing_percentage (_analyze_missing_values data) = ∅.
Proof.
  intros Hrows.
  cbn [_calculate_quality_metrics completeness_score uniqueness_score
       overall_quality_score _analyze_missing_values missing_percentage_total
       columns_missing_percentage].
  rewrite Hrows. cbn [Nat.mul]. change (Qnat 0) with 0%Q.
  unfold np_div. change (Qeq_bool 0 0) with true.
  cbn [fmap option_fmap option_map float_sub py_max0].
  repeat (split; [done|]).
  induction (missing_count data) as [|[c k] l IH]; [done|].
  cbn [map omap list_omap positive_percentage snd fst]. exact IH.
Qed.


(** ** The examples *)

Import Examples.

Lemma table_ab_wf : wf_frame table_ab.
Proof.
  split; [by repeat constructor | apply (bool_decide_unpack _); by vm_compute].
Defined.

Lemma uniqueness_score_is_positive_witness :
  exists u,
    uniqueness_score (_calculate_quality_metrics sample_data) = Some u /\
    u = (100 * (1 - Qnat (duplicated_sum sample_data) / Qnat (num_rows sample_data)))%Q /\
    (duplicated_sum sample_data < num_rows sample_data)%nat /\
    (0 < u <= 100)%Q.
Proof. apply uniqueness_score_is_positive. vm_compute. lia. Defined.

Lemma columns_missing_counts_witness :
  (forall c s, (c, s) ∈ columns sample_data ->
     columns_missing (_analyze_missing_values sample_data) !! c
     = if (0 <? isnull_sum s)%nat then Some (isnull_sum s) else None) /\
  (forall c, c ∉ column_names sample_data ->
     columns_missing (_analyze_missing_values sample_data) !! c = None) /\
  sum_nat (map snd (map_to_list (columns_missing (_analyze_missing_values sample_data))))
  = total_missing (_analyze_missing_values sample_data).
Proof. apply columns_missing_counts. exact (proj2 sample_data_wf). Defined.

Lemma missing_percentage_per_column_witness :
  (forall c,
     columns_missing_percentage (_analyze_missing_values sample_data) !! c
     = (fun k => Qnat k / Qnat (num_rows sample_data) * 100)%Q
         <$> columns_missing (_analyze_missing_values sample_data) !! c) /\
  (forall c q,
     columns_missing_percentage (_analyze_missing_values sample_data) !! c = Some q ->
     (0 < q <= 100)%Q).
Proof.
  apply missing_percentage_per_column; [exact sample_data_wf | vm_compute; lia].
Defined.

Lemma every_column_gets_one_of_four_labels_witness :
  exists p,
    Examples.analyze sample_data = Some p /\
    dom (data_types p) = list_to_set (column_names sample_data) /\
    forall c l, data_types p !! c = Some l ->
      l ∈ ["datetime"; "categorical"; "numerical"; "text"]%string.
Proof.
  apply every_column_gets_one_of_four_labels;
    [exact sample_data_wf | vm_compute; lia].
Defined.

Lemma table_floats_wf : wf_frame table_floats.
Proof.
  split; [by repeat constructor | apply (bool_decide_unpack _); by vm_compute].
Defined.

(** A column with a NaN and a value beyond the int64 range. *)
Lemma float_column_is_labelled_datetime_witness :
  exists p,
    Examples.analyze table_floats = Some p /\
    _is_datetime_column no_dates (SFloat wide_floats) = true /\
    data_types p !! "amount"%string = Some "datetime"%string.
Proof.
  apply (float_column_is_labelled_datetime no_dates stats0 memory0 table_floats
           "amount" wide_floats);
    [exact table_floats_wf | vm_compute; lia | left].
Defined.

Lemma label_of_int_bool_and_datetime_columns_witness :
  exists p,
    Examples.analyze table_ab = Some p /\
    ((exists xs, SInt [1; 2; 3] = SInt xs) \/ is_datetime64_any_dtype (SInt [1; 2; 3]) = true ->
     data_types p !! "a"%string = Some "datetime"%string) /\
    ((exists xs, SInt [1; 2; 3] = SBool xs) ->
     data_types p !! "a"%string = Some "categorical"%string).
Proof.
  apply (label_of_int_bool_and_datetime_columns no_dates stats0 memory0 table_ab "a");
    [exact table_ab_wf | vm_compute; lia | left].
Defined.

Lemma quality_of_table_without_rows_witness :
  completeness_score (_calculate_quality_metrics table_no_rows) = None /\
  uniqueness_score (_calculate_quality_metrics table_no_rows) = None /\
  overall_quality_score (_calculate_quality_metrics table_no_rows) = Some 0%Q /\
  missing_percentage_total (_analyze_missing_values table_no_rows) = None /\
  columns_missing_percentage (_analyze_missing_values table_no_rows) = ∅.
Proof. apply quality_of_table_without_rows. reflexivity. Defined.

End ProfilerProperties.

(** * More of the feature engineer *)

Module EngineerProperties.

Import Engineer Reasoning EngineerProofs.

(** ** Assignment of a column *)

Lemma assign_column_names (name : string) (s : Series) (cols : list (string * Series)) :
  map fst (assign_column name s cols)
  = if bool_decide (name ∈ map fst cols) then map fst cols else map fst cols ++ [name].
Proof.
  induction cols as [|[n s0] cols IH]; [done|]. cbn [assign_column map fst].
  destruct (String.eqb_spec n name) as [->|Hne].
  - rewrite bool_decide_true by left. done.
  - cbn [map fst]. rewrite IH.
    destruct (decide (name ∈ map fst cols)) as [Hin|Hin].
    + rewrite !bool_decide_true; [done|by right|done].
    + rewrite !bool_decide_false; [done| |done].
      rewrite not_elem_of_cons. by split.
Qed.

Lemma lookup_assign_eq (name : string) (s : Series) (cols : list (string * Series)) :
  lookup_column name (assign_column name s cols) = Some s.
Proof.
  induction cols as [|[n s0] cols IH]; simpl; [by rewrite String.eqb_refl|].
  destruct (String.eqb_spec n name) as [->|Hne]; simpl.
  - by rewrite String.eqb_refl.
  - destruct (String.eqb_spec n name); [done|exact IH].
Qed.

Lemma lookup_assign_ne (name other : string) (s : Series) (cols : list (string * Series)) :
  other <> name ->
  lookup_column other (assign_column name s cols) = lookup_column other cols.
Proof.
  intros Hne. induction cols as [|[n s0] cols IH]; simpl.
  - destruct (String.eqb_spec name other); [congruence|done].
  - destruct (String.eqb_spec n name) as [->|Hn]; simpl.
    + destruct (String.eqb_spec name other); [congruence|done].
    + by rewrite IH.
Qed.

Lemma extends_refl (df : DataFrame) : extends df df [].
Proof. split; [done|]. split; [done|]. split; [done|]. intros x H. inversion H. Qed.

Lemma extends_trans (df1 df2 df3 : DataFrame) (n1 n2 : list string) :
  extends df1 df2 n1 -> extends df2 df3 n2 -> extends df1 df3 (n1 ++ n2).
Proof.
  intros (Hi1 & Hp1 & Hd1 & Hn1) (Hi2 & Hp2 & Hd2 & Hn2).
  split; [congruence|]. split; [by etrans|]. split; [auto|].
  intros x Hx. apply elem_of_app in Hx as [Hx|Hx]; [|auto].
  destruct Hp2 as [k ->]. apply elem_of_app. left. auto.
Qed.

Lemma setitem_extends (df : DataFrame) (name : string) (s : Series) :
  extends df (setitem df name s) [name].
Proof.
  unfold extends, column_names, setitem. cbn [index_len columns].
  rewrite assign_column_names.
  destruct (decide (name ∈ map fst (columns df))) as [Hin|Hin].
  - rewrite bool_decide_true by done. split; [done|]. split; [done|]. split; [done|].
    intros x Hx. apply list_elem_of_singleton in Hx. by subst.
  - rewrite bool_decide_false by done. split; [done|].
    split; [by apply prefix_app_r|]. split.
    + intros Hnd. apply NoDup_app. split; [done|]. split; [|apply NoDup_singleton].
      intros x Hx Hx'. apply list_elem_of_singleton in Hx'. by subst.
    + intros x Hx. apply list_elem_of_singleton in Hx. subst.
      apply elem_of_app. right. left.
Qed.

Lemma setitem_numbers (cand : list string) (df : DataFrame) (name : string) (s : Series) :
  is_number s = true -> numbers cand df -> numbers cand (setitem df name s).
Proof.
  intros Hs Hc. unfold numbers in *. eapply Forall_impl; [exact Hc|].
  intros a (c & Hc' & Hn). unfold number_column, setitem. cbn [columns].
  destruct (decide (a = name)) as [->|Hne].
  - exists s. by rewrite lookup_assign_eq.
  - exists c. by rewrite lookup_assign_ne.
Qed.

Lemma numbers_lookup (cand : list string) (df : DataFrame) (a : string) :
  numbers cand df -> a ∈ cand ->
  exists c, lookup_column a (columns df) = Some c /\ is_number c = true.
Proof. intros H Ha. unfold numbers in H. rewrite Forall_forall in H. by apply H. Qed.

(** ** Loops *)

Lemma run_steps_spec (Inv : DataFrame -> Prop) (fs : list step) :
  Forall (fun f => forall df, Inv df ->
            exists df' ns, f df = Some (df', ns) /\ Inv df' /\ extends df df' ns) fs ->
  forall df, Inv df ->
    exists df' ns, run_steps fs df = Some (df', ns) /\ Inv df' /\ extends df df' ns.
Proof.
  induction 1 as [|f fs Hf _ IH]; intros df Hdf; cbn [run_steps].
  - exists df, []. split; [done|]. split; [done|]. apply extends_refl.
  - destruct (Hf df Hdf) as (df1 & n1 & -> & H1 & He1).
    destruct (IH df1 H1) as (df2 & n2 & -> & H2 & He2).
    exists df2, (n1 ++ n2). split; [done|]. split; [done|]. by eapply extends_trans.
Qed.

Lemma run_steps_keeps (P : DataFrame -> Prop) (fs : list step) :
  Forall (fun f => forall df df' ns, P df -> f df = Some (df', ns) -> P df') fs ->
  forall df df' ns, P df -> run_steps fs df = Some (df', ns) -> P df'.
Proof.
  induction 1 as [|f fs Hf _ IH]; intros df df' ns Hdf; cbn [run_steps].
  - by intros [= <- _].
  - destruct (f df) as [[df1 n1]|] eqn:Ef; [|discriminate].
    destruct (run_steps fs df1) as [[df2 n2]|] eqn:Er; [|discriminate].
    intros [= <- _]. eapply IH; [|exact Er]. eapply Hf; eauto.
Qed.

Lemma run_steps_names {A} (body : A -> step) (g : A -> list string) (l : list A) :
  (forall x df df' ns, body x df = Some (df', ns) -> ns = g x) ->
  forall df df' ns, run_steps (map body l) df = Some (df', ns) -> ns = flat_map g l.
Proof.
  intros Hb. induction l as [|x l IH]; intros df df' ns; cbn [map run_steps flat_map].
  - by intros [= _ <-].
  - destruct (body x df) as [[df1 n1]|] eqn:Ef; [|discriminate].
    destruct (run_steps (map body l) df1) as [[df2 n2]|] eqn:Er; [|discriminate].
    intros [= _ <-]. by rewrite (Hb _ _ _ _ Ef), (IH _ _ _ Er).
Qed.

Lemma run_steps_count (lo hi : nat) (fs : list step) :
  Forall (fun f => forall df df' ns, f df = Some (df', ns) ->
            (lo <= length ns <= hi)%nat) fs ->
  forall df df' ns, run_steps fs df = Some (df', ns) ->
    (lo * length fs <= length ns <= hi * length fs)%nat.
Proof.
  induction 1 as [|f fs Hf _ IH]; intros df df' ns; cbn [run_steps].
  - intros [= _ <-]. simpl. lia.
  - destruct (f df) as [[df1 n1]|] eqn:Ef; [|discriminate].
    destruct (run_steps fs df1) as [[df2 n2]|] eqn:Er; [|discriminate].
    intros [= _ <-]. rewrite length_app. specialize (Hf _ _ _ Ef).
    specialize (IH _ _ _ Er). simpl. lia.
Qed.


Lemma extends_names (df df' : DataFrame) (ns ns' : list string) :
  extends df df' ns -> (forall x, x ∈ ns' -> x ∈ ns) -> extends df df' ns'.
Proof. intros (? & ? & ? & Hn) Hsub. repeat split; auto. Qed.

(** ** Column lengths *)

Lemma assign_column_Forall (P : string * Series -> Prop) (name : string) (s : Series)
    (cols : list (string * Series)) :
  Forall P cols -> (forall n, P (n, s)) -> Forall P (assign_column name s cols).
Proof.
  intros Hc Hs. induction Hc as [|[n s0] cols H0 Hrest IH]; simpl.
  - constructor; [apply Hs|constructor].
  - destruct (String.eqb n name); constructor; auto.
Qed.

Lemma setitem_aligned (df : DataFrame) (name : string) (s : Series) :
  aligned df -> series_len s = index_len df -> aligned (setitem df name s).
Proof.
  intros Hal Hs. unfold aligned, setitem. cbn [index_len columns].
  by apply assign_column_Forall.
Qed.

Lemma lookup_aligned (df : DataFrame) (a : string) (c : Series) :
  aligned df -> lookup_column a (columns df) = Some c -> series_len c = index_len df.
Proof.
  intros Hal Hc. apply lookup_column_Some_elem in Hc.
  unfold aligned in Hal. rewrite Forall_forall in Hal. exact (Hal _ Hc).
Qed.

Lemma as_float_len (s : Series) (xs : list (option Q)) :
  as_float s = Some xs -> length xs = series_len s.
Proof.
  destruct s; simpl; try discriminate; intros [= <-]; unfold series_len; simpl;
    by rewrite ?length_map.
Qed.

Lemma series_mul_len (a b p : Series) (n : nat) :
  series_len a = n -> series_len b = n -> series_mul a b = Some p -> series_len p = n.
Proof.
  intros Ha Hb. unfold series_mul.
  assert (Hfloat : match as_float a, as_float b with
                   | Some xs, Some ys => Some (SFloat (zip_with fmul xs ys))
                   | _, _ => None
                   end = Some p -> series_len p = n).
  { destruct (as_float a) as [xs|] eqn:Ea; [|discriminate].
    destruct (as_float b) as [ys|] eqn:Eb; [|discriminate].
    intros [= <-]. unfold series_len. cbn [cells].
    rewrite length_map, length_zip_with.
    rewrite (as_float_len _ _ Ea), (as_float_len _ _ Eb). lia. }
  destruct a as [xs| | | |]; try exact Hfloat.
  destruct b as [ys| | | |]; try exact Hfloat.
  intros [= <-]. unfold series_len in *. cbn [cells] in *.
  rewrite length_map in *. rewrite length_zip_with. lia.
Qed.

Lemma series_div_len (a b q : Series) (n : nat) :
  series_len a = n -> series_len b = n -> series_div a b = Some q -> series_len q = n.
Proof.
  intros Ha Hb. unfold series_div.
  destruct (as_float a) as [xs|] eqn:Ea; [|discriminate].
  destruct (as_float b) as [ys|] eqn:Eb; [|discriminate].
  intros [= <-]. unfold series_len. cbn [cells].
  rewrite length_map, length_zip_with.
  rewrite (as_float_len _ _ Ea), (as_float_len _ _ Eb). lia.
Qed.

Lemma rolling_len (f : list (option Q) -> option Q) (xs : list (option Q)) :
  series_len (SFloat (rolling f xs)) = length xs.
Proof. unfold series_len, rolling. cbn [cells]. by rewrite !length_map, length_seq. Qed.

Lemma all_some_length {A} (l : list (option A)) (k : list A) :
  all_some l = Some k -> length k = length l.
Proof.
  revert k. induction l as [|[a|] l IH]; intros k; simpl; try discriminate.
  - by intros [= <-].
  - destruct (all_some l) as [r|]; [|discriminate]. intros [= <-]. simpl. by rewrite (IH r).
Qed.

Lemma dt_field_len (field : Z -> Z) (ts : list (option Z)) :
  series_len (dt_field field ts) = length ts.
Proof.
  unfold dt_field. destruct (all_some ts) as [l|] eqn:E; unfold series_len; cbn [cells];
    rewrite !length_map; [by apply all_some_length|done].
Qed.

Lemma to_datetime_len (parse : list (option string) -> option (list (option Z)))
    (s : Series) (ts : list (option Z)) :
  (forall xs r, parse xs = Some r -> length r = length xs) ->
  to_datetime parse s = Some ts -> length ts = series_len s.
Proof.
  intros Hparse. destruct s as [xs|xs|xs|xs|xs]; unfold series_len; cbn [to_datetime cells];
    rewrite length_map.
  - intros [= <-]. by rewrite length_map.
  - intros [= <-]. by rewrite length_map.
  - discriminate.
  - apply Hparse.
  - by intros [= <-].
Qed.

(** ** The bodies of the three loops *)

Lemma interaction_body_aligned (p : string * string) (df df' : DataFrame)
    (ns : list string) :
  aligned df -> interaction_body p df = Some (df', ns) -> aligned df'.
Proof.
  intros Hal. destruct p as [a b]. unfold interaction_body.
  destruct (lookup_column a (columns df)) as [ca|] eqn:Ea; [|discriminate].
  destruct (lookup_column b (columns df)) as [cb|] eqn:Eb; [|discriminate].
  cbn [mbind option_bind].
  destruct (series_mul ca cb) as [product|] eqn:Em; [|discriminate].
  cbn [mbind option_bind].
  assert (Hal1 : aligned (setitem df (x_name a b) product)).
  { apply setitem_aligned; [done|].
    eapply series_mul_len; [| |exact Em]; by eapply lookup_aligned. }
  set (df1 := setitem df (x_name a b) product) in *.
  destruct (lookup_column b (columns df1)) as [den|] eqn:Eden; [|discriminate].
  cbn [mbind option_bind]. destruct (all_nonzero den).
  - destruct (lookup_column a (columns df1)) as [num|] eqn:Enum; [|discriminate].
    cbn [mbind option_bind].
    destruct (series_div num den) as [ratio|] eqn:Eq; [|discriminate].
    cbn [mbind option_bind]. intros [= <- _].
    apply setitem_aligned; [done|].
    eapply series_div_len; [| |exact Eq]; by eapply lookup_aligned.
  - by intros [= <- _].
Qed.


Lemma interaction_body_spec (cand : list string) (a b : string) :
  a ∈ cand -> b ∈ cand ->
  forall df, numbers cand df ->
    exists df' ns, interaction_body (a, b) df = Some (df', ns) /\
                   numbers cand df' /\ extends df df' ns.
Proof.
  intros Ha Hb df Hdf.
  destruct (numbers_lookup _ _ a Hdf Ha) as (ca & Hca & Hna).
  destruct (numbers_lookup _ _ b Hdf Hb) as (cb & Hcb & Hnb).
  destruct (series_mul_number ca cb Hna Hnb) as (product & Hm & Hnp).
  pose proof (setitem_numbers cand df (x_name a b) product Hnp Hdf) as Hdf1.
  pose proof (setitem_extends df (x_name a b) product) as He1.
  destruct (numbers_lookup _ _ b Hdf1 Hb) as (den & Hden & Hnden).
  destruct (numbers_lookup _ _ a Hdf1 Ha) as (num & Hnum & Hnnum).
  destruct (series_div_number num den Hnnum Hnden) as (ratio & Hq & Hnq).
  unfold interaction_body. rewrite Hca, Hcb. cbn [mbind option_bind].
  rewrite Hm. cbn [mbind option_bind]. rewrite Hden. cbn [mbind option_bind].
  destruct (all_nonzero den).
  - rewrite Hnum. cbn [mbind option_bind]. rewrite Hq. cbn [mbind option_bind].
    eexists _, _. split; [reflexivity|]. split; [by apply setitem_numbers|].
    eapply (extends_trans _ _ _ [x_name a b] [div_name a b]);
      [exact He1|apply setitem_extends].
  - eexists _, _. split; [reflexivity|]. by split.
Qed.

Lemma interaction_body_count (p : string * string) (df df' : DataFrame) (ns : list string) :
  interaction_body p df = Some (df', ns) -> (1 <= length ns <= 2)%nat.
Proof.
  destruct p as [a b]. unfold interaction_body.
  destruct (lookup_column a (columns df)); [|discriminate].
  destruct (lookup_column b (columns df)); [|discriminate]. cbn [mbind option_bind].
  destruct (series_mul _ _); [|discriminate]. cbn [mbind option_bind].
  destruct (lookup_column b _); [|discriminate]. cbn [mbind option_bind].
  destruct (all_nonzero _).
  - destruct (lookup_column a _); [|discriminate]. cbn [mbind option_bind].
    destruct (series_div _ _); [|discriminate]. cbn [mbind option_bind].
    intros [= _ <-]. simpl. lia.
  - intros [= _ <-]. simpl. lia.
Qed.

Section Bodies.

Variable parse_datetimes : list (option string) -> option (list (option Z)).
Variables year month day dayofweek quarter : Z -> Z.
Variable fsqrt : Q -> Q.

Lemma statistical_body_spec (cand : list string) (col : string) :
  col ∈ cand ->
  forall df, numbers cand df ->
    exists df', statistical_body fsqrt col df = Some (df', rolling_names col) /\
                numbers cand df' /\ extends df df' (rolling_names col).
Proof.
  intros Hcol df Hdf.
  destruct (numbers_lookup _ _ col Hdf Hcol) as (c & Hc & Hn).
  destruct (as_float_number c Hn) as (xs & Hxs).
  set (m := SFloat (rolling window_mean xs)).
  pose proof (setitem_numbers cand df (mean_name col) m eq_refl Hdf) as Hdf1.
  destruct (numbers_lookup _ _ col Hdf1 Hcol) as (c' & Hc' & Hn').
  destruct (as_float_number c' Hn') as (xs' & Hxs').
  unfold statistical_body. rewrite Hc. cbn [mbind option_bind].
  unfold rolling_mean. rewrite Hxs. cbn [mbind option_bind]. fold m.
  rewrite Hc'. cbn [mbind option_bind]. unfold rolling_std. rewrite Hxs'.
  cbn [mbind option_bind].
  eexists. split; [reflexivity|]. split; [by apply setitem_numbers|].
  eapply (extends_trans _ _ _ [mean_name col] [std_name col]); apply setitem_extends.
Qed.

Lemma statistical_body_names (col : string) (df df' : DataFrame) (ns : list string) :
  statistical_body fsqrt col df = Some (df', ns) -> ns = rolling_names col.
Proof.
  unfold statistical_body.
  destruct (lookup_column col (columns df)); [|discriminate]. cbn [mbind option_bind].
  destruct (rolling_mean _); [|discriminate]. cbn [mbind option_bind].
  destruct (lookup_column col _); [|discriminate]. cbn [mbind option_bind].
  destruct (rolling_std _ _); [|discriminate]. cbn [mbind option_bind].
  by intros [= _ <-].
Qed.

Lemma statistical_body_aligned (col : string) (df df' : DataFrame) (ns : list string) :
  aligned df -> statistical_body fsqrt col df = Some (df', ns) -> aligned df'.
Proof.
  intros Hal. unfold statistical_body, rolling_mean, rolling_std.
  destruct (lookup_column col (columns df)) as [c|] eqn:Ec; [|discriminate].
  cbn [mbind option_bind].
  destruct (as_float c) as [xs|] eqn:Exs; [|discriminate]. cbn [mbind option_bind].
  assert (Hal1 : aligned (setitem df (mean_name col) (SFloat (rolling window_mean xs)))).
  { apply setitem_aligned; [done|]. rewrite rolling_len, (as_float_len _ _ Exs).
    by eapply lookup_aligned. }
  set (df1 := setitem df (mean_name col) (SFloat (rolling window_mean xs))) in *.
  destruct (lookup_column col (columns df1)) as [c'|] eqn:Ec'; [|discriminate].
  cbn [mbind option_bind].
  destruct (as_float c') as [xs'|] eqn:Exs'; [|discriminate]. cbn [mbind option_bind].
  intros [= <- _]. apply setitem_aligned; [done|].
  rewrite rolling_len, (as_float_len _ _ Exs'). by eapply lookup_aligned.
Qed.

Local Abbreviation temporal_body :=
  (temporal_body parse_datetimes year month day dayofweek quarter).

Lemma temporal_body_spec (col : string) (df : DataFrame) :
  exists df' ns, temporal_body col df = Some (df', ns) /\ extends df df' ns.
Proof.
  unfold Engineer.temporal_body.
  destruct (lookup_column col (columns df)) as [s|];
    [|eexists _, _; split; [reflexivity|apply extends_refl]].
  destruct (to_datetime parse_datetimes s) as [ts|];
    [|eexists _, _; split; [reflexivity|apply extends_refl]].
  eexists _, _. split; [reflexivity|].
  eapply extends_names.
  - eapply (extends_trans _ _ _ [col]); [apply setitem_extends|].
    eapply (extends_trans _ _ _ [_]); [apply setitem_extends|].
    eapply (extends_trans _ _ _ [_]); [apply setitem_extends|].
    eapply (extends_trans _ _ _ [_]); [apply setitem_extends|].
    eapply (extends_trans _ _ _ [_]); [apply setitem_extends|].
    apply setitem_extends.
  - intros x Hx. by right.
Qed.

Lemma temporal_body_aligned (col : string) (df df' : DataFrame) (ns : list string) :
  (forall xs r, parse_datetimes xs = Some r -> length r = length xs) ->
  aligned df -> temporal_body col df = Some (df', ns) -> aligned df'.
Proof.
  intros Hparse Hal. unfold Engineer.temporal_body.
  destruct (lookup_column col (columns df)) as [s|] eqn:Es; [|by intros [= <- _]].
  destruct (to_datetime parse_datetimes s) as [ts|] eqn:Ets; [|by intros [= <- _]].
  assert (Hts : length ts = index_len df).
  { rewrite (to_datetime_len _ _ _ Hparse Ets). by eapply lookup_aligned. }
  intros [= <- _].
  repeat (apply setitem_aligned; [|by rewrite ?dt_field_len]).
  apply setitem_aligned; [done|]. unfold series_len. cbn [cells]. by rewrite length_map.
Qed.

Lemma temporal_body_skip (col : string) (df : DataFrame) :
  lookup_column col (columns df) = None -> temporal_body col df = Some (df, []).
Proof. intros H. unfold Engineer.temporal_body. by rewrite H. Qed.

End Bodies.


(** ** The three methods *)

Lemma filter_none {A} (P : A -> Prop) `{forall x, Decision (P x)} (l : list A) :
  (forall x, x ∈ l -> ~ P x) -> filter P l = [].
Proof.
  induction l as [|x l IH]; intros Hl; [done|].
  rewrite filter_cons_False by (apply Hl; left). apply IH. intros y Hy. apply Hl. by right.
Qed.

Lemma pairs_length {A} (l : list A) :
  (2 * length (pairs l) = length l * (length l - 1))%nat.
Proof.
  induction l as [|x l IH]; [done|]. cbn [pairs length].
  rewrite length_app, length_map. nia.
Qed.

Lemma interaction_candidates_length (df : DataFrame) :
  (length (interaction_candidates df) <= 5)%nat.
Proof.
  unfold interaction_candidates.
  destruct (Nat.ltb_spec 5 (length (map fst (select_number (columns df))))) as [H|H].
  - rewrite length_take. lia.
  - done.
Qed.

Section Methods.

Variable parse_datetimes : list (option string) -> option (list (option Z)).
Variables year month day dayofweek quarter : Z -> Z.
Variable fsqrt : Q -> Q.
Variable check_X_y : list Series -> Series -> bool.
Variable mutual_info_classif : nat -> Series -> Series -> Q.

Local Abbreviation temporal_body :=
  (temporal_body parse_datetimes year month day dayofweek quarter).
Local Abbreviation temporal :=
  (_create_temporal_features parse_datetimes year month day dayofweek quarter).
Local Abbreviation statistical := (_create_statistical_features fsqrt).
Local Abbreviation create :=
  (create_features parse_datetimes year month day dayofweek quarter
     fsqrt check_X_y mutual_info_classif).

Lemma temporal_run (data : nat) (df df' : DataFrame) (names : list string) (w : World) :
  frames w !! data = Some df ->
  run_steps (map temporal_body
               (filter (fun col => is_temporal_name col = true) (column_names df))) df
    = Some (df', names) ->
  returns_copy (temporal data) w df' names.
Proof.
  intros Hd Hrun. unfold returns_copy, _create_temporal_features, mbind, M_bind, bind.
  rewrite (copy_run _ _ _ Hd). unfold deref at 1. cbn [frames].
  rewrite lookup_insert_eq.
  erewrite for_each_mutate; [|cbn [frames]; apply lookup_insert_eq|exact Hrun].
  cbn [frames self ret]. by rewrite insert_insert_eq.
Qed.

Lemma temporal_body_count (col : string) (df df' : DataFrame) (ns : list string) :
  temporal_body col df = Some (df', ns) -> (0 <= length ns <= 5)%nat.
Proof.
  unfold Engineer.temporal_body.
  destruct (lookup_column col (columns df)) as [s|]; [|intros [= _ <-]; simpl; lia].
  destruct (to_datetime parse_datetimes s) as [ts|]; intros [= _ <-]; simpl; lia.
Qed.

Lemma temporal_method (data : nat) (df : DataFrame) (w : World) :
  frames w !! data = Some df ->
  exists df' names,
    returns_copy (temporal data) w df' names /\
    extends df df' names /\
    ((forall xs r, parse_datetimes xs = Some r -> length r = length xs) ->
     aligned df -> aligned df') /\
    ((forall c, c ∈ column_names df -> is_temporal_name c = false) ->
     df' = df /\ names = []) /\
    (length names
     <= 5 * length (filter (fun col => is_temporal_name col = true) (column_names df)))%nat.
Proof.
  intros Hd.
  set (cols := filter (fun col => is_temporal_name col = true) (column_names df)).
  destruct (run_steps_spec (fun _ => True) (map temporal_body cols)) with (df := df)
    as (df' & names & Hrun & _ & Hext); [|done|].
  { apply Forall_forall. intros f Hf. apply list_elem_of_fmap in Hf as (col & -> & _).
    intros d _. destruct (temporal_body_spec parse_datetimes year month day dayofweek
                            quarter col d) as (d' & ns & ? & ?). eauto. }
  exists df', names. split; [by eapply temporal_run|]. split; [done|].
  split; [|split].
  - intros Hparse Hal. eapply (run_steps_keeps aligned); [|exact Hal|exact Hrun].
    apply Forall_forall. intros f Hf. apply list_elem_of_fmap in Hf as (col & -> & _).
    intros d d' ns Hd' Hb. by eapply temporal_body_aligned.
  - intros Hnone.
    assert (cols = []) as Hcols by (apply filter_none; intros c Hc; rewrite Hnone; done).
    rewrite Hcols in Hrun. cbn in Hrun. by inversion Hrun.
  - destruct (run_steps_count 0 5 (map temporal_body cols)) with (df := df) (df' := df')
      (ns := names) as [_ Hle]; [|exact Hrun|by rewrite length_map in Hle].
    apply Forall_forall. intros f Hf. apply list_elem_of_fmap in Hf as (col & -> & _).
    intros d d' ns. apply temporal_body_count.
Qed.


Lemma candidates_are_numbers (df : DataFrame) :
  NoDup (column_names df) -> numbers (interaction_candidates df) df.
Proof.
  intros Hnd. apply Forall_forall. intros a Ha. by apply candidate_is_number.
Qed.

Lemma interaction_method (data : nat) (df : DataFrame) (w : World) :
  frames w !! data = Some df ->
  NoDup (column_names df) ->
  exists df' names,
    returns_copy (_create_interaction_features data) w df' names /\
    extends df df' names /\
    (aligned df -> aligned df') /\
    (length (pairs (interaction_candidates df)) <= length names
     <= 2 * length (pairs (interaction_candidates df)))%nat.
Proof.
  intros Hd Hnd. set (cand := interaction_candidates df).
  destruct (run_steps_spec (numbers cand) (map interaction_body (pairs cand)))
    with (df := df) as (df' & names & Hrun & _ & Hext);
    [|by apply candidates_are_numbers|].
  { apply Forall_forall. intros f Hf. apply list_elem_of_fmap in Hf as ([a b] & -> & Hp).
    apply elem_of_pairs in Hp as [Ha Hb]. by apply interaction_body_spec. }
  exists df', names. split; [by eapply interaction_run|]. split; [done|]. split.
  - intros Hal. eapply (run_steps_keeps aligned); [|exact Hal|exact Hrun].
    apply Forall_forall. intros f Hf. apply list_elem_of_fmap in Hf as (p & -> & _).
    intros d d' ns Hd' Hb. by eapply interaction_body_aligned.
  - pose proof (run_steps_count 1 2 (map interaction_body (pairs cand))) as Hc.
    rewrite length_map in Hc. rewrite <- (Nat.mul_1_l (length (pairs cand))) at 1.
    eapply Hc; [|exact Hrun].
    apply Forall_forall. intros f Hf. apply list_elem_of_fmap in Hf as (p & -> & _).
    intros d d' ns. apply interaction_body_count.
Qed.

Lemma statistical_skip (data : nat) (df : DataFrame) (w : World) :
  frames w !! data = Some df ->
  (length (select_number (columns df)) < 3)%nat ->
  returns_copy (statistical data) w df [].
Proof.
  intros Hd Hlen. unfold returns_copy, _create_statistical_features, mbind, M_bind, bind.
  rewrite (copy_run _ _ _ Hd). unfold deref at 1. cbn [frames].
  rewrite lookup_insert_ne by (by eapply fresh_ne).
  rewrite Hd. rewrite length_map.
  destruct (Nat.leb_spec 3 (length (select_number (columns df)))) as [|_]; [lia|].
  cbn [ret]. by rewrite extend_created_nil.
Qed.

Lemma first_three_are_numbers (df : DataFrame) :
  NoDup (column_names df) ->
  numbers (take 3 (map fst (select_number (columns df)))) df.
Proof.
  intros Hnd. apply Forall_forall. intros a Ha. apply take_elem in Ha.
  apply list_elem_of_fmap in Ha as ([n s] & -> & Hs).
  apply select_number_elem in Hs as [Hs Hnum]. exists s. split; [|done].
  by apply lookup_column_elem.
Qed.

Lemma statistical_method (data : nat) (df : DataFrame) (w : World) :
  frames w !! data = Some df ->
  NoDup (column_names df) ->
  (3 <= length (select_number (columns df)))%nat ->
  exists df',
    returns_copy (statistical data) w df'
      (flat_map rolling_names (take 3 (map fst (select_number (columns df))))) /\
    extends df df' (flat_map rolling_names (take 3 (map fst (select_number (columns df))))) /\
    (aligned df -> aligned df').
Proof.
  intros Hd Hnd Hlen. set (cand := take 3 (map fst (select_number (columns df)))).
  destruct (run_steps_spec (numbers cand) (map (statistical_body fsqrt) cand))
    with (df := df) as (df' & names & Hrun & _ & Hext);
    [|by apply first_three_are_numbers|].
  { apply Forall_forall. intros f Hf. apply list_elem_of_fmap in Hf as (col & -> & Hc).
    intros d Hd'. destruct (statistical_body_spec fsqrt cand col Hc d Hd')
      as (d' & ? & ? & ?). eauto. }
  assert (names = flat_map rolling_names cand) as ->.
  { eapply run_steps_names; [|exact Hrun].
    intros x d d' ns. apply statistical_body_names. }
  exists df'. split; [by eapply statistical_run|]. split; [done|].
  intros Hal. eapply (run_steps_keeps aligned); [|exact Hal|exact Hrun].
  apply Forall_forall. intros f Hf. apply list_elem_of_fmap in Hf as (col & -> & _).
  intros d d' ns Hd' Hb. by eapply statistical_body_aligned.
Qed.


Lemma statistical_any (data : nat) (df : DataFrame) (w : World) :
  frames w !! data = Some df ->
  NoDup (column_names df) ->
  exists df' names,
    returns_copy (statistical data) w df' names /\
    extends df df' names /\
    (aligned df -> aligned df').
Proof.
  intros Hd Hnd.
  destruct (Nat.lt_ge_cases (length (select_number (columns df))) 3) as [Hlt|Hge].
  - exists df, []. split; [by apply statistical_skip|]. split; [apply extends_refl|done].
  - destruct (statistical_method data df w Hd Hnd Hge) as (df' & ? & ? & ?). eauto.
Qed.

Lemma create_no_target (data : nat) (df : DataFrame) (w : World) :
  frames w !! data = Some df ->
  NoDup (column_names df) ->
  exists result w' df' names,
    create data None w = (Some result, w') /\
    frames w' !! result = Some df' /\
    self w' = extend_created names (self w) /\
    extends df df' names /\
    ((forall xs r, parse_datetimes xs = Some r -> length r = length xs) ->
     aligned df -> aligned df').
Proof.
  intros Hd Hnd. unfold create_features, mbind, M_bind, bind.
  rewrite (copy_run _ _ _ Hd).
  set (r0 := fresh (dom (frames w))).
  set (w0 := mkWorld (<[r0 := df]> (frames w)) (self w)).
  assert (H0 : frames w0 !! r0 = Some df) by apply lookup_insert_eq.
  destruct (temporal_method r0 df w0 H0) as (df1 & n1 & Hr1 & He1 & Ha1 & _).
  unfold returns_copy in Hr1. rewrite Hr1.
  set (r1 := fresh (dom (frames w0))).
  set (w1 := mkWorld (<[r1 := df1]> (frames w0)) (extend_created n1 (self w0))).
  assert (H1 : frames w1 !! r1 = Some df1) by apply lookup_insert_eq.
  assert (Hnd1 : NoDup (column_names df1)) by (by apply He1).
  destruct (interaction_method r1 df1 w1 H1 Hnd1) as (df2 & n2 & Hr2 & He2 & Ha2 & _).
  unfold returns_copy in Hr2. rewrite Hr2.
  set (r2 := fresh (dom (frames w1))).
  set (w2 := mkWorld (<[r2 := df2]> (frames w1)) (extend_created n2 (self w1))).
  assert (H2 : frames w2 !! r2 = Some df2) by apply lookup_insert_eq.
  assert (Hnd2 : NoDup (column_names df2)) by (by apply He2).
  destruct (statistical_any r2 df2 w2 H2 Hnd2) as (df3 & n3 & Hr3 & He3 & Ha3).
  unfold returns_copy in Hr3. rewrite Hr3.
  unfold deref. cbn [frames]. rewrite lookup_insert_eq. cbn [target_given ret].
  eexists _, _, df3, (n1 ++ n2 ++ n3). split; [reflexivity|].
  cbn [frames self]. split; [apply lookup_insert_eq|]. split.
  - subst w2 w1 w0. cbn [self]. by rewrite !extend_created_app, ?app_assoc.
  - split; [eapply extends_trans; [exact He1|by eapply extends_trans]|]. auto.
Qed.

(** X10.  [_create_interaction_features] never raises on a table with
    distinct column names, whether or not the generated names are already
    taken.  It records one or two names for each pair of the at most five
    candidate columns, so at most twenty, and each of them is a column of the
    returned table, which has the rows and, first and in order, the columns
    of the input. *)
Theorem interaction_records_at_most_twenty_names (w : World) (data : nat) (df : DataFrame) :
  frames w !! data = Some df ->
  NoDup (column_names df) ->
  exists result w' df' names,
    _create_interaction_features data w = (Some result, w') /\
    frames w' !! result = Some df' /\
    created_features (self w') = created_features (self w) ++ names /\
    (length (pairs (interaction_candidates df)) <= length names
     <= 2 * length (pairs (interaction_candidates df)))%nat /\
    (length names <= 20)%nat /\
    (forall x, x ∈ names -> x ∈ column_names df') /\
    column_names df `prefix_of` column_names df' /\
    NoDup (column_names df') /\
    index_len df' = index_len df.
Proof.
  intros Hd Hnd.
  destruct (interaction_method data df w Hd Hnd)
    as (df' & names & Hrun & (Hlen & Hpre & Hnd' & Hin) & _ & Hcount).
  unfold returns_copy in Hrun. eexists _, _, df', names. split; [exact Hrun|].
  cbn [frames self created_features extend_created].
  split; [apply lookup_insert_eq|]. split; [done|]. split; [done|]. split.
  - pose proof (pairs_length (interaction_candidates df)) as Hp.
    pose proof (interaction_candidates_length df) as Hc. nia.
  - auto.
Qed.

(** X11.  With fewer than three numeric columns
    [_create_statistical_features] returns a copy that equals its input and
    leaves the engineer as it was. *)
Theorem statistical_features_need_three_numeric_columns
    (w : World) (data : nat) (df : DataFrame) :
  frames w !! data = Some df ->
  (length (select_number (columns df)) < 3)%nat ->
  exists result w',
    statistical data w = (Some result, w') /\
    result <> data /\
    frames w' !! result = Some df /\
    self w' = self w.
Proof.
  intros Hd Hlen. pose proof (statistical_skip data df w Hd Hlen) as Hrun.
  unfold returns_copy in Hrun. eexists _, _. split; [exact Hrun|].
  cbn [frames self]. split; [by eapply fresh_ne|]. split; [apply lookup_insert_eq|].
  apply extend_created_nil.
Qed.

(** X12.  With at least three numeric columns and distinct column names
    [_create_statistical_features] returns, and records exactly six names:
    [<col>_rolling_mean] and [<col>_rolling_std] for the first three numeric
    columns, in this order.  All six are columns of the returned table. *)
Theorem statistical_features_of_first_three_numeric_columns
    (w : World) (data : nat) (df : DataFrame) :
  frames w !! data = Some df ->
  NoDup (column_names df) ->
  (3 <= length (select_number (columns df)))%nat ->
  let names := flat_map rolling_names (take 3 (map fst (select_number (columns df)))) in
  exists result w' df',
    statistical data w = (Some result, w') /\
    frames w' !! result = Some df' /\
    created_features (self w') = created_features (self w) ++ names /\
    length names = 6%nat /\
    (forall x, x ∈ names -> x ∈ column_names df') /\
    column_names df `prefix_of` column_names df' /\
    NoDup (column_names df') /\
    index_len df' = index_len df.
Proof.
  intros Hd Hnd Hge names.
  destruct (statistical_method data df w Hd Hnd Hge)
    as (df' & Hrun & (Hlen & Hpre & Hnd' & Hin) & _).
  unfold returns_copy in Hrun. eexists _, _, df'. split; [exact Hrun|].
  cbn [frames self created_features extend_created].
  split; [apply lookup_insert_eq|]. split; [done|]. split; [|auto].
  subst names. rewrite <- (length_map fst) in Hge.
  destruct (map fst (select_number (columns df))) as [|a [|b [|c l]]]; simpl in *; lia.
Qed.

(** X9.  On a table whose column labels are strings, no two of them
    equal, [_create_temporal_features] does not raise: it returns a new table
    with as many rows, the columns of the input first and in their order,
    distinct names, and every name it records as a column.  It records at
    most five names for each column whose name contains 'date' or 'time',
    whatever the case of the letters; when there is no such column the new
    table equals the input and nothing is recorded.  (The test of a name
    calls [col.lower()] before the [try] is entered, so a label that is no
    string is an error there; the tables here have strings as labels.) *)
Theorem temporal_features_never_raise (w : World) (data : nat) (df : DataFrame) :
  frames w !! data = Some df ->
  NoDup (column_names df) ->
  exists result w' df' names,
    temporal data w = (Some result, w') /\
    frames w' !! result = Some df' /\
    created_features (self w') = created_features (self w) ++ names /\
    (forall x, x ∈ names -> x ∈ column_names df') /\
    column_names df `prefix_of` column_names df' /\
    NoDup (column_names df') /\
    index_len df' = index_len df /\
    ((forall c, c ∈ column_names df -> is_temporal_name c = false) ->
     df' = df /\ names = []) /\
    (length names
     <= 5 * length (filter (fun col => is_temporal_name col = true) (column_names df)))%nat.
Proof.
  intros Hd Hnd.
  destruct (temporal_method data df w Hd)
    as (df' & names & Hrun & (Hlen & Hpre & Hnd' & Hin) & _ & Hnone & Hcount).
  unfold returns_copy in Hrun. eexists _, _, df', names. split; [exact Hrun|].
  cbn [frames self created_features extend_created].
  split; [apply lookup_insert_eq|]. auto 10.
Qed.

(** X13.  Without a target column [create_features] returns on every
    table whose column labels are strings, no two of them equal.  The
    returned table has as many rows, distinct column names, the columns of
    the input first and in their order, and every name added to
    [created_features] as a column.  (A label that is no string makes
    [col.lower()] raise in [_create_temporal_features]; the tables here have
    strings as labels.) *)
Theorem create_features_without_target_returns (w : World) (data : nat) (df : DataFrame) :
  frames w !! data = Some df ->
  NoDup (column_names df) ->
  exists result w' df' names,
    create data None w = (Some result, w') /\
    frames w' !! result = Some df' /\
    created_features (self w') = created_features (self w) ++ names /\
    (forall x, x ∈ names -> x ∈ column_names df') /\
    column_names df `prefix_of` column_names df' /\
    NoDup (column_names df') /\
    index_len df' = index_len df.
Proof.
  intros Hd Hnd.
  destruct (create_no_target data df w Hd Hnd)
    as (result & w' & df' & names & Hrun & Hres & Hself & (Hlen & Hpre & Hnd' & Hin) & _).
  exists result, w', df', names. rewrite Hself. cbn [created_features extend_created].
  auto 10.
Qed.

(** X14.  When the date parser answers with as many timestamps as it was
    given strings, [create_features] without a target column turns a
    well-formed table, whose labels are distinct strings and whose columns
    are as long as the index, into a well-formed table with the same number
    of rows: every new column is as long as the index.  (Labels that are no
    strings make [col.lower()] raise in [_create_temporal_features]; the
    tables here have strings as labels.) *)
Theorem create_features_keeps_columns_aligned (w : World) (data : nat) (df : DataFrame) :
  (forall xs r, parse_datetimes xs = Some r -> length r = length xs) ->
  frames w !! data = Some df ->
  wf_frame df ->
  exists result w' df',
    create data None w = (Some result, w') /\
    frames w' !! result = Some df' /\
    wf_frame df' /\
    num_rows df' = num_rows df.
Proof.
  intros Hparse Hd [Hal Hnd].
  destruct (create_no_target data df w Hd Hnd)
    as (result & w' & df' & names & Hrun & Hres & Hself & (Hlen & Hpre & Hnd' & Hin) & Hal').
  exists result, w', df'. split; [done|]. split; [done|]. split; [|done].
  split; [auto|]. by apply Hnd'.
Qed.

End Methods.


(** ** The best scores *)

Lemma ascending_insert (score : nat -> Q) (i : nat) (l : list nat) :
  ascending score l -> ascending score (insert_by score i l).
Proof.
  induction l as [|j l IH]; cbn [insert_by ascending].
  - intros _. split; [constructor|done].
  - intros [Hj Hl]. destruct (Qle_bool (score i) (score j)) eqn:E.
    + apply Qle_bool_iff in E. cbn [ascending]. split; [|by split].
      constructor; [done|]. eapply Forall_impl; [exact Hj|].
      intros x Hx. simpl in Hx. by apply (Qle_trans _ (score j)).
    + assert (Hlt : (score j < score i)%Q).
      { apply Qnot_le_lt. intros H. apply Qle_bool_iff in H. congruence. }
      cbn [ascending]. split; [|by apply IH].
      rewrite (insert_by_perm score i l). constructor; [by apply Qlt_le_weak|done].
Qed.

Lemma argsort_ascending (scores : list Q) :
  ascending (fun i => nth i scores 0%Q) (argsort scores).
Proof.
  unfold argsort. induction (seq 0 (length scores)) as [|i l IH]; [done|].
  cbn [foldr]. by apply ascending_insert.
Qed.

Lemma ascending_app (score : nat -> Q) (l1 l2 : list nat) (x y : nat) :
  ascending score (l1 ++ l2) -> x ∈ l1 -> y ∈ l2 -> (score x <= score y)%Q.
Proof.
  induction l1 as [|a l1 IH]; intros Hs Hx Hy; [inversion Hx|].
  cbn [app ascending] in Hs. destruct Hs as [Ha Hs].
  apply elem_of_cons in Hx as [->|Hx]; [|by apply IH].
  rewrite Forall_forall in Ha. apply Ha. apply elem_of_app. by right.
Qed.

(** An index outside the last [k] of the sort has no better score than one
    inside. *)
Lemma top_dominates (scores : list Q) (k i j : nat) :
  i ∈ drop (length scores - k) (argsort scores) ->
  j ∉ drop (length scores - k) (argsort scores) ->
  (j < length scores)%nat ->
  (nth j scores 0 <= nth i scores 0)%Q.
Proof.
  intros Hi Hj Hlt.
  pose proof (argsort_ascending scores) as Hs.
  rewrite <- (take_drop (length scores - k) (argsort scores)) in Hs.
  apply (ascending_app _ _ _ j i Hs); [|done].
  assert (Hin : j ∈ argsort scores).
  { rewrite (argsort_perm scores). apply elem_of_seq. lia. }
  rewrite <- (take_drop (length scores - k) (argsort scores)) in Hin.
  apply elem_of_app in Hin as [?|?]; done.
Qed.

Lemma by_mask_elem {A} (l : list A) (mask : list bool) (x : A) :
  x ∈ by_mask l mask <-> exists i, l !! i = Some x /\ mask !! i = Some true.
Proof.
  revert mask. induction l as [|a l IH]; intros [|b mask]; cbn [by_mask].
  - split; [intros H; inversion H|]. by intros (i & H & _).
  - split; [intros H; inversion H|]. by intros (i & H & _).
  - split; [intros H; inversion H|]. by intros ([|i] & _ & H).
  - destruct b.
    + rewrite elem_of_cons, IH. split.
      * intros [->|(i & H1 & H2)]; [by exists O | by exists (S i)].
      * intros ([|i] & H1 & H2); simpl in *; [left; congruence | right; eauto].
    + rewrite IH. split.
      * intros (i & H1 & H2). by exists (S i).
      * intros ([|i] & H1 & H2); simpl in *; [discriminate | eauto].
Qed.

Lemma get_support_lookup (scores : list Q) (k i : nat) :
  get_support scores (S k) !! i = Some true <->
  i ∈ drop (length scores - S k) (argsort scores) /\ (i < length scores)%nat.
Proof.
  cbn [get_support]. rewrite list_lookup_fmap. split.
  - intros H. destruct (seq 0 (length scores) !! i) as [j|] eqn:E; [|discriminate].
    apply lookup_seq in E as [-> Hlt]. simpl in H. injection H as H.
    apply bool_decide_eq_true in H. done.
  - intros [Hin Hlt]. rewrite (lookup_seq_lt _ _ _ Hlt). simpl.
    by rewrite bool_decide_true.
Qed.

(** ** What the scores are stored under *)

Lemma store_lookup (scored : list (string * Q)) (m : gmap string Q) :
  NoDup (map fst scored) ->
  (forall n q, (n, q) ∈ scored ->
     foldl (fun m fs => <[fs.1 := fs.2]> m) m scored !! n = Some q) /\
  (forall n, n ∉ map fst scored ->
     foldl (fun m fs => <[fs.1 := fs.2]> m) m scored !! n = m !! n).
Proof.
  revert m. induction scored as [|[n0 q0] scored IH]; intros m Hnd; cbn [foldl].
  - split; [intros n q H; inversion H|done].
  - cbn [map fst] in Hnd. apply NoDup_cons in Hnd as [Hn0 Hnd].
    destruct (IH (<[n0 := q0]> m) Hnd) as [Hin Hout]. split.
    + intros n q H. apply elem_of_cons in H as [[= -> ->]|H]; [|by apply Hin].
      rewrite Hout by done. apply lookup_insert_eq.
    + intros n Hn. cbn [map fst] in Hn. apply not_elem_of_cons in Hn as [Hne Hn].
      rewrite Hout by done. by apply lookup_insert_ne.
Qed.

Lemma store_dom (scored : list (string * Q)) (m : gmap string Q) :
  dom m ⊆ dom (foldl (fun m fs => <[fs.1 := fs.2]> m) m scored).
Proof.
  revert m. induction scored as [|[n0 q0] scored IH]; intros m; cbn [foldl]; [done|].
  etrans; [|apply IH]. rewrite dom_insert_L. apply union_subseteq_r.
Qed.

Section Selection.

Variable check_X_y : list Series -> Series -> bool.
Variable mutual_info_classif : nat -> Series -> Series -> Q.

Local Abbreviation select := (_select_features check_X_y mutual_info_classif).

Lemma select_run (w : World) (data : nat) (df : DataFrame) (t : string) (y : Series) :
  frames w !! data = Some df ->
  NoDup (column_names df) ->
  lookup_column t (columns df) = Some y ->
  let X_numeric := select_number (filter (fun c => c.1 <> t) (columns df)) in
  (0 < length X_numeric)%nat ->
  0 <= max_features (self w) ->
  check_X_y (map snd X_numeric) y = true ->
  let k := Z.to_nat (Z.min (max_features (self w)) (Z.of_nat (length X_numeric))) in
  let scores := imap (fun i c => mutual_info_classif i c.2 y) X_numeric in
  let mask := get_support scores k in
  select data t w
  = (Some (fresh (dom (frames w))),
     mkWorld (<[fresh (dom (frames w))
                := mkDataFrame (index_len df) (by_mask X_numeric mask ++ [(t, y)])]>
                (frames w))
             (mkEngineer (max_features (self w)) (created_features (self w))
                         (by_mask (map fst X_numeric) mask)
                         (foldl (fun m fs => <[fs.1 := fs.2]> m)
                                (feature_importance (self w))
                                (zip (map fst X_numeric) scores)))).
Proof.
  intros Hd Hnd Hy X_numeric Hpos Hmax Hcheck k scores mask.
  set (X := filter (fun c => c.1 <> t) (columns df)) in *.
  unfold _select_features, mbind, M_bind, bind, deref.
  rewrite Hd. unfold drop_column. rewrite Hy.
  cbn [lift ret]. fold X. fold X_numeric.
  destruct (Nat.eqb_spec (length X_numeric) 0) as [|_]; [lia|].
  unfold get_max_features, fit.
  destruct (Z.ltb_spec (Z.min (max_features (self w)) (Z.of_nat (length X_numeric))) 0)
    as [|_]; [lia|].
  rewrite Hcheck. cbn [lift ret]. fold scores. fold k. fold mask.
  destruct (drop_column_names t (columns df) Hnd) as [HXnd HXt].
  fold X in HXnd, HXt.
  assert (Hchosen : forall c, c ∈ by_mask X_numeric mask -> c ∈ X).
  { intros c Hc.
    assert (c ∈ X_numeric) as Hx
      by (eapply elem_of_sublist; [exact Hc|apply by_mask_sublist]).
    by apply select_number_elem in Hx as [Hx _]. }
  unfold set_selected, store_importance. cbn [frames self].
  rewrite by_mask_map.
  rewrite (select_columns_sub _ X HXnd Hchosen).
  cbn [lift ret]. unfold alloc, mutate. cbn [frames self].
  rewrite lookup_insert_eq. cbn [frames self].
  rewrite insert_insert_eq.
  unfold setitem. cbn [index_len columns].
  rewrite assign_column_fresh.
  2:{ intros H. apply list_elem_of_fmap in H as (c & -> & Hc).
      apply HXt. apply list_elem_of_fmap. exists c. split; [done|]. by apply Hchosen. }
  unfold ret, extend_created. cbn [max_features created_features selected_features
                                   feature_importance].
  by rewrite app_nil_r.
Qed.


Lemma numeric_predictor_names (df : DataFrame) (t : string) :
  NoDup (column_names df) ->
  NoDup (map fst (select_number (filter (fun c => c.1 <> t) (columns df)))).
Proof.
  intros Hnd. eapply sublist_NoDup; [exact Hnd|]. apply (fmap_sublist fst).
  etrans; [apply sublist_filter|apply sublist_filter].
Qed.

(** X15.  When [_select_features] selects, it selects exactly
    [min(max_features, numeric_predictor_count)] names, and no numeric
    predictor that is left out has a greater score than one that is
    selected. *)
Theorem selected_features_have_the_best_scores
    (w : World) (data : nat) (df : DataFrame) (t : string) (y : Series) :
  frames w !! data = Some df ->
  NoDup (column_names df) ->
  lookup_column t (columns df) = Some y ->
  let X_numeric := select_number (filter (fun c => c.1 <> t) (columns df)) in
  (0 < length X_numeric)%nat ->
  0 <= max_features (self w) ->
  check_X_y (map snd X_numeric) y = true ->
  let chosen := selected_features (self (select data t w).2) in
  length chosen = Nat.min (Z.to_nat (max_features (self w))) (length X_numeric) /\
  forall i j ci cj,
    X_numeric !! i = Some ci -> X_numeric !! j = Some cj ->
    ci.1 ∈ chosen -> cj.1 ∉ chosen ->
    (mutual_info_classif j cj.2 y <= mutual_info_classif i ci.2 y)%Q.
Proof.
  intros Hd Hnd Hy X_numeric Hpos Hmax Hcheck chosen. subst chosen.
  rewrite (select_run w data df t y Hd Hnd Hy Hpos Hmax Hcheck).
  fold X_numeric. cbn [snd self selected_features].
  set (k := Z.to_nat (Z.min (max_features (self w)) (Z.of_nat (length X_numeric)))).
  set (scores := imap (fun i c => mutual_info_classif i c.2 y) X_numeric).
  assert (Hscores : length scores = length X_numeric) by apply length_imap.
  assert (Hk : k = Nat.min (Z.to_nat (max_features (self w))) (length X_numeric))
    by (unfold k; lia).
  pose proof (numeric_predictor_names df t Hnd) as Hnames. fold X_numeric in Hnames.
  split.
  - rewrite get_support_count; [done|by rewrite length_map|lia].
  - intros i j ci cj Hi Hj Hin Hout.
    assert (Hsi : scores !! i = Some (mutual_info_classif i ci.2 y))
      by (unfold scores; by rewrite list_lookup_imap, Hi).
    assert (Hsj : scores !! j = Some (mutual_info_classif j cj.2 y))
      by (unfold scores; by rewrite list_lookup_imap, Hj).
    rewrite <- (nth_lookup_Some _ _ 0%Q _ Hsi), <- (nth_lookup_Some _ _ 0%Q _ Hsj).
    apply by_mask_elem in Hin as (i' & Hi' & Hmask).
    assert (i' = i) as ->.
    { eapply NoDup_lookup; [exact Hnames|exact Hi'|]. by rewrite list_lookup_fmap, Hi. }
    destruct k as [|k'].
    { cbn [get_support] in Hmask. rewrite list_lookup_fmap in Hmask.
      destruct (scores !! i); discriminate. }
    apply get_support_lookup in Hmask as [Htop _].
    apply (top_dominates scores (S k')); [done| |].
    + intros Hjtop. apply Hout. apply by_mask_elem. exists j.
      split; [by rewrite list_lookup_fmap, Hj|].
      apply get_support_lookup. split; [done|].
      rewrite Hscores. by eapply lookup_lt_Some.
    + rewrite Hscores. by eapply lookup_lt_Some.
Qed.

(** X16.  When [_select_features] selects, [feature_importance] holds
    the score of every numeric predictor, selected or not, and keeps what it
    held for every other name. *)
Theorem every_numeric_predictor_is_scored
    (w : World) (data : nat) (df : DataFrame) (t : string) (y : Series) :
  frames w !! data = Some df ->
  NoDup (column_names df) ->
  lookup_column t (columns df) = Some y ->
  let X_numeric := select_number (filter (fun c => c.1 <> t) (columns df)) in
  (0 < length X_numeric)%nat ->
  0 <= max_features (self w) ->
  check_X_y (map snd X_numeric) y = true ->
  let stored := feature_importance (self (select data t w).2) in
  (forall i c, X_numeric !! i = Some c ->
     stored !! c.1 = Some (mutual_info_classif i c.2 y)) /\
  (forall n, n ∉ map fst X_numeric -> stored !! n = feature_importance (self w) !! n).
Proof.
  intros Hd Hnd Hy X_numeric Hpos Hmax Hcheck stored. subst stored.
  rewrite (select_run w data df t y Hd Hnd Hy Hpos Hmax Hcheck).
  fold X_numeric. cbn [snd self feature_importance].
  set (scores := imap (fun i c => mutual_info_classif i c.2 y) X_numeric).
  assert (Hscores : length scores = length X_numeric) by apply length_imap.
  pose proof (numeric_predictor_names df t Hnd) as Hnames. fold X_numeric in Hnames.
  assert (Hkeys : map fst (zip (map fst X_numeric) scores) = map fst X_numeric).
  { apply fst_zip. rewrite length_map. lia. }
  destruct (store_lookup (zip (map fst X_numeric) scores) (feature_importance (self w)))
    as [Hin Hout]; [by rewrite Hkeys|].
  split.
  - intros i c Hi. apply Hin. apply (list_elem_of_lookup_2 _ i).
    unfold zip. apply lookup_zip_with_Some. exists c.1, (mutual_info_classif i c.2 y).
    split; [done|]. split; [by rewrite list_lookup_fmap, Hi|].
    unfold scores. by rewrite list_lookup_imap, Hi.
  - intros n Hn. apply Hout. by rewrite Hkeys.
Qed.

End Selection.


(** ** What every call keeps of the engineer *)

Section Invariants.

Variable parse_datetimes : list (option string) -> option (list (option Z)).
Variables year month day dayofweek quarter : Z -> Z.
Variable fsqrt : Q -> Q.
Variable check_X_y : list Series -> Series -> bool.
Variable mutual_info_classif : nat -> Series -> Series -> Q.

Local Abbreviation select := (_select_features check_X_y mutual_info_classif).
Local Abbreviation create :=
  (create_features parse_datetimes year month day dayofweek quarter
     fsqrt check_X_y mutual_info_classif).

Lemma safe_select_keeps (I : FeatureEngineer -> Prop) (data : nat) (t : string) :
  stable I ->
  (forall names e, I e ->
     I (mkEngineer (max_features e) (created_features e) names (feature_importance e))) ->
  (forall scored e, I e ->
     I (mkEngineer (max_features e) (created_features e) (selected_features e)
          (foldl (fun m fs => <[fs.1 := fs.2]> m) (feature_importance e) scored))) ->
  safe ∅ I (select data t) (fun _ => True).
Proof.
  intros Hst Hsel Hsto. unfold _select_features.
  eapply safe_bind; [apply safe_deref|]. intros df _.
  eapply safe_bind with (P := fun _ => True); [by apply safe_lift|]. intros X _.
  eapply safe_bind with (P := fun _ => True); [by apply safe_lift|]. intros y _.
  simpl. destruct (_ =? 0)%nat; [by apply safe_ret|].
  eapply safe_bind with (P := fun _ => True); [by intros w ? ?|]. intros limit _.
  eapply safe_bind with (P := fun _ => True); [by apply safe_lift|]. intros scores _.
  eapply safe_bind with (P := fun _ => True).
  { intros w HD Hi. unfold set_selected. cbn [fst snd frames self].
    split; [done|]. split; [done|]. split; [by apply Hsel|done]. }
  intros _ _.
  eapply safe_bind with (P := fun _ => True).
  { intros w HD Hi. unfold store_importance. cbn [fst snd frames self].
    split; [done|]. split; [done|]. split; [by apply Hsto|done]. }
  intros _ _.
  eapply safe_bind with (P := fun _ => True); [by apply safe_lift|]. intros chosen _.
  eapply safe_bind with (P := fun _ => True);
    [eapply safe_weaken; [apply safe_alloc|done]|]. intros r _.
  eapply safe_bind; [by apply safe_mutate|]. intros _ _. by apply safe_ret.
Qed.

(** X17.  No call of [create_features], returning or raising, changes
    [max_features], and none removes a name from [feature_importance]: the
    scores of earlier calls stay. *)
Theorem create_features_keeps_limit_and_scored_names
    (w : World) (data : nat) (target_column : option string) :
  max_features (self (create data target_column w).2) = max_features (self w) /\
  dom (feature_importance (self w))
    ⊆ dom (feature_importance (self (create data target_column w).2)).
Proof.
  set (I := fun e : FeatureEngineer =>
              max_features e = max_features (self w) /\
              dom (feature_importance (self w)) ⊆ dom (feature_importance e)).
  assert (Hst : stable I) by (by intros names e).
  assert (Hsafe : safe ∅ I (create data target_column) (fun _ => True)).
  { unfold create_features.
    eapply safe_bind; [apply safe_copy|]. intros r0 _.
    eapply safe_bind; [by apply safe_temporal|]. intros r1 _.
    eapply safe_bind; [by apply safe_interaction|]. intros r2 _.
    eapply safe_bind; [by apply safe_statistical|]. intros r3 _.
    eapply safe_bind; [apply safe_deref|]. intros df _.
    destruct (target_given target_column df); [|by apply safe_ret].
    apply safe_select_keeps; [done|by intros names e|].
    intros scored e [Hm Hd]. split; [done|]. cbn [feature_importance].
    etrans; [exact Hd|apply store_dom]. }
  destruct (Hsafe w) as (_ & _ & HI & _); [apply empty_subseteq|by split|].
  exact HI.
Qed.

End Invariants.


(** ** The examples *)

Import Examples.

Lemma table_xyz_wf : wf_frame table_xyz.
Proof.
  split; [by repeat constructor | apply (bool_decide_unpack _); by vm_compute].
Defined.

Lemma table_names_distinct (df : DataFrame) :
  bool_decide (NoDup (column_names df)) = true -> NoDup (column_names df).
Proof. apply bool_decide_eq_true. Defined.

Lemma interaction_records_at_most_twenty_names_witness :
  exists result w' df' names,
    _create_interaction_features 0 (world_of table_ab 50) = (Some result, w') /\
    frames w' !! result = Some df' /\
    created_features (self w') = created_features (self (world_of table_ab 50)) ++ names /\
    (length (pairs (interaction_candidates table_ab)) <= length names
     <= 2 * length (pairs (interaction_candidates table_ab)))%nat /\
    (length names <= 20)%nat /\
    (forall x, x ∈ names -> x ∈ column_names df') /\
    column_names table_ab `prefix_of` column_names df' /\
    NoDup (column_names df') /\
    index_len df' = index_len table_ab.
Proof.
  apply interaction_records_at_most_twenty_names;
    [reflexivity | apply table_names_distinct; reflexivity].
Defined.

Lemma statistical_features_need_three_numeric_columns_witness :
  exists result w',
    _create_statistical_features sqrt0 0 (world_of table_ab 50) = (Some result, w') /\
    result <> 0%nat /\
    frames w' !! result = Some table_ab /\
    self w' = self (world_of table_ab 50).
Proof.
  apply statistical_features_need_three_numeric_columns; [reflexivity | vm_compute; lia].
Defined.

Lemma statistical_features_of_first_three_numeric_columns_witness :
  exists result w' df',
    _create_statistical_features sqrt0 0 (world_of table_xyz 50) = (Some result, w') /\
    frames w' !! result = Some df' /\
    created_features (self w')
    = created_features (self (world_of table_xyz 50))
      ++ flat_map rolling_names (take 3 (map fst (select_number (columns table_xyz)))) /\
    length (flat_map rolling_names (take 3 (map fst (select_number (columns table_xyz)))))
    = 6%nat /\
    (forall x,
       x ∈ flat_map rolling_names (take 3 (map fst (select_number (columns table_xyz)))) ->
       x ∈ column_names df') /\
    column_names table_xyz `prefix_of` column_names df' /\
    NoDup (column_names df') /\
    index_len df' = index_len table_xyz.
Proof.
  apply (statistical_features_of_first_three_numeric_columns sqrt0);
    [reflexivity | exact (proj2 table_xyz_wf) | vm_compute; lia].
Defined.

(** A table with the column [Event_Time] and a column of counts. *)
Lemma temporal_features_never_raise_witness :
  exists result w' df' names,
    _create_temporal_features no_dates field0 field0 field0 field0 field0 0
      (world_of table_events 50) = (Some result, w') /\
    frames w' !! result = Some df' /\
    created_features (self w')
      = created_features (self (world_of table_events 50)) ++ names /\
    (forall x, x ∈ names -> x ∈ column_names df') /\
    column_names table_events `prefix_of` column_names df' /\
    NoDup (column_names df') /\
    index_len df' = index_len table_events /\
    ((forall c, c ∈ column_names table_events -> is_temporal_name c = false) ->
     df' = table_events /\ names = []) /\
    (length names
     <= 5 * length (filter (fun col => is_temporal_name col = true)
                      (column_names table_events)))%nat.
Proof.
  apply temporal_features_never_raise;
    [reflexivity | apply table_names_distinct; reflexivity].
Defined.

(** The five columns made from [Event_Time], and the column itself turned
    into timestamps. *)
Example temporal_features_of_table_events :
  exists result df',
    (_create_temporal_features no_dates field0 field0 field0 field0 field0 0
       (world_of table_events 50)).1 = Some result /\
    frames (_create_temporal_features no_dates field0 field0 field0 field0 field0 0
              (world_of table_events 50)).2 !! result = Some df' /\
    column_names df'
      = ["Event_Time"; "count"; "Event_Time_year"; "Event_Time_month"; "Event_Time_day";
         "Event_Time_dayofweek"; "Event_Time_quarter"]%string /\
    lookup_column "Event_Time" (columns df')
      = Some (SDatetime [Some 0; Some 1000000000; Some 2000000000]) /\
    created_features
      (self (_create_temporal_features no_dates field0 field0 field0 field0 field0 0
               (world_of table_events 50)).2)
      = ["Event_Time_year"; "Event_Time_month"; "Event_Time_day";
         "Event_Time_dayofweek"; "Event_Time_quarter"]%string.
Proof. eexists _, _. vm_compute. repeat split; reflexivity. Qed.

Lemma create_features_without_target_returns_witness :
  exists result w' df' names,
    Examples.create_features 0 None (world_of table_xyz 50) = (Some result, w') /\
    frames w' !! result = Some df' /\
    created_features (self w') = created_features (self (world_of table_xyz 50)) ++ names /\
    (forall x, x ∈ names -> x ∈ column_names df') /\
    column_names table_xyz `prefix_of` column_names df' /\
    NoDup (column_names df') /\
    index_len df' = index_len table_xyz.
Proof.
  apply create_features_without_target_returns;
    [reflexivity | exact (proj2 table_xyz_wf)].
Defined.

Lemma create_features_keeps_columns_aligned_witness :
  exists result w' df',
    Examples.create_features 0 None (world_of table_xyz 50) = (Some result, w') /\
    frames w' !! result = Some df' /\
    wf_frame df' /\
    num_rows df' = num_rows table_xyz.
Proof.
  apply create_features_keeps_columns_aligned;
    [intros xs r H; discriminate H | reflexivity | exact table_xyz_wf].
Defined.

Lemma selected_features_have_the_best_scores_witness :
  length (selected_features
            (self (_select_features accept score0 0 "t" (world_of table_target 1)).2))
  = Nat.min (Z.to_nat (max_features (self (world_of table_target 1))))
            (length (select_number (filter (fun c => c.1 <> "t"%string)
                                           (columns table_target)))) /\
  forall i j ci cj,
    select_number (filter (fun c => c.1 <> "t"%string) (columns table_target)) !! i
      = Some ci ->
    select_number (filter (fun c => c.1 <> "t"%string) (columns table_target)) !! j
      = Some cj ->
    ci.1 ∈ selected_features
             (self (_select_features accept score0 0 "t" (world_of table_target 1)).2) ->
    cj.1 ∉ selected_features
             (self (_select_features accept score0 0 "t" (world_of table_target 1)).2) ->
    (score0 j cj.2 (SInt [0; 1; 0]%Z) <= score0 i ci.2 (SInt [0; 1; 0]%Z))%Q.
Proof.
  apply (selected_features_have_the_best_scores accept score0 (world_of table_target 1)
           0%nat table_target "t" (SInt [0; 1; 0]));
    [reflexivity | apply table_names_distinct; reflexivity | reflexivity
    | vm_compute; lia | vm_compute; discriminate | reflexivity].
Defined.

Lemma every_numeric_predictor_is_scored_witness :
  (forall i c,
     select_number (filter (fun c => c.1 <> "t"%string) (columns table_target)) !! i
       = Some c ->
     feature_importance
       (self (_select_features accept score0 0 "t" (world_of table_target 1)).2) !! c.1
     = Some (score0 i c.2 (SInt [0; 1; 0]))) /\
  (forall n,
     n ∉ map fst (select_number (filter (fun c => c.1 <> "t"%string)
                                        (columns table_target))) ->
     feature_importance
       (self (_select_features accept score0 0 "t" (world_of table_target 1)).2) !! n
     = feature_importance (self (world_of table_target 1)) !! n).
Proof.
  apply (every_numeric_predictor_is_scored accept score0 (world_of table_target 1)
           0%nat table_target "t" (SInt [0; 1; 0]));
    [reflexivity | apply table_names_distinct; reflexivity | reflexivity
    | vm_compute; lia | vm_compute; discriminate | reflexivity].
Defined.

End EngineerProperties.

(** * More of the pipeline generator *)

Module PipelineProperties.

Import Pipeline PipelineReasoning PipelineProofs.

(** ** Paths without a directory *)

Lemma upto_slash_none (l : list ascii) : slash ∉ l -> upto_slash l = [].
Proof.
  induction l as [|c l IH]; [done|]. rewrite not_elem_of_cons. intros [Hne Hl].
  cbn [upto_slash]. destruct (Ascii.eqb_spec c slash); [congruence|auto].
Qed.

Lemma dirname_bare (p : string) :
  slash ∉ list_ascii_of_string p -> dirname p = EmptyString.
Proof.
  intros H. unfold dirname. rewrite upto_slash_none; [done|].
  intros Hin. apply H. apply list_elem_of_In. apply list_elem_of_In in Hin.
  by apply in_rev.
Qed.

(** ** What a decoded document is *)

Lemma json_nested_ind (P : json -> Prop) :
  P JNull -> (forall b, P (JBool b)) -> (forall z, P (JInt z)) ->
  (forall q, P (JFloat q)) -> (forall s, P (JString s)) ->
  (forall l, Forall P l -> P (JArray l)) ->
  (forall members, Forall (fun kv => P kv.2) members -> P (JObject members)) ->
  forall j, P j.
Proof.
  intros Hn Hb Hi Hf Hs Hl Ho. fix IH 1.
  intros [ | b | z | q | s | l | members ];
    [exact Hn | apply Hb | apply Hi | apply Hf | apply Hs | apply Hl | apply Ho].
  - induction l as [|x l IHl]; constructor; [apply IH | exact IHl].
  - induction members as [|[k x] members IHl]; constructor; [apply IH | exact IHl].
Qed.

(** The items of a dict with string keys, no key twice, and native values. *)
Lemma dict_set_native (k : string) (v : pyval) (items : list (pyval * pyval)) :
  json_native v = true ->
  forallb (fun kv => is_string kv.1 && json_native kv.2) items = true ->
  NoDup (str_keys items) ->
  forallb (fun kv => is_string kv.1 && json_native kv.2) (dict_set k v items) = true /\
  NoDup (str_keys (dict_set k v items)) /\
  (forall x, x ∈ str_keys (dict_set k v items) -> x = k \/ x ∈ str_keys items).
Proof.
  intros Hv. induction items as [|[k0 v0] items IH]; intros Hs Hnd.
  - cbn. rewrite Hv. split; [done|]. split; [apply NoDup_singleton|].
    intros x Hx. apply list_elem_of_singleton in Hx. by left.
  - cbn [forallb fst snd] in Hs. apply andb_prop in Hs as [Hkv Hs].
    apply andb_prop in Hkv as [Hk0 Hv0].
    destruct k0 as [ | | | |s| | | | ]; try discriminate.
    change (str_keys ((PyStr s, v0) :: items)) with (s :: str_keys items) in *.
    apply NoDup_cons in Hnd as [Hs0 Hnd].
    destruct (IH Hs Hnd) as (IH1 & IH2 & IH3).
    cbn [dict_set]. destruct (String.eqb_spec s k) as [->|Hne].
    + cbn [forallb fst snd is_string andb]. rewrite Hv, Hs.
      change (str_keys ((PyStr k, v) :: items)) with (k :: str_keys items).
      split; [done|]. split; [by apply NoDup_cons|].
      intros x Hx. by right.
    + cbn [forallb fst snd is_string andb]. rewrite Hv0, IH1.
      change (str_keys ((PyStr s, v0) :: dict_set k v items))
        with (s :: str_keys (dict_set k v items)).
      split; [done|]. split.
      * apply NoDup_cons. split; [|done]. intros Hin.
        destruct (IH3 _ Hin); [congruence|done].
      * intros x Hx. apply elem_of_cons in Hx as [->|Hx]; [right; left|].
        destruct (IH3 _ Hx); [by left|right; by right].
Qed.

Lemma of_json_native (j : json) : json_native (of_json j) = true.
Proof.
  induction j as [ | b | z | q | s | l IH | members IH ] using json_nested_ind;
    cbn [of_json json_native]; try done.
  - induction IH as [|x l Hx _ IHl]; [done|]. cbn [map forallb]. by rewrite Hx, IHl.
  - assert (H : forall acc,
      forallb (fun kv => is_string kv.1 && json_native kv.2) acc = true ->
      NoDup (str_keys acc) ->
      let items := foldl (fun items kv => dict_set kv.1 kv.2 items) acc
                         (map (fun kv => (kv.1, of_json kv.2)) members) in
      forallb (fun kv => is_string kv.1 && json_native kv.2) items = true /\
      NoDup (str_keys items)).
    { induction IH as [|[k x] members Hx _ IHm]; intros acc Ha Hnd; [done|].
      cbn [map foldl fst snd].
      destruct (dict_set_native k (of_json x) acc Hx Ha Hnd) as (H1 & H2 & _).
      by apply IHm. }
    destruct (H [] eq_refl (NoDup_nil_2 (A := string))) as [H1 H2].
    rewrite H1. cbn [andb]. by apply bool_decide_eq_true.
Qed.

Section Documents.

Variable float_repr : Q -> string.

(** X21.  What [json.load] returns is a JSON-native value: encoding it
    again succeeds, and decoding the result gives the same value.  A pipeline
    that was loaded once is exported and loaded without further change. *)
Theorem decoded_document_round_trips (j : json) :
  json_native (of_json j) = true /\
  exists j', to_json float_repr (of_json j) = Some j' /\ of_json j' = of_json j.
Proof.
  split; [apply of_json_native|].
  apply native_round_trip, of_json_native.
Qed.

End Documents.


Section Saving.

Variable isoformat : nat -> string.
Variable strftime : nat -> string.
Variable py_str : pyval -> string.
Variable float_repr : Q -> string.
Variable may_create : string -> bool.
Variable may_open : string -> bool.
Variable picklable : PipelineGenerator -> bool.

Local Abbreviation save :=
  (save_pipeline isoformat strftime py_str float_repr may_create may_open picklable).

(** X18.  A path without a slash has the empty directory name, which
    [os.makedirs] refuses: [save_pipeline] returns [False] for every format
    and leaves the generator, the clock and the disk as they were. *)
Theorem bare_file_name_is_never_saved (filepath format : string) (env : Env) :
  slash ∉ list_ascii_of_string filepath ->
  save filepath format env = (false, env).
Proof.
  intros Hbare. unfold save_pipeline, save_body, makedirs.
  by rewrite (dirname_bare _ Hbare).
Qed.

Lemma all_some_None {A B} (f : A -> option B) (l : list A) (x : A) :
  x ∈ l -> f x = None -> all_some (map f l) = None.
Proof.
  intros Hin Hx. induction l as [|a l IH]; [inversion Hin|]. cbn [map all_some].
  apply elem_of_cons in Hin as [<-|Hin]; [by rewrite Hx|].
  rewrite (IH Hin). by destruct (f a).
Qed.

Lemma unserialisable_step (g : PipelineGenerator) (now : nat) (s : Step) :
  s ∈ pipeline_steps g ->
  to_json float_repr (parameters s) = None ->
  to_json float_repr (pipeline_data isoformat g now) = None.
Proof.
  intros Hin Hs. unfold pipeline_data.
  cbn [to_json map fst snd key_string all_some].
  destruct (to_json float_repr (pipeline_metadata g)); [|done].
  rewrite (all_some_None _ _ (step_dict s)); [done|by apply list_elem_of_fmap_2|].
  unfold step_dict. cbn [to_json map fst snd key_string all_some]. by rewrite Hs.
Qed.

(** X19.  When the parameters of a step cannot be encoded, the export in
    the JSON format returns [False], and the file at the path, opened before
    the encoding started, is left with a broken document. *)
Theorem failed_json_export_leaves_a_broken_file
    (filepath : string) (env : Env) (disk : FileSystem) (s : Step) :
  makedirs may_create (dirname filepath) (fs env) = Some disk ->
  filepath ∉ dirs disk ->
  may_open filepath = true ->
  s ∈ pipeline_steps (generator env) ->
  to_json float_repr (parameters s) = None ->
  (save filepath "json" env).1 = false /\
  files (fs (save filepath "json" env).2) !! filepath = Some FPartial.
Proof.
  intros Hmk Hdir Hopen Hin Hs. unfold save_pipeline, save_body. rewrite Hmk.
  change (String.eqb "json" "python") with false.
  change (String.eqb "json" "json") with true. cbv iota.
  rewrite (unserialisable_step _ _ s Hin Hs). unfold open_write.
  rewrite bool_decide_false by done. rewrite Hopen. cbn [fst snd fs files].
  split; [done|]. apply lookup_insert_eq.
Qed.

(** What comes back for a step: its name and function, and the parameters
    as the decoder reads their document. *)
Lemma exported_steps (now : nat) (calls : list (string * string * pyval)) (js : list json) :
  Forall2 (fun c j => to_json float_repr c.2 = Some j) calls js ->
  exists sj,
    all_some (map (to_json float_repr) (map step_dict (stamped isoformat now calls)))
      = Some sj /\
    all_some (map step_fields (map of_json sj))
      = Some (zip_with (fun c j => (PyStr c.1.1, PyStr c.1.2, of_json j)) calls js).
Proof.
  intros H. revert now. induction H as [|c j calls js Hc _ IH]; intros now.
  - by exists [].
  - destruct (IH (S now)) as (sj & Hsj & Hback).
    cbn [stamped map all_some]. rewrite Hsj.
    unfold step_dict at 1.
    cbn [to_json map fst snd key_string all_some name function parameters timestamp
         fmap option_fmap option_map].
    rewrite Hc. cbn [fmap option_fmap option_map].
    eexists. split; [reflexivity|].
    cbn [map all_some zip_with]. rewrite Hback.
    cbn. reflexivity.
Qed.

(** X20.  Whenever the parameters of every call can be encoded (tuples
    and keys that are no strings included), the export in the JSON format
    succeeds, and the document parsed back lists the steps in the order and
    number of the calls, with the name and function of each call and with the
    parameters as the decoder reads their document. *)
Theorem json_export_keeps_every_step (calls : list (string * string * pyval))
    (js : list json) (now : nat) (disk0 disk : FileSystem) (filepath : string) :
  Forall2 (fun c j => to_json float_repr c.2 = Some j) calls js ->
  makedirs may_create (dirname filepath) disk0 = Some disk ->
  filepath ∉ dirs disk ->
  may_open filepath = true ->
  let env := add_steps isoformat calls (mkEnv __init__ now disk0) in
  let out := save filepath "json" env in
  out.1 = true /\
  exists doc,
    (files (fs out.2) !! filepath ≫= json_load) = Some doc /\
    loaded_steps doc
    = Some (zip_with (fun c j => (PyStr c.1.1, PyStr c.1.2, of_json j)) calls js).
Proof.
  intros Hjs Hmk Hdir Hopen env out. subst out env.
  rewrite add_steps_spec. cbn [generator clock fs __init__ pipeline_steps
                               pipeline_metadata app].
  destruct (exported_steps now calls js Hjs) as (sj & Hsj & Hback).
  unfold save_pipeline, save_body. cbn [generator clock fs].
  rewrite Hmk.
  change (String.eqb "json" "python") with false.
  change (String.eqb "json" "json") with true. cbv iota.
  unfold pipeline_data. cbn [pipeline_metadata pipeline_steps].
  cbn [to_json map fst snd key_string all_some fmap option_fmap option_map].
  rewrite Hsj. cbn [fmap option_fmap option_map].
  unfold open_write. rewrite bool_decide_false by done. rewrite Hopen.
  cbn [fst snd fs files]. split; [done|].
  eexists. rewrite lookup_insert_eq. split; [reflexivity|].
  cbn. exact Hback.
Qed.

(** ** The summary and the report *)

Lemma last_app_cons {A} (l : list A) (x : A) (k : list A) :
  last (l ++ x :: k) = last (x :: k).
Proof. induction l as [|a [|b l] IH]; try done. Qed.

Lemma stamped_functions (now : nat) (calls : list (string * string * pyval)) :
  map function (stamped isoformat now calls) = map (fun c => c.1.2) calls.
Proof.
  revert now. induction calls as [|c calls IH]; intros now; [done|].
  cbn [stamped map function]. by rewrite IH.
Qed.

Lemma stamped_last (now : nat) (calls : list (string * string * pyval)) :
  calls <> [] ->
  timestamp <$> last (stamped isoformat now calls)
  = Some (isoformat (now + length calls - 1)).
Proof.
  revert now. induction calls as [|c calls IH]; intros now Hne; [done|].
  destruct calls as [|c' calls].
  - cbn. do 2 f_equal. lia.
  - change (stamped isoformat now (c :: c' :: calls))
      with (mkStep c.1.1 c.1.2 c.2 (isoformat now) :: stamped isoformat (S now) (c' :: calls)).
    change (last (?x :: stamped isoformat (S now) (c' :: calls)))
      with (last (stamped isoformat (S now) (c' :: calls))).
    rewrite IH by done. cbn [length]. do 2 f_equal. lia.
Qed.

(** X22.  [get_pipeline_summary] after a sequence of [add_step] calls:
    the total grows by the number of calls, [step_types] is extended by the
    functions of the calls in order and is as long as the total, the cleaning
    and feature steps together are no more than the total, [first_step] and
    [last_step] are [None] exactly when there is no step, and otherwise are
    the time stamps of the first and of the last call. *)
Theorem summary_after_add_steps (calls : list (string * string * pyval)) (env : Env) :
  let before := get_pipeline_summary (generator env) in
  let after := get_pipeline_summary (generator (add_steps isoformat calls env)) in
  total_steps after = (total_steps before + length calls)%nat /\
  step_types after = step_types before ++ map (fun c => c.1.2) calls /\
  total_steps after = length (step_types after) /\
  (cleaning_steps after + feature_steps after <= total_steps after)%nat /\
  (first_step after = None <-> total_steps after = O) /\
  (last_step after = None <-> total_steps after = O) /\
  (total_steps before = O -> calls <> [] ->
   first_step after = Some (isoformat (clock env))) /\
  (calls <> [] ->
   last_step after = Some (isoformat (clock env + length calls - 1))).
Proof.
  intros before after. subst before after. rewrite add_steps_spec.
  unfold get_pipeline_summary.
  cbn [generator pipeline_steps total_steps step_types cleaning_steps feature_steps
       first_step last_step].
  set (old := pipeline_steps (generator env)).
  set (new := stamped isoformat (clock env) calls).
  assert (Hlen : length new = length calls).
  { unfold new. generalize (clock env).
    induction calls as [|c calls IH]; intros n; [done|]. cbn. by rewrite IH. }
  split; [by rewrite length_app, Hlen|].
  split; [unfold new; by rewrite map_app, stamped_functions|].
  split; [by rewrite length_map|].
  split.
  { generalize (old ++ new). intros l. induction l as [|s l IH]; [done|].
    rewrite !filter_cons. cbn [length].
    destruct (decide (function s = "data_cleaning"%string)) as [Hc|Hc];
      destruct (decide (function s = "feature_engineering"%string)) as [Hf|Hf];
      cbn [length]; try lia.
    rewrite Hc in Hf. discriminate. }
  split; [by destruct (old ++ new)|].
  split.
  { destruct (old ++ new) as [|s l] using rev_ind; [done|].
    rewrite last_snoc, length_app. cbn. split; [discriminate|lia]. }
  split.
  - intros Hold Hcalls. destruct old; [|discriminate]. cbn [app].
    unfold new. by destruct calls.
  - intros Hcalls. rewrite <- (stamped_last (clock env) calls Hcalls). fold new.
    f_equal. destruct new as [|s l]; [|apply last_app_cons].
    destruct calls; [done|discriminate Hlen].
Qed.

Variable object_bool : nat -> option bool.
Variable object_items : nat -> option (list (pyval * pyval)).

Local Abbreviation truthy := (truthy object_bool).
Local Abbreviation items_of := (items_of object_items).
Local Abbreviation report_step := (report_step py_str object_bool object_items).
Local Abbreviation generate_report :=
  (generate_report strftime py_str object_bool object_items).




End Saving.


(** ** The examples *)

Import Examples.

(** Reports of three generators.  Parameters that are a list of names are
    accepted by [add_step] and make the report raise; the dicts of
    [examples/advanced_usage.py] are reported; so is an object that is no
    dict and has [items()], a read-only view of a dict for one. *)
Example reports_of_three_generators :
  let view (o : nat) := Some [(PyStr "k", PyInt 1)] in
  let report calls :=
    generate_report clock_text str0 (fun _ => Some true) view
      (generator (Examples.add_steps calls new_env)) 0 in
  report [("Select", "select", PyList [PyStr "a"; PyStr "b"])]%string = None /\
  is_Some (report usage_calls) /\
  is_Some (report object_calls).
Proof. vm_compute. split; [done|]. split; eexists; reflexivity. Qed.

(** The call of [examples/advanced_usage.py]. *)
Lemma bare_file_name_is_never_saved_witness :
  Examples.save_pipeline "advanced_pipeline.py" "python"
    (Examples.add_steps usage_calls new_env)
  = (false, Examples.add_steps usage_calls new_env).
Proof.
  apply bare_file_name_is_never_saved. apply (bool_decide_unpack _). by vm_compute.
Defined.

Lemma failed_json_export_leaves_a_broken_file_witness :
  (Examples.save_pipeline "out/pipeline.json" "json"
     (Examples.add_steps object_calls new_env)).1 = false /\
  files (fs (Examples.save_pipeline "out/pipeline.json" "json"
               (Examples.add_steps object_calls new_env)).2)
    !! "out/pipeline.json"%string = Some FPartial.
Proof.
  apply (failed_json_export_leaves_a_broken_file clock_text clock_text str0 repr0
           allow allow picklable0 "out/pipeline.json"
           (Examples.add_steps object_calls new_env) (mkFS ∅ {[ "out"%string ]})
           (mkStep "Custom" "custom" (PyObject 0) (clock_text 0))).
  - reflexivity.
  - apply (bool_decide_unpack _). by vm_compute.
  - reflexivity.
  - vm_compute. left.
  - reflexivity.
Defined.

Lemma json_export_keeps_every_step_witness :
  (Examples.save_pipeline "out/pipeline.json" "json"
     (Examples.add_steps tuple_calls new_env)).1 = true /\
  exists doc,
    (files (fs (Examples.save_pipeline "out/pipeline.json" "json"
                  (Examples.add_steps tuple_calls new_env)).2)
       !! "out/pipeline.json"%string ≫= json_load) = Some doc /\
    loaded_steps doc
    = Some (zip_with (fun c j => (PyStr c.1.1, PyStr c.1.2, of_json j))
                     tuple_calls [tuple_document]).
Proof.
  apply (json_export_keeps_every_step clock_text clock_text str0 repr0 allow allow
           picklable0 tuple_calls [tuple_document] 0%nat empty_disk
           (mkFS ∅ {[ "out"%string ]}) "out/pipeline.json").
  - repeat constructor.
  - reflexivity.
  - apply (bool_decide_unpack _). by vm_compute.
  - reflexivity.
Defined.

End PipelineProperties.

(** * The configuration *)

Module ConfigProofs.

Import Config ConfigReasoning.

Lemma split_nonempty (key : string) : split key <> [].
Proof.
  induction key as [|c key IH]; [done|]. cbn [split].
  destruct (Ascii.eqb c dot); [done|]. by destruct (split key).
Qed.

Lemma split_plain (key : string) :
  dot ∉ list_ascii_of_string key -> split key = [key].
Proof.
  induction key as [|c key IH]; [done|]. cbn [list_ascii_of_string split].
  rewrite not_elem_of_cons. intros [Hne Hrest].
  destruct (Ascii.eqb_spec c dot); [congruence|]. by rewrite IH.
Qed.

Lemma split_dotted (group key : string) :
  dot ∉ list_ascii_of_string group ->
  split (group +:+ "." +:+ key) = group :: split key.
Proof.
  induction group as [|c group IH]; [done|]. cbn [list_ascii_of_string].
  rewrite not_elem_of_cons. intros [Hne Hrest].
  change (String c group +:+ "." +:+ key) with (String c (group +:+ "." +:+ key)).
  cbn [split]. destruct (Ascii.eqb_spec c dot); [congruence|]. by rewrite IH.
Qed.

(** ** [set] followed by [get] *)

Lemma set_path_spec (keys : list string) :
  forall (config v : entry) (st st' : Store),
  keys <> [] ->
  NoDup (path_refs st config keys) ->
  set_path config keys v st = (Some tt, st') ->
  get_path st' config keys = Some v /\
  (forall r, r ∈ dom st -> r ∉ path_refs st config keys -> st' !! r = st !! r).
Proof.
  induction keys as [|k rest IH]; intros config v st st' Hne Hnd Hset; [done|].
  cbn [set_path] in Hset. destruct config as [a|r]; [discriminate|].
  cbn [path_refs] in Hnd. cbn [get_path path_refs].
  destruct (st !! r) as [d|] eqn:Er; [|discriminate]. cbn [mbind option_bind] in *.
  destruct rest as [|k' rest'].
  - injection Hset as <-. rewrite lookup_insert_eq. cbn [mbind option_bind].
    rewrite lookup_insert_eq. split; [done|].
    intros r0 _ Hr0. apply lookup_insert_ne. intros ->. apply Hr0. left.
  - destruct (d !! k) as [next|] eqn:Ek.
    + apply NoDup_cons in Hnd as [Hr Hnd].
      destruct (IH next v st st' ltac:(done) Hnd Hset) as [Hget Hframe].
      rewrite (Hframe r); [|by apply elem_of_dom|done].
      rewrite Er. cbn [mbind option_bind]. rewrite Ek. split; [done|].
      intros r0 Hdom Hr0. apply Hframe; [done|].
      intros H. apply Hr0. by right.
    + set (r' := fresh (dom st)) in *.
      assert (Hfresh : r' ∉ dom st) by apply is_fresh.
      assert (Hrr' : r <> r').
      { intros ->. apply Hfresh. by apply elem_of_dom. }
      set (st1 := <[r := <[k := Dict r']> d]> (<[r' := ∅]> st)) in *.
      assert (H1 : st1 !! r' = Some ∅).
      { unfold st1. rewrite lookup_insert_ne by done. apply lookup_insert_eq. }
      assert (Hnd1 : NoDup (path_refs st1 (Dict r') (k' :: rest'))).
      { cbn [path_refs]. rewrite H1. cbn [mbind option_bind]. rewrite lookup_empty.
        apply NoDup_singleton. }
      destruct (IH (Dict r') v st1 st' ltac:(done) Hnd1 Hset) as [Hget Hframe].
      assert (Hpath : path_refs st1 (Dict r') (k' :: rest') = [r']).
      { cbn [path_refs]. rewrite H1. cbn [mbind option_bind]. by rewrite lookup_empty. }
      rewrite Hpath in Hframe.
      assert (Hdom1 : forall x, x ∈ dom st -> x ∈ dom st1).
      { intros x Hx. unfold st1. rewrite !dom_insert_L.
        apply elem_of_union. right. apply elem_of_union. by right. }
      rewrite (Hframe r).
      2:{ apply Hdom1. by apply elem_of_dom. }
      2:{ intros H. apply list_elem_of_singleton in H. done. }
      unfold st1 at 1. rewrite lookup_insert_eq. cbn [mbind option_bind].
      rewrite lookup_insert_eq. split; [exact Hget|].
      intros r0 Hdom Hr0. rewrite Hframe.
      * unfold st1. rewrite lookup_insert_ne by (intros ->; apply Hr0; left).
        apply lookup_insert_ne. intros <-. done.
      * by apply Hdom1.
      * intros H. apply list_elem_of_singleton in H. subst r0. done.
Qed.

(** X24.  [get] after a [set] that returned gives the value that was
    set, for a key with any number of dots, when the dicts on the path of the
    key are distinct objects. *)
Theorem set_then_get (st : Store) (config : nat) (key : string) (v default : entry) :
  NoDup (path_refs st (Dict config) (split key)) ->
  (set config key v st).1 = Some tt ->
  get (set config key v st).2 config key default = v.
Proof.
  intros Hnd Hset. unfold get, set in *.
  destruct (set_path (Dict config) (split key) v st) as [[[]|] st'] eqn:E; [|done].
  destruct (set_path_spec (split key) (Dict config) v st st' (split_nonempty key) Hnd E)
    as [Hget _].
  cbn [snd]. by rewrite Hget.
Qed.

(** ** A key that runs through a scalar *)

Lemma set_path_new (keys : list string) :
  forall (r : nat) (v : entry) (st : Store),
  st !! r = Some ∅ -> (set_path (Dict r) keys v st).1 = Some tt.
Proof.
  induction keys as [|k rest IH]; intros r v st Hr; [done|].
  cbn [set_path]. rewrite Hr. destruct rest as [|k' rest']; [done|].
  rewrite lookup_empty. apply IH.
  rewrite lookup_insert_ne; [apply lookup_insert_eq|].
  intros ->. apply (is_fresh (dom st)). by apply elem_of_dom.
Qed.

Lemma set_path_raise (keys : list string) :
  forall (config v : entry) (st st' : Store),
  set_path config keys v st = (None, st') -> st' = st.
Proof.
  induction keys as [|k rest IH]; intros config v st st'; [done|].
  cbn [set_path]. destruct config as [a|r]; [by intros [= <-]|].
  destruct (st !! r) as [d|] eqn:Er; [|by intros [= <-]].
  destruct rest as [|k' rest']; [done|].
  destruct (d !! k) as [next|]; [apply IH|].
  intros Hset.
  pose proof (set_path_new (k' :: rest') (fresh (dom st)) v
                (<[r := <[k := Dict (fresh (dom st))]> d]> (<[fresh (dom st) := ∅]> st)))
    as Hok.
  rewrite Hset in Hok. discriminate Hok.
  rewrite lookup_insert_ne; [apply lookup_insert_eq|].
  intros ->. apply (is_fresh (dom st)). by apply elem_of_dom.
Qed.

Lemma through_a_scalar (prefix : list string) :
  forall (config : entry) (a : atom) (k : string) (more : list string) (v : entry)
         (st : Store),
  get_path st config prefix = Some (Leaf a) ->
  set_path config (prefix ++ k :: more) v st = (None, st) /\
  get_path st config (prefix ++ k :: more) = None.
Proof.
  induction prefix as [|p ps IH]; intros config a k more v st Hget.
  - injection Hget as ->. done.
  - cbn [get_path] in Hget. destruct config as [a0|r]; [discriminate|].
    cbn [app set_path get_path].
    destruct (st !! r) as [d|]; [|discriminate]. cbn [mbind option_bind] in *.
    destruct (d !! p) as [next|]; [|discriminate]. cbn [mbind option_bind] in *.
    destruct (IH next a k more v st Hget) as [Hset Hnone].
    split; [|done]. by destruct ps.
Qed.

(** X25.  A key that runs through a scalar: [set] raises and changes
    nothing, while [get] swallows the same error and returns its default. *)
Theorem set_raises_where_get_gives_the_default
    (st : Store) (config : nat) (key : string) (prefix more : list string) (k : string)
    (a : atom) (v default : entry) :
  split key = prefix ++ k :: more ->
  get_path st (Dict config) prefix = Some (Leaf a) ->
  set config key v st = (None, st) /\
  get st config key default = default.
Proof.
  intros Hkey Hleaf. unfold set, get. rewrite Hkey.
  destruct (through_a_scalar prefix (Dict config) a k more v st Hleaf) as [-> ->].
  done.
Qed.

(** X26.  A [set] that raises leaves every dict as it was: a key that is
    missing on the way is only created when the rest of the path can be
    created too. *)
Theorem failed_set_changes_nothing (st : Store) (config : nat) (key : string) (v : entry) :
  (set config key v st).1 = None -> (set config key v st).2 = st.
Proof.
  unfold set. destruct (set_path _ _ _ _) as [[[]|] st'] eqn:E; [done|].
  intros _. by apply set_path_raise in E.
Qed.

(** ** Instances and the class defaults *)

Lemma init_spec (st : Store) (top : gmap string entry) :
  st !! DEFAULTS = Some top ->
  __init__ st = (fresh (dom st), <[fresh (dom st) := top]> st).
Proof. intros H. unfold __init__. by rewrite H. Qed.


(** X27.  Two instances share the nested dicts of the class attribute
    [DEFAULTS], because [__init__] copies only the outer dict.  A dotted key
    set on one instance is read by the other instance and is written into
    [DEFAULTS] itself; a key without a dot is set on the instance alone. *)
Theorem instances_share_the_nested_defaults
    (st : Store) (top d : gmap string entry) (group key : string) (r : nat)
    (v other : entry) :
  st !! DEFAULTS = Some top ->
  top !! group = Some (Dict r) ->
  st !! r = Some d ->
  r <> DEFAULTS ->
  dot ∉ list_ascii_of_string group ->
  dot ∉ list_ascii_of_string key ->
  let first := __init__ st in
  let second := __init__ first.2 in
  let nested := set first.1 (group +:+ "." +:+ key) v second.2 in
  let outer := set first.1 group v second.2 in
  nested.1 = Some tt /\
  get nested.2 second.1 (group +:+ "." +:+ key) other = v /\
  get nested.2 DEFAULTS (group +:+ "." +:+ key) other = v /\
  outer.1 = Some tt /\
  get outer.2 second.1 group other = Dict r /\
  get outer.2 first.1 group other = v.
Proof.
  intros Htop Hgroup Hr Hr0 Hg Hk first second nested outer.
  subst nested outer second first.
  rewrite (init_spec st top Htop). cbn [fst snd].
  set (c1 := fresh (dom st)).
  assert (Hc1 : c1 ∉ dom st) by apply is_fresh.
  set (st1 := <[c1 := top]> st).
  assert (H01 : DEFAULTS <> c1) by (intros <-; apply Hc1; by apply elem_of_dom).
  assert (Hr1 : r <> c1) by (intros <-; apply Hc1; by apply elem_of_dom).
  assert (Hd1 : st1 !! DEFAULTS = Some top) by (unfold st1; by rewrite lookup_insert_ne).
  rewrite (init_spec st1 top Hd1). cbn [fst snd].
  set (c2 := fresh (dom st1)).
  assert (Hc2 : c2 ∉ dom st1) by apply is_fresh.
  assert (H12 : c1 <> c2).
  { intros <-. apply Hc2. unfold st1. rewrite dom_insert_L. apply elem_of_union. left.
    by apply elem_of_singleton. }
  assert (H02 : DEFAULTS <> c2).
  { intros <-. apply Hc2. unfold st1. rewrite dom_insert_L. apply elem_of_union. right.
    by apply elem_of_dom. }
  assert (Hr2 : r <> c2).
  { intros <-. apply Hc2. unfold st1. rewrite dom_insert_L. apply elem_of_union. right.
    by apply elem_of_dom. }
  set (st2 := <[c2 := top]> st1).
  assert (H2c1 : st2 !! c1 = Some top).
  { unfold st2, st1. rewrite lookup_insert_ne by done. apply lookup_insert_eq. }
  assert (H2c2 : st2 !! c2 = Some top) by apply lookup_insert_eq.
  assert (H2d : st2 !! DEFAULTS = Some top) by (unfold st2; by rewrite lookup_insert_ne).
  assert (H2r : st2 !! r = Some d).
  { unfold st2, st1. by rewrite !lookup_insert_ne. }
  unfold set, get.
  rewrite (split_dotted _ _ Hg), (split_plain _ Hk), (split_plain _ Hg).
  assert (Hnested : set_path (Dict c1) [group; key] v st2
                    = (Some tt, <[r := <[key := v]> d]> st2)).
  { cbn [set_path]. rewrite H2c1, Hgroup. cbn [set_path]. by rewrite H2r. }
  assert (Houter : set_path (Dict c1) [group] v st2
                   = (Some tt, <[c1 := <[group := v]> top]> st2)).
  { cbn [set_path]. by rewrite H2c1. }
  rewrite Hnested, Houter. cbn [fst snd].
  assert (Hlook : forall c, c <> r -> st2 !! c = Some top ->
            get_path (<[r := <[key := v]> d]> st2) (Dict c) [group; key] = Some v).
  { intros c Hne Hc. cbn [get_path].
    rewrite lookup_insert_ne by done. rewrite Hc. cbn [mbind option_bind].
    rewrite Hgroup. cbn [mbind option_bind]. rewrite lookup_insert_eq.
    cbn [mbind option_bind]. by rewrite lookup_insert_eq. }
  rewrite (Hlook c2), (Hlook DEFAULTS) by done.
  split; [done|]. split; [done|]. split; [done|]. split; [done|].
  cbn [get_path]. rewrite lookup_insert_ne by done. rewrite H2c2.
  cbn [mbind option_bind]. rewrite Hgroup. cbn [mbind option_bind].
  split; [done|].
  rewrite lookup_insert_eq. cbn [mbind option_bind]. by rewrite lookup_insert_eq.
Qed.

(** ** Loading a file *)

Lemma tree_nested_ind (P : tree -> Prop) :
  (forall a, P (TLeaf a)) ->
  (forall items, Forall (fun kt => P kt.2) items -> P (TDict items)) ->
  forall t, P t.
Proof.
  intros Hl Hd. fix IH 1. intros [a|items]; [apply Hl|apply Hd].
  induction items as [|[k t] items IHi]; constructor; [apply IH|exact IHi].
Qed.

Lemma same_keys_refl (st : Store) : same_keys st st.
Proof. intros r d H. eauto. Qed.

Lemma same_keys_trans (st1 st2 st3 : Store) :
  same_keys st1 st2 -> same_keys st2 st3 -> same_keys st1 st3.
Proof.
  intros H12 H23 r d H. destruct (H12 r d H) as (d2 & H2 & Hd2).
  destruct (H23 r d2 H2) as (d3 & H3 & Hd3). exists d3. split; [done|congruence].
Qed.

(** The objects of a stored value are new ones. *)
Lemma store_tree_keeps (t : tree) :
  forall (st : Store) (r : nat) (d : gmap string entry),
  st !! r = Some d -> (store_tree t st).2 !! r = Some d.
Proof.
  induction t as [a|items IH] using tree_nested_ind; intros st r d Hr; [done|].
  cbn [store_tree].
  set (members := fix members (items : list (string * tree)) (d : gmap string entry)
                      (st : Store) : gmap string entry * Store :=
         match items with
         | [] => (d, st)
         | (k, t') :: rest =>
             let '(v, st1) := store_tree t' st in members rest (<[k := v]> d) st1
         end).
  assert (Hm : forall acc st0, st0 !! r = Some d -> (members items acc st0).2 !! r = Some d).
  { induction IH as [|[k t] items Ht _ IHm]; intros acc st0 H0; [done|].
    cbn [members]. specialize (Ht st0 r d H0). cbn [snd] in Ht.
    destruct (store_tree t st0) as [v st1]. by apply IHm. }
  specialize (Hm ∅ st Hr). destruct (members items ∅ st) as [d' st']. cbn [snd] in *.
  rewrite lookup_insert_ne; [done|].
  intros <-. apply (is_fresh (dom st')). by apply elem_of_dom.
Qed.

Lemma update_same_keys (user : tree) :
  forall (config : nat) (st st' : Store),
  _update_config config user st = Some st' -> same_keys st st'.
Proof.
  induction user as [a|items IH] using tree_nested_ind; intros config st st'; [done|].
  cbn [_update_config].
  set (loop := fix loop (items : list (string * tree)) (st : Store) : option Store :=
         match items with
         | [] => Some st
         | (key, value) :: rest =>
             match st !! config ≫= (fun d => d !! key) with
             | None => loop rest st
             | Some old =>
                 match value, old with
                 | TDict _, Dict r =>
                     match _update_config r value st with
                     | Some st' => loop rest st'
                     | None => None
                     end
                 | _, _ =>
                     let '(v, st1) := store_tree value st in
                     loop rest (alter (fun d => <[key := v]> d) config st1)
                 end
             end
         end).
  revert st st'. induction IH as [|[key value] items Hv _ IHl]; intros st st'.
  - intros [= <-]. apply same_keys_refl.
  - cbn [loop].
    destruct (st !! config) as [d|] eqn:Ec; cbn [mbind option_bind]; [|apply IHl].
    destruct (d !! key) as [old|] eqn:Ek; [|apply IHl].
    assert (Hassign : forall st2,
      (let '(v, st1) := store_tree value st in
       loop items (alter (fun d => <[key := v]> d) config st1)) = Some st2 ->
      same_keys st st2).
    { intros st2. pose proof (store_tree_keeps value st) as Hkeep.
      destruct (store_tree value st) as [v st1]. cbn [snd] in Hkeep. intros Hloop.
      eapply same_keys_trans; [|exact (IHl _ _ Hloop)].
      intros r0 d0 H0. destruct (decide (r0 = config)) as [->|Hne].
      - exists (<[key := v]> d0). rewrite lookup_alter_eq, (Hkeep _ _ H0). split; [done|].
        apply dom_insert_lookup_L. assert (d0 = d) as -> by congruence. eauto.
      - exists d0. rewrite lookup_alter_ne by done. split; [by apply Hkeep|done]. }
    destruct value as [a|sub]; [exact (Hassign st')|].
    destruct old as [a|r]; [exact (Hassign st')|].
    destruct (_update_config r (TDict sub) st) as [st1|] eqn:Eu; [|discriminate].
    intros Hloop. eapply same_keys_trans; [|exact (IHl _ _ Hloop)].
    by eapply (Hv r).
Qed.

(** X28.  [load_config] never adds or removes a key: every dict has the
    keys it had, whatever the file holds, and a file that is no mapping
    changes nothing. *)
Theorem load_config_keeps_the_keys (config : nat) (parsed : option tree) (st : Store) :
  same_keys st (load_config config parsed st) /\
  (forall a, load_config config (Some (TLeaf a)) st = st).
Proof.
  split; [|done].
  unfold load_config. destruct parsed as [user|]; [|apply same_keys_refl].
  destruct (_update_config config user st) as [st'|] eqn:E; [|apply same_keys_refl].
  by eapply update_same_keys.
Qed.


(** ** The examples *)

(** An instance that sets a key of a group, as [examples/advanced_usage.py]
    does. *)
Lemma set_then_get_witness :
  get (set (__init__ initial_store).1 "feature_engineering.max_features"
           (Leaf (AInt 12)) (__init__ initial_store).2).2
      (__init__ initial_store).1 "feature_engineering.max_features" (Leaf ANone)
  = Leaf (AInt 12).
Proof.
  apply set_then_get.
  - apply (bool_decide_unpack _). vm_compute. reflexivity.
  - vm_compute. reflexivity.
Defined.

(** A key below the scalar [max_features]. *)
Lemma set_raises_where_get_gives_the_default_witness :
  set (__init__ initial_store).1 "feature_engineering.max_features.unit"
      (Leaf (AInt 12)) (__init__ initial_store).2
  = (None, (__init__ initial_store).2) /\
  get (__init__ initial_store).2 (__init__ initial_store).1
      "feature_engineering.max_features.unit" (Leaf ANone)
  = Leaf ANone.
Proof.
  apply (set_raises_where_get_gives_the_default _ _ _
           ["feature_engineering"; "max_features"]%string [] "unit" (AInt 50));
    vm_compute; reflexivity.
Defined.

Lemma failed_set_changes_nothing_witness :
  (set (__init__ initial_store).1 "feature_engineering.max_features.unit"
       (Leaf (AInt 12)) (__init__ initial_store).2).2
  = (__init__ initial_store).2.
Proof. apply failed_set_changes_nothing. vm_compute. reflexivity. Defined.

(** The two calls of [examples/advanced_usage.py] reach the module's own
    instance. *)
Lemma instances_share_the_nested_defaults_witness :
  let first := __init__ initial_store in
  let second := __init__ first.2 in
  let nested := set first.1 ("feature_engineering" +:+ "." +:+ "max_features")
                    (Leaf (AInt 12)) second.2 in
  let outer := set first.1 "feature_engineering" (Leaf (AInt 12)) second.2 in
  nested.1 = Some tt /\
  get nested.2 second.1 ("feature_engineering" +:+ "." +:+ "max_features") (Leaf ANone)
  = Leaf (AInt 12) /\
  get nested.2 DEFAULTS ("feature_engineering" +:+ "." +:+ "max_features") (Leaf ANone)
  = Leaf (AInt 12) /\
  outer.1 = Some tt /\
  get outer.2 second.1 "feature_engineering" (Leaf ANone) = Dict 2 /\
  get outer.2 first.1 "feature_engineering" (Leaf ANone) = Leaf (AInt 12).
Proof.
  apply (instances_share_the_nested_defaults initial_store defaults feature_engineering
           "feature_engineering" "max_features" 2).
  - reflexivity.
  - reflexivity.
  - reflexivity.
  - discriminate.
  - apply (bool_decide_unpack _). vm_compute. reflexivity.
  - apply (bool_decide_unpack _). vm_compute. reflexivity.
Defined.

End ConfigProofs.

(** * The helpers *)

Module HelpersProofs.

Import Profiler ProfilerProofs Helpers.

Lemma unique_length (l : list cell) : (length (unique l) <= length l)%nat.
Proof.
  induction l as [|c l IH]; [done|]. cbn [unique length].
  pose proof (length_filter (fun d => cell_eqb c d = false) (unique l)). lia.
Qed.

Lemma nunique_le (s : Series) : (nunique s <= series_len s)%nat.
Proof.
  unfold nunique, series_len.
  etrans; [apply unique_length|apply length_filter].
Qed.

Section Validation.

Variable parse_datetimes : list (option string) -> option (list (option Z)).
Variable column_statistics : Series -> gmap string (option Q).
Variable memory_usage : DataFrame -> string.

(** X29.  A table that [validate_dataframe] accepts has at least one row
    and one column, at least [min_rows] rows and every required column; when
    it is well formed, [analyze] returns for it and the three quality scores
    are numbers. *)
Theorem validated_table_has_defined_scores (df : DataFrame)
    (required_columns : option (list string)) (min_rows : Z) :
  validate_dataframe df required_columns min_rows = true ->
  (1 <= num_rows df)%nat /\ (1 <= num_columns df)%nat /\
  min_rows <= Z.of_nat (num_rows df) /\
  (forall cols col, required_columns = Some cols -> col ∈ cols -> col ∈ column_names df) /\
  (wf_frame df ->
   exists p c u o,
     analyze parse_datetimes column_statistics memory_usage df = Some p /\
     completeness_score (quality_metrics p) = Some c /\
     uniqueness_score (quality_metrics p) = Some u /\
     overall_quality_score (quality_metrics p) = Some o).
Proof.
  unfold validate_dataframe, empty.
  destruct (Z.ltb_spec (Z.of_nat (num_rows df)) min_rows) as [|Hmin]; [discriminate|].
  destruct (bool_decide _) eqn:Emiss; [|discriminate]. cbn [negb].
  apply bool_decide_eq_true in Emiss.
  destruct (Nat.eqb_spec (num_rows df) 0) as [|Hrows]; [discriminate|].
  destruct (Nat.eqb_spec (num_columns df) 0) as [|Hcols]; [discriminate|].
  intros _. split; [lia|]. split; [lia|]. split; [done|]. split.
  - intros cols col -> Hin.
    destruct (decide (col ∈ column_names df)) as [|Hno]; [done|].
    exfalso. eapply (filter_nil_not_elem_of _ _ col Emiss); done.
  - intros [Hal _].
    destruct (analyze_total parse_datetimes column_statistics memory_usage df Hal)
      as (types & _ & Ha); [lia|].
    assert (Ho : exists o, overall_quality_score (_calculate_quality_metrics df) = Some o).
    { cbn [_calculate_quality_metrics overall_quality_score]. unfold py_max0.
      repeat case_match; eauto. }
    destruct Ho as [o Ho].
    eexists _, _, _, o. split; [exact Ha|].
    cbn [quality_metrics]. split; [|split; [|exact Ho]].
    + cbn [_calculate_quality_metrics completeness_score].
      by rewrite np_div_pos by lia.
    + cbn [_calculate_quality_metrics uniqueness_score].
      by rewrite np_div_pos by lia.
Qed.

End Validation.

Lemma uniqueness_loop_spec (rows : nat) (threshold : Q) (cols : list (string * Series)) :
  (uniqueness_loop rows threshold cols = None <-> rows = O /\ cols <> []) /\
  (forall l, uniqueness_loop rows threshold cols = Some l -> l `sublist_of` map fst cols) /\
  (Forall (fun c => series_len c.2 = rows) cols -> (1 < threshold)%Q ->
   (1 <= rows)%nat -> uniqueness_loop rows threshold cols = Some []).
Proof.
  induction cols as [|[c s] cols (IH1 & IH2 & IH3)].
  - split; [|split]; [|by intros l [= <-]|done].
    split; [done|]. by intros [_ ?].
  - cbn [uniqueness_loop]. destruct rows as [|n].
    + split; [|split]; try done. lia.
    + set (rows := S n) in *.
      destruct (uniqueness_loop rows threshold cols) as [l|] eqn:El.
      * cbn [mbind option_bind]. split; [|split].
        -- split; [done|]. by intros [? _].
        -- intros l' [= <-]. cbn [map fst]. specialize (IH2 l eq_refl).
           destruct (Qle_bool _ _); [by apply sublist_skip|by apply sublist_cons].
        -- intros Hal Hthr Hrows. apply Forall_cons in Hal as [Hs Hal]. cbn [snd] in Hs.
           specialize (IH3 Hal Hthr Hrows). injection IH3 as ->.
           destruct (Qle_bool threshold (Qnat (nunique s) / Qnat rows)) eqn:E; [|done].
           exfalso. apply Qle_bool_iff in E.
           pose proof (nunique_le s) as Hle. rewrite Hs in Hle.
           destruct (ratio_bounds (nunique s) rows ltac:(lia) Hle) as [_ H1]. lra.
      * exfalso. destruct (proj1 IH1 eq_refl) as [? _]. unfold rows in *. discriminate.
Qed.

(** X30.  On a table with distinct column names,
    [check_column_uniqueness] raises exactly when the table has columns and
    no rows; otherwise the names it returns are column names, in table
    order, and there are none when the threshold is greater than 1. *)
Theorem column_uniqueness_of_a_table (df : DataFrame) (threshold : Q) :
  NoDup (column_names df) ->
  (check_column_uniqueness df threshold = None <->
   num_rows df = O /\ (1 <= num_columns df)%nat) /\
  (forall l, check_column_uniqueness df threshold = Some l ->
     l `sublist_of` column_names df) /\
  (aligned df -> (1 <= num_rows df)%nat -> (1 < threshold)%Q ->
   check_column_uniqueness df threshold = Some []).
Proof.
  intros _. unfold check_column_uniqueness, column_names, num_columns.
  destruct (uniqueness_loop_spec (num_rows df) threshold (columns df)) as (H1 & H2 & H3).
  split; [|split; [done|]].
  - rewrite H1. destruct (columns df); cbn [length]; split; intros [? ?]; split;
      try done; try lia.
  - intros Hal Hrows Hthr. by apply H3.
Qed.


(** ** The examples *)

Import Examples.

Lemma validated_table_has_defined_scores_witness :
  (1 <= num_rows sample_data)%nat /\ (1 <= num_columns sample_data)%nat /\
  1 <= Z.of_nat (num_rows sample_data) /\
  (forall cols col, Some ["numerical_1"; "text"]%string = Some cols -> col ∈ cols ->
     col ∈ column_names sample_data) /\
  (wf_frame sample_data ->
   exists p c u o,
     Examples.analyze sample_data = Some p /\
     completeness_score (quality_metrics p) = Some c /\
     uniqueness_score (quality_metrics p) = Some u /\
     overall_quality_score (quality_metrics p) = Some o).
Proof.
  apply (validated_table_has_defined_scores no_dates stats0 memory0 sample_data
           (Some ["numerical_1"; "text"]%string) 1).
  reflexivity.
Defined.

(** The table of the profiler's test, with the threshold one half. *)
Lemma column_uniqueness_of_a_table_witness :
  (check_column_uniqueness sample_data (1 # 2) = None <->
   num_rows sample_data = O /\ (1 <= num_columns sample_data)%nat) /\
  (forall l, check_column_uniqueness sample_data (1 # 2) = Some l ->
     l `sublist_of` column_names sample_data) /\
  (aligned sample_data -> (1 <= num_rows sample_data)%nat -> (1 < 1 # 2)%Q ->
   check_column_uniqueness sample_data (1 # 2) = Some []).
Proof.
  apply column_uniqueness_of_a_table. exact (proj2 sample_data_wf).
Defined.

(** Three of its four columns have a distinct value in at least half of the
    rows; above the threshold 1 no column is left. *)
Example column_uniqueness_of_sample_data :
  check_column_uniqueness sample_data (1 # 2)
    = Some ["numerical_1"; "numerical_2"; "text"]%string /\
  check_column_uniqueness sample_data (3 # 2) = Some [].
Proof. split; reflexivity. Qed.

End HelpersProofs.
